(** * Stage Experiment Engine: a shallow embedding of [server.js]

    The engine keeps four collections in one lowdb document (journey
    records, experiments, scheduled messages, combination statistics) and
    mutates them from a webhook handler, two cron callbacks and two API
    routes.  This file embeds those handlers as programs of a small
    state-and-exception monad over the document and proves the properties
    the specification states about them.

    Modelling conventions.
    - Timestamps.  The source stores [Date#toISOString()] strings and
      compares them with [<], [<=] and [>].  For the four-digit years the
      engine runs in, that order is the order of the instants, so a
      timestamp is the epoch millisecond count in [Z].
    - Numbers.  Counters are JavaScript numbers holding integers; they are
      [Z] here.  Conversion rates and [Math.random()] draws are exact
      rationals [Q].
    - Objects used as tables ([eventConfig], [cohortIntelligence],
      [messageTemplates], [offerMessages], [frameworks.timing.delays]) are
      finite maps over their own properties.
    - The outside world (clock, random source, uuid generator, the
      CleverTap endpoint, the process environment, the time zone) is an
      [Env] of oracles; the [World] counts how many answers of each oracle
      have been consumed, so that every [Date.now()], [Math.random()] and
      [uuidv4()] call of the source is one read of the matching oracle, in
      program order.
    - In-place mutation of an array element ([journey.checked = true],
      [stats.sent_count += 1]) is an [alter] at the element's position in
      the stored list, which keeps the aliasing of the source: the object
      found by [filter] or [find] is the stored object.
    - [db.write()] flushes the document to disk and does not change it;
      it is not modelled.  A handler runs to its end before the next one
      starts: the interleavings Node allows at an [await] are outside the
      model. *)

From Stdlib Require Import ZArith QArith Qround Lia Lqa Ascii String Sorted.
From stdpp Require Import base list strings gmap pretty.

Local Open Scope Z_scope.

(** ** Data model *)

Inductive ExperimentStatus := StPending | StSent | StOpened | StConverted.

Inductive MessageStatus := MsgPending | MsgSent.

#[global] Instance ExperimentStatus_eq_dec : EqDecision ExperimentStatus.
Proof. solve_decision. Defined.

#[global] Instance MessageStatus_eq_dec : EqDecision MessageStatus.
Proof. solve_decision. Defined.

(** The attributes the engine reads from an event's property bag (or from
    the [attributes] of a manual trigger); [None] is an absent property. *)
Record Attributes := {
  attr_name : option string;
  attr_region : option string
}.

Record Journey := {
  j_id : string;
  j_user_id : string;
  j_event_type : string;
  j_event_time : Z;
  j_properties : Attributes;
  j_check_at : Z;
  j_checked : bool
}.

Record Experiment := {
  e_id : string;
  e_user_id : string;
  e_cohort : string;
  e_timing : string;
  e_channel : string;
  e_lever : string;
  e_offer : string;
  e_tone : string;
  e_message : string;
  e_created_at : Z;
  e_sent_at : option Z;
  e_opened_at : option Z;
  e_converted_at : option Z;
  e_status : ExperimentStatus
}.

Record ScheduledMessage := {
  sm_id : string;
  sm_experiment_id : string;
  sm_user_id : string;
  sm_send_at : Z;
  sm_status : MessageStatus
}.

Record ComboStat := {
  s_combo_key : string;
  s_timing : string;
  s_channel : string;
  s_lever : string;
  s_offer : string;
  s_sent_count : Z;
  s_converted_count : Z;
  s_last_updated : Z
}.

Record DB := {
  experiments : list Experiment;
  combo_stats : list ComboStat;
  scheduled_messages : list ScheduledMessage;
  user_journey : list Journey
}.

Definition defaultData : DB :=
  {| experiments := []; combo_stats := []; scheduled_messages := [];
     user_journey := [] |}.

Record Combo := {
  timing : string;
  channel : string;
  lever : string;
  offer : string;
  tone : string
}.

(** ** Field updates *)

Definition set_checked (b : bool) (j : Journey) : Journey :=
  {| j_id := j_id j; j_user_id := j_user_id j; j_event_type := j_event_type j;
     j_event_time := j_event_time j; j_properties := j_properties j;
     j_check_at := j_check_at j; j_checked := b |}.

Definition set_converted (t : Z) (e : Experiment) : Experiment :=
  {| e_id := e_id e; e_user_id := e_user_id e; e_cohort := e_cohort e;
     e_timing := e_timing e; e_channel := e_channel e; e_lever := e_lever e;
     e_offer := e_offer e; e_tone := e_tone e; e_message := e_message e;
     e_created_at := e_created_at e; e_sent_at := e_sent_at e;
     e_opened_at := e_opened_at e; e_converted_at := Some t;
     e_status := StConverted |}.

Definition set_sent (t : Z) (e : Experiment) : Experiment :=
  {| e_id := e_id e; e_user_id := e_user_id e; e_cohort := e_cohort e;
     e_timing := e_timing e; e_channel := e_channel e; e_lever := e_lever e;
     e_offer := e_offer e; e_tone := e_tone e; e_message := e_message e;
     e_created_at := e_created_at e; e_sent_at := Some t;
     e_opened_at := e_opened_at e; e_converted_at := e_converted_at e;
     e_status := StSent |}.

Definition set_msg_status (st : MessageStatus) (m : ScheduledMessage)
  : ScheduledMessage :=
  {| sm_id := sm_id m; sm_experiment_id := sm_experiment_id m;
     sm_user_id := sm_user_id m; sm_send_at := sm_send_at m;
     sm_status := st |}.

(** [stats.sent_count += 1; if (converted) stats.converted_count += 1;
    stats.last_updated = ...] *)
Definition bump_stat (converted : bool) (t : Z) (s : ComboStat) : ComboStat :=
  {| s_combo_key := s_combo_key s; s_timing := s_timing s;
     s_channel := s_channel s; s_lever := s_lever s; s_offer := s_offer s;
     s_sent_count := s_sent_count s + 1;
     s_converted_count :=
       if converted then s_converted_count s + 1 else s_converted_count s;
     s_last_updated := t |}.

Definition with_experiments (f : list Experiment -> list Experiment) (d : DB) : DB :=
  {| experiments := f (experiments d); combo_stats := combo_stats d;
     scheduled_messages := scheduled_messages d; user_journey := user_journey d |}.

Definition with_combo_stats (f : list ComboStat -> list ComboStat) (d : DB) : DB :=
  {| experiments := experiments d; combo_stats := f (combo_stats d);
     scheduled_messages := scheduled_messages d; user_journey := user_journey d |}.

Definition with_scheduled_messages
    (f : list ScheduledMessage -> list ScheduledMessage) (d : DB) : DB :=
  {| experiments := experiments d; combo_stats := combo_stats d;
     scheduled_messages := f (scheduled_messages d);
     user_journey := user_journey d |}.

Definition with_user_journey (f : list Journey -> list Journey) (d : DB) : DB :=
  {| experiments := experiments d; combo_stats := combo_stats d;
     scheduled_messages := scheduled_messages d;
     user_journey := f (user_journey d) |}.

(** ** The outside world *)

(** What the program prints.  Only the tag of each line and the values
    the proofs below refer to are kept; [LAbandoned] also carries the
    position of the journey record it is printed for, so that two records
    of one user can be told apart in the trace. *)
Inductive LogLine :=
  | LEvent (eventType userId : string)
  | LImmediate (userId cohort : string)
  | LScheduled (userId waitForEvent : string) (checkAt : Z)
  | LConverted (userId experimentId : string)
  | LAbandoned (position : nat) (userId waitForEvent cohort : string)
  | LOk (userId waitForEvent : string)
  | LMock (userId message channel : string)
  | LCleverTapError
  | LSkip (userId : string)
  | LExperiment (experimentId userId cohort : string) (sendAt : Z)
  | LSent (experimentId userId channel : string)
  | LError (experimentId : string).

#[global] Instance LogLine_eq_dec : EqDecision LogLine.
Proof. solve_decision. Defined.

Record Env := {
  clock : nat -> Z;           (* n-th reading of the system clock, in ms *)
  random : nat -> Q;          (* n-th result of Math.random() *)
  uuid : nat -> string;       (* n-th result of uuidv4() *)
  post_fails : nat -> bool;   (* does the n-th axios.post reject? *)
  credentials : bool;         (* CLEVERTAP_ACCOUNT_ID and _PASSCODE both set *)
  tz_offset : Z               (* local time = UTC + tz_offset, in ms *)
}.

Record World := {
  data : DB;
  n_clock : nat;
  n_random : nat;
  n_uuid : nat;
  n_post : nat;
  console : list LogLine
}.

Definition initial_world : World :=
  {| data := defaultData; n_clock := 0; n_random := 0; n_uuid := 0;
     n_post := 0; console := [] |}.

(** ** The monad: state, plus exceptions that leave the state as it is *)

Inductive Exn := TypeError | NetworkError.

Inductive Res (A : Type) :=
  | Ok (a : A)
  | Throw (e : Exn).
Arguments Ok {A} a.
Arguments Throw {A} e.

Definition M (A : Type) : Type := World -> Res A * World.

Definition ret {A} (a : A) : M A := fun w => (Ok a, w).

Definition bind {A B} (m : M A) (f : A -> M B) : M B :=
  fun w => match m w with
           | (Ok a, w') => f a w'
           | (Throw e, w') => (Throw e, w')
           end.

Definition throw {A} (e : Exn) : M A := fun w => (Throw e, w).

Definition try_catch {A} (body : M A) (handler : Exn -> M A) : M A :=
  fun w => match body w with
           | (Ok a, w') => (Ok a, w')
           | (Throw e, w') => handler e w'
           end.

Notation "x <- m ;; k" := (bind m (fun x => k))
  (at level 100, m at next level, right associativity).
Notation "m ;;; k" := (bind m (fun _ => k))
  (at level 100, right associativity).

Definition get_db : M DB := fun w => (Ok (data w), w).

Definition modify_db (f : DB -> DB) : M unit :=
  fun w => (Ok tt,
            {| data := f (data w); n_clock := n_clock w; n_random := n_random w;
               n_uuid := n_uuid w; n_post := n_post w; console := console w |}).

Definition console_log (l : LogLine) : M unit :=
  fun w => (Ok tt,
            {| data := data w; n_clock := n_clock w; n_random := n_random w;
               n_uuid := n_uuid w; n_post := n_post w;
               console := console w ++ [l] |}).

(** [for (const x of xs) body(x)] *)
Fixpoint for_of {A} (xs : list A) (body : A -> M unit) : M unit :=
  match xs with
  | [] => ret tt
  | x :: xs' => body x ;;; for_of xs' body
  end.

(** ** JavaScript library functions used by the engine *)

(** [arr[i]] for a number [i] that holds an integer: [undefined] ([None])
    outside the array. *)
Definition js_index {A} (arr : list A) (i : Z) : option A :=
  if i <? 0 then None else arr !! Z.to_nat i.

(** [Math.floor(r * n)] *)
Definition floor_times (r : Q) (n : Z) : Z := Qfloor (r * inject_Z n).

Definition Qltb (x y : Q) : bool := negb (Qle_bool y x).

(** [Array.prototype.sort(cmp)]: the sort is stable (ECMAScript 2019), so
    for a comparator that orders the elements consistently its result is
    the stable insertion sort.  [before a b] says that [cmp(a, b) < 0]. *)
Fixpoint sort_insert {A} (before : A -> A -> bool) (x : A) (l : list A) : list A :=
  match l with
  | [] => [x]
  | y :: l' => if before y x then y :: sort_insert before x l' else x :: y :: l'
  end.

Fixpoint js_sort {A} (before : A -> A -> bool) (l : list A) : list A :=
  match l with
  | [] => []
  | x :: l' => sort_insert before x (js_sort before l')
  end.

(** The elements of an array paired with their positions: what [filter]
    and [find] hand out are the stored objects, and the position is how
    the model writes to them. *)
Definition indexed {A} (l : list A) : list (nat * A) := imap pair l.

Fixpoint strip_prefix (pat s : string) : option string :=
  match pat with
  | EmptyString => Some s
  | String p pat' =>
      match s with
      | EmptyString => None
      | String c s' => if decide (p = c) then strip_prefix pat' s' else None
      end
  end.

(** Splits [s] around the first occurrence of [pat]. *)
Fixpoint split_first (pat s : string) : option (string * string) :=
  match strip_prefix pat s with
  | Some after => Some (EmptyString, after)
  | None =>
      match s with
      | EmptyString => None
      | String c s' =>
          match split_first pat s' with
          | Some (before, after) => Some (String c before, after)
          | None => None
          end
      end
  end.

(** The replacement text of [String.prototype.replace] for a string
    pattern (GetSubstitution without captures): [$$], [$&], [$`] and [$']
    are expanded, every other character stands for itself. *)
Fixpoint get_substitution (matched before after replacement : string) : string :=
  match replacement with
  | EmptyString => EmptyString
  | String c tl =>
      if decide (c = "$"%char) then
        match tl with
        | String d rest =>
            if decide (d = "$"%char) then
              String "$" (get_substitution matched before after rest)
            else if decide (d = "&"%char) then
              matched +:+ get_substitution matched before after rest
            else if decide (d = "`"%char) then
              before +:+ get_substitution matched before after rest
            else if decide (d = "'"%char) then
              after +:+ get_substitution matched before after rest
            else String c (get_substitution matched before after tl)
        | EmptyString => String c EmptyString
        end
      else String c (get_substitution matched before after tl)
  end.

(** [s.replace(pat, replacement)] with a string pattern: the first
    occurrence only. *)
Definition js_replace (s pat replacement : string) : string :=
  match split_first pat s with
  | Some (before, after) =>
      before +:+ get_substitution pat before after replacement +:+ after
  | None => s
  end.

(** [x || fallback] for an optional string: absent and empty are falsy. *)
Definition or_else (x : option string) (fallback : string) : string :=
  match x with
  | Some s => if decide (s = EmptyString) then fallback else s
  | None => fallback
  end.

(** ** Configuration tables *)

Inductive EventRule :=
  | Waits (waitForEvent : string) (timeout : Z) (cohortIfMissing : string)
  | Immediate (cohort : string).

Definition eventConfig : gmap string EventRule :=
  list_to_map [
    ("trial_paywall_view"%string,
       Waits "trial_initiated" (30 * 60 * 1000) "paywall_bouncers");
    ("trial_initiated"%string,
       Waits "trial_activated" (10 * 60 * 1000) "checkout_abandoners");
    ("payment_failed"%string, Immediate "payment_failed") ].

(** [frameworks.timing.delays]; [None] is a [null] entry. *)
Definition delays : gmap string (option Z) :=
  list_to_map [
    ("2min"%string, Some (2 * 60 * 1000));
    ("5min"%string, Some (5 * 60 * 1000));
    ("30min"%string, Some (30 * 60 * 1000));
    ("1hr"%string, Some (60 * 60 * 1000));
    ("2hr"%string, Some (2 * 60 * 60 * 1000));
    ("4hr"%string, Some (4 * 60 * 60 * 1000));
    ("next_morning"%string, None);
    ("next_evening"%string, None);
    ("payday"%string, None) ].

Record Intelligence := {
  i_timing : list string;
  i_channel : list string;
  i_lever : list string;
  i_offer : list string;
  i_tone : option (list string)
}.

Definition checkout_abandoners : Intelligence :=
  {| i_timing := ["2min"; "1hr"; "2hr"]%string;
     i_channel := ["whatsapp"; "push"]%string;
     i_lever := ["scarcity"; "fomo"; "loss_aversion"]%string;
     i_offer := ["discount_50"; "rupee_1_trial"; "free_episode"]%string;
     i_tone := Some ["urgent"; "curious"]%string |}.

Definition payment_failed : Intelligence :=
  {| i_timing := ["2min"; "5min"; "30min"]%string;
     i_channel := ["whatsapp"; "sms"]%string;
     i_lever := ["reciprocity"; "personalization"; "free_value"]%string;
     i_offer := ["rupee_1_trial"; "paytm_cashback"]%string;
     i_tone := Some ["friendly"; "personal"]%string |}.

Definition paywall_bouncers : Intelligence :=
  {| i_timing := ["1hr"; "2hr"; "next_evening"]%string;
     i_channel := ["push"; "whatsapp"]%string;
     i_lever := ["free_value"; "social_proof"; "cliffhanger"]%string;
     i_offer := ["free_episode"; "extended_preview"]%string;
     i_tone := Some ["curious"; "friendly"]%string |}.

Definition cohortIntelligence : gmap string Intelligence :=
  list_to_map [
    ("checkout_abandoners"%string, checkout_abandoners);
    ("payment_failed"%string, payment_failed);
    ("paywall_bouncers"%string, paywall_bouncers) ].

Definition messageTemplates : gmap string (list string) :=
  list_to_map [
    ("scarcity"%string,
       ["Only {hours} hours left!"; "Offer expires soon"; "Limited time only"]%string);
    ("fomo"%string,
       ["{count} people watching right now"; "Trending in {region}";
        "Everyone's talking about this"]%string);
    ("social_proof"%string,
       ["Rated 4.8 by 10K viewers"; "Join 1 lakh+ subscribers";
        "Top rated in {region}"]%string);
    ("free_value"%string,
       ["FREE episode waiting"; "On us - no strings attached";
        "Your free gift inside"]%string);
    ("reciprocity"%string,
       ["We saved your spot"; "Your show is waiting";
        "We kept it ready for you"]%string);
    ("cliffhanger"%string,
       ["Did she find out the truth?"; "You won't believe what happens next";
        "The twist is coming"]%string);
    ("personalization"%string,
       ["Picked just for you, {name}"; "Based on what you love";
        "Your personalized pick"]%string) ].

Definition offerMessages : gmap string string :=
  list_to_map [
    ("free_episode"%string, "Watch Episode 1 FREE"%string);
    ("discount_50"%string, "50% OFF today only"%string);
    ("rupee_1_trial"%string, "Just ₹1 to start"%string);
    ("paytm_cashback"%string, "Get ₹50 Paytm cashback"%string);
    ("no_offer"%string, "Continue your journey"%string) ].

Definition endpoints : gmap string string :=
  list_to_map [
    ("push"%string, "https://api.clevertap.com/1/send/push.json"%string);
    ("whatsapp"%string, "https://api.clevertap.com/1/send/whatsapp.json"%string);
    ("sms"%string, "https://api.clevertap.com/1/send/sms.json"%string) ].

(** [`${timing}|${channel}|${lever}|${offer}`] *)
Definition comboKey (timing channel lever offer : string) : string :=
  timing +:+ "|" +:+ channel +:+ "|" +:+ lever +:+ "|" +:+ offer.

(** ** The program *)

Record Event := {
  ev_event_type : string;
  ev_user_id : option string;
  ev_device_id : option string;
  ev_event_properties : option Attributes
}.

Definition no_attributes : Attributes :=
  {| attr_name := None; attr_region := None |}.

Record SendResult := { success : bool; mock : bool }.

(** A conversion-rate-annotated copy of a statistics row:
    [{ ...s, cvr: ... }]. *)
Record RatedStat := { stat : ComboStat; cvr : Q }.

(** What [createExperiment] returns: the stored recent experiment, or
    [{ id, combo, message, sendAt }] for a new one. *)
Inductive CreateResult :=
  | Existing (recent : Experiment)
  | Created (id : string) (combo : Combo) (message : string) (sendAt : Z).

Definition result_id (r : CreateResult) : string :=
  match r with
  | Existing recent => e_id recent
  | Created id _ _ _ => id
  end.

(** The [find] predicate of [createExperiment]:
    [e.user_id === userId && e.cohort === cohort && e.created_at > oneHourAgo]. *)
Definition is_recent (userId cohort : string) (oneHourAgo : Z) (e : Experiment)
  : Prop :=
  e_user_id e = userId /\ e_cohort e = cohort /\ oneHourAgo < e_created_at e.

#[global] Instance is_recent_dec userId cohort oneHourAgo e :
  Decision (is_recent userId cohort oneHourAgo e).
Proof. unfold is_recent. apply _. Defined.

Section Engine.

Variable env : Env.

(** *** Reads of the outside world *)

(** [Date.now()], [new Date()] *)
Definition Date_now : M Z :=
  fun w => (Ok (clock env (n_clock w)),
            {| data := data w; n_clock := S (n_clock w); n_random := n_random w;
               n_uuid := n_uuid w; n_post := n_post w; console := console w |}).

Definition Math_random : M Q :=
  fun w => (Ok (random env (n_random w)),
            {| data := data w; n_clock := n_clock w; n_random := S (n_random w);
               n_uuid := n_uuid w; n_post := n_post w; console := console w |}).

Definition uuidv4 : M string :=
  fun w => (Ok (uuid env (n_uuid w)),
            {| data := data w; n_clock := n_clock w; n_random := n_random w;
               n_uuid := S (n_uuid w); n_post := n_post w; console := console w |}).

(** [axios.post(url, payload, ...)]: resolves, or rejects. *)
Definition axios_post (url : string) : M unit :=
  fun w => (if post_fails env (n_post w) then Throw NetworkError else Ok tt,
            {| data := data w; n_clock := n_clock w; n_random := n_random w;
               n_uuid := n_uuid w; n_post := S (n_post w); console := console w |}).

(** *** Smart combo selection *)

(** [arr[Math.floor(Math.random() * arr.length)]].  An [undefined]
    result is kept as the text JavaScript renders it with. *)
Definition randomFrom (arr : list string) : M string :=
  r <- Math_random ;;
  ret (default "undefined"%string
         (js_index arr (floor_times r (Z.of_nat (length arr))))).

Definition rate (s : ComboStat) : RatedStat :=
  {| stat := s;
     cvr := if 0 <? s_sent_count s
            then (inject_Z (s_converted_count s) / inject_Z (s_sent_count s))%Q
            else 0%Q |}.

(** [db.data.combo_stats.filter(...).map(...).sort((a, b) => b.cvr - a.cvr)] *)
Definition ranked_stats (d : DB) : list RatedStat :=
  js_sort (fun a b => Qltb (cvr b - cvr a) 0)
    (rate <$> filter (fun s => 5 <= s_sent_count s) (combo_stats d)).

(** Reading [selected.timing] of an [undefined] [selected] throws a
    TypeError. *)
Definition selectCombo (cohort : string) (userAttributes : Attributes) : M Combo :=
  let intelligence :=
    default checkout_abandoners (cohortIntelligence !! cohort) in
  d <- get_db ;;
  let stats := ranked_stats d in
  r <- Math_random ;;
  let explore := Qltb r (2 # 10) in
  combo <-
    (if negb explore && bool_decide (0 < length stats)%nat then
       let topCombos := take 5 stats in
       r' <- Math_random ;;
       match js_index topCombos
               (floor_times r' (Z.of_nat (length topCombos))) with
       | Some selected =>
           ret (s_timing (stat selected), s_channel (stat selected),
                s_lever (stat selected), s_offer (stat selected))
       | None => throw TypeError
       end
     else
       t <- randomFrom (i_timing intelligence) ;;
       c <- randomFrom (i_channel intelligence) ;;
       l <- randomFrom (i_lever intelligence) ;;
       o <- randomFrom (i_offer intelligence) ;;
       ret (t, c, l, o)) ;;
  tn <- randomFrom (default ["friendly"%string] (i_tone intelligence)) ;;
  let '(t, c, l, o) := combo in
  ret {| timing := t; channel := c; lever := l; offer := o; tone := tn |}.

(** *** Message generation *)

(** The five branches on [combo.tone]. *)
Definition wrap_tone (tone template offerMsg : string) : string :=
  if decide (tone = "urgent"%string) then
    "⏰ " +:+ template +:+ "! " +:+ offerMsg +:+ " - hurry!"
  else if decide (tone = "friendly"%string) then
    "Hey! 👋 " +:+ template +:+ ". " +:+ offerMsg
  else if decide (tone = "curious"%string) then
    "🤔 " +:+ template +:+ "... " +:+ offerMsg
  else if decide (tone = "regional"%string) then
    "🎬 Apne liye kuch khaas! " +:+ offerMsg
  else
    template +:+ ". " +:+ offerMsg.

Definition generateMessage (combo : Combo) (userAttributes : Attributes) : M string :=
  let leverTemplates :=
    default ["Check out Stage"%string] (messageTemplates !! lever combo) in
  let offerMsg :=
    default "Start watching"%string (offerMessages !! offer combo) in
  template <- randomFrom leverTemplates ;;
  let template1 :=
    js_replace template "{name}" (or_else (attr_name userAttributes) "there") in
  let template2 :=
    js_replace template1 "{region}"
      (or_else (attr_region userAttributes) "your city") in
  rc <- Math_random ;;
  let template3 :=
    js_replace template2 "{count}" (pretty (floor_times rc 5000 + 1000)) in
  rh <- Math_random ;;
  let template4 :=
    js_replace template3 "{hours}" (pretty (floor_times rh 4 + 2)) in
  ret (wrap_tone (tone combo) template4 offerMsg).

(** *** CleverTap integration *)

Definition sendViaCleverTap (userId message channel experimentId : string)
  : M SendResult :=
  if negb (credentials env) then
    console_log (LMock userId message channel) ;;;
    ret {| success := true; mock := true |}
  else
    try_catch
      (axios_post (default "https://api.clevertap.com/1/send/push.json"%string
                     (endpoints !! channel)) ;;;
       ret {| success := true; mock := false |})
      (fun error =>
         console_log LCleverTapError ;;;
         ret {| success := false; mock := false |}).

(** *** Experiments *)

Definition day_ms : Z := 24 * 60 * 60 * 1000.

(** [getNextTime(hour, minute)]: today's [hour:minute:00.000] in local
    time, or tomorrow's when that is not after now.  Local time is UTC
    shifted by the fixed offset of the environment. *)
Definition getNextTime (hour minute : Z) : M Z :=
  now <- Date_now ;;
  let local := now + tz_offset env in
  let target :=
    (local `div` day_ms) * day_ms + hour * 3600000 + minute * 60000
    - tz_offset env in
  ret (if target <=? now then target + day_ms else target).

Definition updateComboStats (key : string) (experiment : Experiment)
    (converted : bool) : M unit :=
  d <- get_db ;;
  match list_find (fun s => s_combo_key s = key) (combo_stats d) with
  | Some (i, _) =>
      t <- Date_now ;;
      modify_db (with_combo_stats (alter (bump_stat converted t) i))
  | None =>
      t <- Date_now ;;
      modify_db (with_combo_stats (fun l => l ++ [
        {| s_combo_key := key; s_timing := e_timing experiment;
           s_channel := e_channel experiment; s_lever := e_lever experiment;
           s_offer := e_offer experiment; s_sent_count := 1;
           s_converted_count := if converted then 1 else 0;
           s_last_updated := t |} ]))
  end.

(** [if (delay)]: a [null], absent or zero entry is falsy. *)
Definition truthy_delay (delay : option (option Z)) : option Z :=
  match delay with
  | Some (Some ms) => if decide (ms = 0) then None else Some ms
  | _ => None
  end.

(** The send time of a new experiment (the block after
    [db.data.experiments.push(experiment)] in [createExperiment]). *)
Definition sendAtFor (timing : string) : M Z :=
  match truthy_delay (delays !! timing) with
  | Some delay => now <- Date_now ;; ret (now + delay)
  | None =>
      if decide (timing = "next_morning"%string) then getNextTime 8 0
      else if decide (timing = "next_evening"%string) then getNextTime 19 0
      else now <- Date_now ;; ret (now + 60000)
  end.

Definition createExperiment (userId cohort : string)
    (userAttributes : Attributes) : M CreateResult :=
  t0 <- Date_now ;;
  let oneHourAgo := t0 - 60 * 60 * 1000 in
  d <- get_db ;;
  match list_find (is_recent userId cohort oneHourAgo) (experiments d) with
  | Some (_, recent) =>
      console_log (LSkip userId) ;;;
      ret (Existing recent)
  | None =>
      experimentId <- uuidv4 ;;
      combo <- selectCombo cohort userAttributes ;;
      message <- generateMessage combo userAttributes ;;
      now <- Date_now ;;
      let experiment :=
        {| e_id := experimentId; e_user_id := userId; e_cohort := cohort;
           e_timing := timing combo; e_channel := channel combo;
           e_lever := lever combo; e_offer := offer combo;
           e_tone := tone combo; e_message := message; e_created_at := now;
           e_sent_at := None; e_opened_at := None; e_converted_at := None;
           e_status := StPending |} in
      modify_db (with_experiments (fun l => l ++ [experiment])) ;;;
      sendAt <- sendAtFor (timing combo) ;;
      smId <- uuidv4 ;;
      modify_db (with_scheduled_messages (fun l => l ++ [
        {| sm_id := smId; sm_experiment_id := experimentId;
           sm_user_id := userId; sm_send_at := sendAt;
           sm_status := MsgPending |} ])) ;;;
      console_log (LExperiment experimentId userId cohort sendAt) ;;;
      ret (Created experimentId combo message sendAt)
  end.

(** *** Conversion check *)

(** [user_journey.filter(j => ... && !j.checked).forEach(j => j.checked = true)] *)
Definition mark_checked (userId eventType : string) (l : list Journey)
  : list Journey :=
  (fun j => if decide (j_user_id j = userId /\ j_event_type j = eventType /\
                       j_checked j = false)
            then set_checked true j else j) <$> l.

(** [experiments.filter(...).sort((a, b) => new Date(b.created_at) -
    new Date(a.created_at))[0]], with its position in the store. *)
Definition recent_active (userId : string) (l : list Experiment)
  : option (nat * Experiment) :=
  head (js_sort (fun a b => e_created_at b.2 - e_created_at a.2 <? 0)
          (filter (fun p => e_user_id p.2 = userId /\
                            (e_status p.2 = StSent \/ e_status p.2 = StOpened))
                  (indexed l))).

Definition checkForConversion (userId eventType : string) : M unit :=
  (if decide (eventType = "trial_initiated"%string) then
     modify_db (with_user_journey (mark_checked userId "trial_paywall_view"))
   else ret tt) ;;;
  if decide (eventType = "trial_activated"%string) then
    modify_db (with_user_journey (mark_checked userId "trial_initiated")) ;;;
    d <- get_db ;;
    match recent_active userId (experiments d) with
    | Some (i, experiment) =>
        t <- Date_now ;;
        modify_db (with_experiments (alter (set_converted t) i)) ;;;
        updateComboStats
          (comboKey (e_timing experiment) (e_channel experiment)
                    (e_lever experiment) (e_offer experiment))
          experiment true ;;;
        console_log (LConverted userId (e_id experiment))
    | None => ret tt
    end
  else ret tt.

(** *** The Amplitude webhook *)

(** One turn of the [for (const event of events)] loop, after the user id
    has been found: conversion check, then the rule of the event type.
    The result says whether the event counts as processed. *)
Definition observeEvent (userId eventType : string) (properties : Attributes)
  : M bool :=
  console_log (LEvent eventType userId) ;;;
  checkForConversion userId eventType ;;;
  match eventConfig !! eventType with
  | None => ret false
  | Some (Immediate cohort) =>
      createExperiment userId cohort properties ;;;
      console_log (LImmediate userId cohort) ;;;
      ret true
  | Some (Waits waitForEvent timeout cohortIfMissing) =>
      t <- Date_now ;;
      let checkAt := t + timeout in
      id <- uuidv4 ;;
      eventTime <- Date_now ;;
      modify_db (with_user_journey (fun l => l ++ [
        {| j_id := id; j_user_id := userId; j_event_type := eventType;
           j_event_time := eventTime; j_properties := properties;
           j_check_at := checkAt; j_checked := false |} ])) ;;;
      console_log (LScheduled userId waitForEvent checkAt) ;;;
      ret true
  end.

(** [event.user_id || event.device_id], [None] when the result is falsy. *)
Definition event_user (event : Event) : option string :=
  match ev_user_id event with
  | Some u => if decide (u = EmptyString) then
                match ev_device_id event with
                | Some v => if decide (v = EmptyString) then None else Some v
                | None => None
                end
              else Some u
  | None => match ev_device_id event with
            | Some v => if decide (v = EmptyString) then None else Some v
            | None => None
            end
  end.

Fixpoint webhook_loop (events : list Event) (processed : nat) : M nat :=
  match events with
  | [] => ret processed
  | event :: events' =>
      match event_user event with
      | None => webhook_loop events' processed
      | Some userId =>
          counted <- observeEvent userId (ev_event_type event)
                       (default no_attributes (ev_event_properties event)) ;;
          webhook_loop events' (if counted then S processed else processed)
      end
  end.

(** [POST /webhook/amplitude]; the result is [processed]. *)
Definition webhookAmplitude (events : list Event) : M nat :=
  webhook_loop events 0%nat.

(** *** Cron: check for abandonment *)

(** The [find] predicate of the sweep: [j] is a follow-up of [journey]. *)
Definition isFollowUp (journey : Journey) (waitForEvent : string) (j : Journey)
  : Prop :=
  j_user_id j = j_user_id journey /\ j_event_type j = waitForEvent /\
  j_event_time journey < j_event_time j.

#[global] Instance isFollowUp_dec journey waitForEvent j :
  Decision (isFollowUp journey waitForEvent j).
Proof. unfold isFollowUp. apply _. Defined.

(** One turn of [for (const journey of pendingChecks)]; [i] is the
    position of [journey] in [db.data.user_journey]. *)
Definition sweepJourney (p : nat * Journey) : M unit :=
  let i := p.1 in
  let journey := p.2 in
  match eventConfig !! j_event_type journey with
  | Some (Waits waitForEvent _ cohortIfMissing) =>
      d <- get_db ;;
      match list_find (isFollowUp journey waitForEvent) (user_journey d) with
      | None =>
          console_log (LAbandoned i (j_user_id journey) waitForEvent
                         cohortIfMissing) ;;;
          createExperiment (j_user_id journey) cohortIfMissing
            (j_properties journey) ;;;
          ret tt
      | Some _ =>
          console_log (LOk (j_user_id journey) waitForEvent)
      end ;;;
      modify_db (with_user_journey (alter (set_checked true) i))
  | _ => ret tt
  end.

Definition pendingChecks (now : Z) (d : DB) : list (nat * Journey) :=
  take 100 (filter (fun p => j_check_at p.2 <= now /\ j_checked p.2 = false)
              (indexed (user_journey d))).

Definition deadlineSweepCron : M unit :=
  now <- Date_now ;;
  d <- get_db ;;
  for_of (pendingChecks now d) sweepJourney.

(** *** Cron: send scheduled messages *)

Definition pendingMessages (now : Z) (d : DB) : list (nat * ScheduledMessage) :=
  take 100 (filter (fun p => sm_status p.2 = MsgPending /\ sm_send_at p.2 <= now)
              (indexed (scheduled_messages d))).

(** One turn of [for (const msg of pendingMessages)]; [i] is the position
    of [msg] in [db.data.scheduled_messages]. *)
Definition dispatchMessage (p : nat * ScheduledMessage) : M unit :=
  let i := p.1 in
  let msg := p.2 in
  d <- get_db ;;
  match list_find (fun e => e_id e = sm_experiment_id msg) (experiments d) with
  | None => ret tt
  | Some (k, experiment) =>
      try_catch
        (sendViaCleverTap (sm_user_id msg) (e_message experiment)
           (e_channel experiment) (sm_experiment_id msg) ;;;
         modify_db (with_scheduled_messages (alter (set_msg_status MsgSent) i)) ;;;
         t <- Date_now ;;
         modify_db (with_experiments (alter (set_sent t) k)) ;;;
         updateComboStats
           (comboKey (e_timing experiment) (e_channel experiment)
                     (e_lever experiment) (e_offer experiment))
           experiment false ;;;
         console_log (LSent (sm_experiment_id msg) (sm_user_id msg)
                        (e_channel experiment)))
        (fun error => console_log (LError (sm_experiment_id msg)))
  end.

Definition deliveryDispatcherCron : M unit :=
  now <- Date_now ;;
  d <- get_db ;;
  for_of (pendingMessages now d) dispatchMessage.

(** *** API routes that write *)

(** [POST /api/trigger]; [None] is the 400 answer. *)
Definition apiTrigger (user_id cohort : option string)
    (attributes : option Attributes) : M (option CreateResult) :=
  match user_id, cohort with
  | Some u, Some c =>
      if decide (u = EmptyString) then ret None
      else if decide (c = EmptyString) then ret None
      else r <- createExperiment u c (default no_attributes attributes) ;;
           ret (Some r)
  | _, _ => ret None
  end.

(** [GET /api/experiments]: [sort] reorders the stored array itself;
    [limit] is the parsed query parameter ([None] when it is not a
    number).  A negative [limit] makes [slice] count from the end. *)
Definition apiExperiments (limit : option Z) : M (list Experiment) :=
  let n := match limit with
           | Some z => if decide (z = 0) then 50 else z
           | None => 50
           end in
  modify_db (with_experiments
               (js_sort (fun a b => e_created_at b - e_created_at a <? 0))) ;;;
  d <- get_db ;;
  ret (if n <? 0
       then take (length (experiments d) - Z.to_nat (- n)) (experiments d)
       else take (Z.to_nat n) (experiments d)).

(** *** Runs of the engine *)

Inductive Op :=
  | OpWebhook (events : list Event)
  | OpSweep
  | OpDispatch
  | OpTrigger (user_id cohort : option string) (attributes : option Attributes)
  | OpExperiments (limit : option Z).

(** The world after a handler has run; a handler that throws leaves the
    document as it was at the throw. *)
Definition run_op (op : Op) (w : World) : World :=
  match op with
  | OpWebhook events => (webhookAmplitude events w).2
  | OpSweep => (deadlineSweepCron w).2
  | OpDispatch => (deliveryDispatcherCron w).2
  | OpTrigger u c a => (apiTrigger u c a w).2
  | OpExperiments limit => (apiExperiments limit w).2
  end.

Definition run_ops (ops : list Op) (w : World) : World :=
  foldl (fun w op => run_op op w) w ops.

End Engine.

(** *** The statistics route *)

(** [GET /api/stats]: the counts of [summary], under the names of the
    response.  The formatted rates of the response ([overall_cvr] and the
    [cvr] of the top and worst combinations) are strings that [toFixed]
    makes from doubles; they are not part of this model. *)
Module Stats.

Record Summary := {
  total_experiments : Z;
  total_sent : Z;
  total_opened : Z;
  total_converted : Z;
  pending_abandonment_checks : Z
}.

Definition count {A} (P : A -> Prop) `{!forall x, Decision (P x)}
    (l : list A) : Z :=
  Z.of_nat (length (filter P l)).

Definition apiStats : M Summary :=
  d <- get_db ;;
  let experiments := experiments d in
  let total := Z.of_nat (length experiments) in
  let converted := count (fun e => e_status e = StConverted) experiments in
  let opened :=
    count (fun e => e_status e ∈ [StOpened; StConverted]) experiments in
  let sent :=
    count (fun e => e_status e ∈ [StSent; StOpened; StConverted]) experiments in
  let pendingJourneys :=
    count (fun j => j_checked j = false) (user_journey d) in
  ret {| total_experiments := total; total_sent := sent;
         total_opened := opened; total_converted := converted;
         pending_abandonment_checks := pendingJourneys |}.

End Stats.

(** * Vocabulary and scenarios *)

(** ** Sample environments and documents *)

Module Sample.

(** Credentials are configured and every request to CleverTap is
    rejected. *)
Definition failing_env : Env :=
  {| clock := fun n => 1000000 + Z.of_nat n; random := fun _ => 0%Q;
     uuid := fun n => pretty (Z.of_nat n); post_fails := fun _ => true;
     credentials := true; tz_offset := 0 |}.

Definition quiet_env : Env :=
  {| clock := fun n => 1000000 + Z.of_nat n; random := fun _ => 0%Q;
     uuid := fun n => pretty (Z.of_nat n); post_fails := fun _ => false;
     credentials := false; tz_offset := 0 |}.

Definition exp1 : Experiment :=
  {| e_id := "e1"; e_user_id := "u1"; e_cohort := "payment_failed";
     e_timing := "5min"; e_channel := "sms"; e_lever := "reciprocity";
     e_offer := "paytm_cashback"; e_tone := "friendly";
     e_message := "Hey!"; e_created_at := 500000; e_sent_at := None;
     e_opened_at := None; e_converted_at := None; e_status := StPending |}.

Definition msg1 : ScheduledMessage :=
  {| sm_id := "m1"; sm_experiment_id := "e1"; sm_user_id := "u1";
     sm_send_at := 800000; sm_status := MsgPending |}.

Definition stat1 (sent converted : Z) : ComboStat :=
  {| s_combo_key := "5min|sms|reciprocity|paytm_cashback";
     s_timing := "5min"; s_channel := "sms"; s_lever := "reciprocity";
     s_offer := "paytm_cashback"; s_sent_count := sent;
     s_converted_count := converted; s_last_updated := 900000 |}.

Definition world_of (d : DB) : World :=
  {| data := d; n_clock := 0; n_random := 0; n_uuid := 0; n_post := 0;
     console := [] |}.

(** One due, pending send for a pending experiment. *)
Definition due : World :=
  world_of {| experiments := [exp1]; combo_stats := [stat1 7 2];
              scheduled_messages := [msg1]; user_journey := [] |}.

End Sample.

(** ** Vocabulary of the properties *)

(** [preserves R m]: whatever [m] returns or throws, the world it leaves
    is related by [R] to the world it started in. *)
Definition preserves (R : World -> World -> Prop) {A} (m : M A) : Prop :=
  forall w, R w (m w).2.

(** [returns m]: [m] does not throw. *)
Definition returns {A} (m : M A) : Prop :=
  forall w, exists a, (m w).1 = Ok a.

Definition returns_with {A} (P : A -> Prop) (m : M A) : Prop :=
  forall w, exists a, (m w).1 = Ok a /\ P a.

(** [grows R l l']: every position of [l] is still there in [l'], holding
    an [R]-later value. *)
Definition grows {A} (R : A -> A -> Prop) (l l' : list A) : Prop :=
  forall (i : nat) x, l !! i = Some x -> exists x', l' !! i = Some x' /\ R x x'.

(** A journey record only ever has its [checked] flag raised. *)
Definition journey_le (j j' : Journey) : Prop :=
  j' = j \/ j' = set_checked true j.

(** A statistics row keeps its key and its counters do not go down. *)
Definition stat_le (s s' : ComboStat) : Prop :=
  s_combo_key s' = s_combo_key s /\
  s_sent_count s <= s_sent_count s' /\
  s_converted_count s <= s_converted_count s'.

Definition stat_ok (s : ComboStat) : Prop :=
  s_converted_count s <= s_sent_count s.

Definition is_abandoned (l : LogLine) : Prop :=
  match l with LAbandoned _ _ _ _ => True | _ => False end.

#[global] Instance is_abandoned_dec l : Decision (is_abandoned l).
Proof. destruct l; simpl; apply _. Defined.

(** What a document may turn into: journey flags only go up, statistics
    rows only count up, and rows that satisfy [converted <= sent] keep
    doing so. *)
Definition db_steps (d d' : DB) : Prop :=
  grows journey_le (user_journey d) (user_journey d') /\
  grows stat_le (combo_stats d) (combo_stats d') /\
  (Forall stat_ok (combo_stats d) -> Forall stat_ok (combo_stats d')).

(** [quiet w w']: the document has made [db_steps] and no abandonment has
    been announced on the console. *)
Definition quiet (w w' : World) : Prop :=
  db_steps (data w) (data w') /\
  exists lines, console w' = console w ++ lines /\
                Forall (fun l => ~ is_abandoned l) lines.

(** [steps w w']: the document has made [db_steps] and the console has
    only been appended to. *)
Definition steps (w w' : World) : Prop :=
  db_steps (data w) (data w') /\ exists lines, console w' = console w ++ lines.

Definition same_journeys (w w' : World) : Prop :=
  user_journey (data w') = user_journey (data w).

Definition only_draws (w w' : World) : Prop :=
  data w' = data w /\ n_clock w' = n_clock w /\ n_uuid w' = n_uuid w /\
  n_post w' = n_post w /\ console w' = console w.

(** The contract of [Math.random()]: every draw lies in [0, 1). *)
Definition random_ok (env : Env) : Prop :=
  forall k, (0 <= random env k)%Q /\ (random env k < 1)%Q.

(** [abandoned_at i l]: the line [l] announces the abandonment of the
    journey record at position [i]. *)
Definition abandoned_at (i : nat) (l : LogLine) : Prop :=
  match l with LAbandoned k _ _ _ => k = i | _ => False end.

#[global] Instance abandoned_at_dec i l : Decision (abandoned_at i l).
Proof. destruct l; simpl; apply _. Defined.

Definition abandon_count (i : nat) (log : list LogLine) : nat :=
  length (filter (abandoned_at i) log).

Definition checked_at (i : nat) (w : World) : Prop :=
  exists j, user_journey (data w) !! i = Some j /\ j_checked j = true.

(** The invariant: no record has been announced abandoned twice, and a
    record that has been announced is resolved. *)
Definition abandoned_once (w : World) : Prop :=
  forall i, (abandon_count i (console w) <= 1)%nat /\
            ((0 < abandon_count i (console w))%nat -> checked_at i w).

Definition eligible_stats (d : DB) : list ComboStat :=
  filter (fun s => 5 <= s_sent_count s) (combo_stats d).

(** The tone set [selectCombo] draws from for a cohort:
    [intelligence.tone || ['friendly']]. *)
Definition tones_of (cohort : string) : list string :=
  default ["friendly"%string]
    (i_tone (default checkout_abandoners (cohortIntelligence !! cohort))).

Definition tick (w : World) : World :=
  {| data := data w; n_clock := S (n_clock w); n_random := n_random w;
     n_uuid := n_uuid w; n_post := n_post w; console := console w |}.

(** [r] is the first instant after [now] at which the local time of day
    is [tod] milliseconds past midnight. *)
Definition next_local (tz tod now r : Z) : Prop :=
  now < r /\ r <= now + day_ms /\ (r + tz) `mod` day_ms = tod.

Definition timing_names : list string :=
  ["2min"; "5min"; "30min"; "1hr"; "2hr"; "4hr"; "next_morning";
   "next_evening"]%string.

(** What [sendAtFor] computes, by timing value. *)
Definition send_time_spec (env : Env) (timing : string) (now sendAt : Z) : Prop :=
  (timing = "2min"%string -> sendAt = now + 2 * 60 * 1000) /\
  (timing = "5min"%string -> sendAt = now + 5 * 60 * 1000) /\
  (timing = "30min"%string -> sendAt = now + 30 * 60 * 1000) /\
  (timing = "1hr"%string -> sendAt = now + 60 * 60 * 1000) /\
  (timing = "2hr"%string -> sendAt = now + 2 * 60 * 60 * 1000) /\
  (timing = "4hr"%string -> sendAt = now + 4 * 60 * 60 * 1000) /\
  (timing = "next_morning"%string ->
   next_local (tz_offset env) (8 * 3600000) now sendAt) /\
  (timing = "next_evening"%string ->
   next_local (tz_offset env) (19 * 3600000) now sendAt) /\
  (timing ∉ timing_names -> sendAt = now + 60000).

Definition new_experiment (id userId cohort : string) (combo : Combo)
    (message : string) (now : Z) : Experiment :=
  {| e_id := id; e_user_id := userId; e_cohort := cohort;
     e_timing := timing combo; e_channel := channel combo;
     e_lever := lever combo; e_offer := offer combo; e_tone := tone combo;
     e_message := message; e_created_at := now; e_sent_at := None;
     e_opened_at := None; e_converted_at := None; e_status := StPending |}.

(** Two experiments of one user and cohort were created at least an hour
    apart. *)
Definition far (a b : Experiment) : Prop :=
  e_user_id a = e_user_id b -> e_cohort a = e_cohort b ->
  e_created_at a + 60 * 60 * 1000 <= e_created_at b \/
  e_created_at b + 60 * 60 * 1000 <= e_created_at a.

Fixpoint separated (l : list Experiment) : Prop :=
  match l with
  | [] => True
  | e :: l' => Forall (far e) l' /\ separated l'
  end.

(** The system clock does not run backwards. *)
Definition clock_monotone (env : Env) : Prop :=
  forall i j : nat, (i <= j)%nat -> clock env i <= clock env j.

(** The invariant behind the dedup check: stored experiments of one user
    and cohort are an hour apart, and none was created after a clock
    reading still to come. *)
Definition dedup_inv (env : Env) (w : World) : Prop :=
  separated (experiments (data w)) /\
  Forall (fun e => forall m : nat, (n_clock w <= m)%nat ->
                     e_created_at e <= clock env m)
    (experiments (data w)).

Definition keeps_dedup (env : Env) (w w' : World) : Prop :=
  (dedup_inv env w -> dedup_inv env w') /\ (n_clock w <= n_clock w')%nat.

Definition with_tone (t : string) (c : Combo) : Combo :=
  {| timing := timing c; channel := channel c; lever := lever c;
     offer := offer c; tone := t |}.

Definition recognized_tones : list string :=
  ["urgent"; "friendly"; "curious"; "personal"; "regional"]%string.

(** ** Scenarios *)

Module Scenario.

(** A clock that advances by one hour per reading; draws in range; no
    CleverTap credentials (mock sends). *)
Definition hourly_env : Env :=
  {| clock := fun n => 1700000000000 + 3600000 * Z.of_nat n;
     random := fun n => (Z.of_nat n mod 10 # 10)%Q;
     uuid := fun n => pretty (Z.of_nat n);
     post_fails := fun _ => false; credentials := false; tz_offset := 0 |}.

Definition paywall_view (user : string) : Event :=
  {| ev_event_type := "trial_paywall_view"; ev_user_id := Some user;
     ev_device_id := None; ev_event_properties := None |}.

End Scenario.

Module Ranking.

(** Every draw is 1/2 (no exploration); the clock advances by one hour
    per reading; sends are mocked. *)
Definition half_env : Env :=
  {| clock := fun n => 1700000000000 + 3600000 * Z.of_nat n;
     random := fun _ => (1 # 2)%Q;
     uuid := fun n => pretty (Z.of_nat n);
     post_fails := fun _ => false; credentials := false; tz_offset := 0 |}.

Definition row (timing channel lever offer : string) (sent converted : Z)
  : ComboStat :=
  {| s_combo_key := comboKey timing channel lever offer; s_timing := timing;
     s_channel := channel; s_lever := lever; s_offer := offer;
     s_sent_count := sent; s_converted_count := converted;
     s_last_updated := 0 |}.

(** Six rows with ten sends each; the row with no conversion ranks
    sixth. *)
Definition six_rows : World :=
  Sample.world_of
    {| experiments := [];
       combo_stats :=
         [ row "2min" "push" "fomo" "discount_50" 10 3;
           row "1hr" "whatsapp" "scarcity" "free_episode" 10 0;
           row "2hr" "push" "scarcity" "rupee_1_trial" 10 9;
           row "5min" "sms" "reciprocity" "paytm_cashback" 10 5;
           row "30min" "whatsapp" "free_value" "rupee_1_trial" 10 7;
           row "1hr" "push" "cliffhanger" "free_episode" 10 1 ];
       scheduled_messages := []; user_journey := [] |}.

Definition payment_failed_event (user : string) : Event :=
  {| ev_event_type := "payment_failed"; ev_user_id := Some user;
     ev_device_id := None; ev_event_properties := None |}.

(** Five users fail a payment; their messages are delivered. *)
Definition after_five_sends : World :=
  run_ops half_env
    [ OpWebhook (payment_failed_event <$> ["a"; "b"; "c"; "d"; "e"]%string);
      OpDispatch ]
    initial_world.

End Ranking.

Module Conversion.

Definition trial_activated (user : string) : Event :=
  {| ev_event_type := "trial_activated"; ev_user_id := Some user;
     ev_device_id := None; ev_event_properties := None |}.

(** One user fails a payment, the message is delivered once, and the
    user then activates the trial. *)
Definition delivered_once : World :=
  run_ops Ranking.half_env
    [ OpWebhook [Ranking.payment_failed_event "a"]; OpDispatch ]
    initial_world.

Definition converted_once : World :=
  run_ops Ranking.half_env [ OpWebhook [trial_activated "a"] ] delivered_once.

End Conversion.

(** ** Vocabulary of the further properties *)

(** A statistics row is keyed by its own combination. *)
Definition keyed (s : ComboStat) : Prop :=
  s_combo_key s = comboKey (s_timing s) (s_channel s) (s_lever s) (s_offer s).

(** Every row is keyed by its combination and no key occurs twice. *)
Definition stats_indexed (d : DB) : Prop :=
  Forall keyed (combo_stats d) /\ NoDup (s_combo_key <$> combo_stats d).

Definition keeps_index (w w' : World) : Prop :=
  stats_indexed (data w) -> stats_indexed (data w').

(** An event the webhook does not skip: it names a user or a device. *)
Definition has_user (event : Event) : Prop := is_Some (event_user event).

(** The event type of the record has a wait rule ([config.waitFor] is
    set), so the sweep does not pass over it. *)
Definition has_wait_rule (j : Journey) : Prop :=
  match eventConfig !! j_event_type j with
  | Some (Waits _ _ _) => True
  | _ => False
  end.

#[global] Instance has_wait_rule_dec j : Decision (has_wait_rule j).
Proof. unfold has_wait_rule. destruct (eventConfig !! _) as [[]|]; apply _. Defined.

(** What a sweep over the batch [rest] does to the journey list. *)
Definition sweep_marks (rest : list (nat * Journey)) (l : list Journey)
  : list Journey :=
  foldl (fun l p => if decide (has_wait_rule p.2)
                    then alter (set_checked true) p.1 l else l) l rest.

(** What a dispatcher run over the batch [rest] does to the scheduled
    messages, [ids] being the ids of the stored experiments. *)
Definition dispatch_marks (ids : list string)
    (rest : list (nat * ScheduledMessage)) (l : list ScheduledMessage)
  : list ScheduledMessage :=
  foldl (fun l p => if decide (sm_experiment_id p.2 ∈ ids)
                    then alter (set_msg_status MsgSent) p.1 l else l) l rest.

(** An experiment is as it was, or has been stamped as sent. *)
Definition stamped (e e' : Experiment) : Prop :=
  e' = e \/ exists t, e' = set_sent t e.

(** The totals of the two counters over all statistics rows, and the
    number of scheduled messages marked as sent. *)
Definition total_sent (d : DB) : Z :=
  foldr Z.add 0 (s_sent_count <$> combo_stats d).

Definition total_converted (d : DB) : Z :=
  foldr Z.add 0 (s_converted_count <$> combo_stats d).

Definition sent_messages (d : DB) : Z :=
  Z.of_nat (length (filter (fun m => sm_status m = MsgSent)
                      (scheduled_messages d))).

Definition accounted (d : DB) : Prop :=
  total_sent d = sent_messages d + total_converted d.

Definition keeps_accounted (w w' : World) : Prop :=
  accounted (data w) -> accounted (data w').

(** No experiment is, or is recorded as, opened. *)
Definition never_opened (d : DB) : Prop :=
  Forall (fun e => e_status e <> StOpened /\ e_opened_at e = None)
    (experiments d).

Definition keeps_unopened (w w' : World) : Prop :=
  never_opened (data w) -> never_opened (data w').

(** The limit [GET /api/experiments] works with: [parseInt(...) || 50]. *)
Definition effective_limit (limit : option Z) : Z :=
  match limit with
  | Some z => if decide (z = 0) then 50 else z
  | None => 50
  end.

(** Identifiers drawn from [uuidv4()] do not repeat. *)
Definition uuid_unique (env : Env) : Prop :=
  forall i j : nat, uuid env i = uuid env j -> i = j.

(** The order in which an experiment's status is meant to advance. *)
Definition status_rank (s : ExperimentStatus) : Z :=
  match s with
  | StPending => 0
  | StSent => 1
  | StOpened => 2
  | StConverted => 3
  end.

(** [e'] is the experiment [e] at a later time: what identifies and
    describes it is as it was, and its status has not gone back. *)
Definition later_of (e e' : Experiment) : Prop :=
  e_id e' = e_id e /\ e_user_id e' = e_user_id e /\
  e_cohort e' = e_cohort e /\ e_timing e' = e_timing e /\
  e_channel e' = e_channel e /\ e_lever e' = e_lever e /\
  e_offer e' = e_offer e /\ e_tone e' = e_tone e /\
  e_message e' = e_message e /\ e_created_at e' = e_created_at e /\
  status_rank (e_status e) <= status_rank (e_status e').

Definition evolves (d d' : DB) : Prop :=
  forall e, e ∈ experiments d ->
    exists e', e' ∈ experiments d' /\ later_of e e'.

Definition converted_experiments (d : DB) : Z :=
  Z.of_nat (length (filter (fun e => e_status e = StConverted)
                      (experiments d))).

(** Experiments and scheduled messages are paired: experiment ids are
    drawn identifiers and do not repeat, the messages' experiment ids are
    the experiments' ids, a message is pending exactly when its
    experiment is, and the rows count one conversion per converted
    experiment. *)
Definition linked (env : Env) (w : World) : Prop :=
  Forall (fun e => exists k : nat, (k < n_uuid w)%nat /\ e_id e = uuid env k)
    (experiments (data w)) /\
  NoDup (e_id <$> experiments (data w)) /\
  sm_experiment_id <$> scheduled_messages (data w)
    ≡ₚ e_id <$> experiments (data w) /\
  (forall m e,
     m ∈ scheduled_messages (data w) -> e ∈ experiments (data w) ->
     sm_experiment_id m = e_id e ->
     (sm_status m = MsgPending <-> e_status e = StPending)) /\
  total_converted (data w) = converted_experiments (data w).

Definition keeps_link (env : Env) (w w' : World) : Prop :=
  linked env w -> linked env w' /\ evolves (data w) (data w').

Definition uuid_le (w w' : World) : Prop := (n_uuid w <= n_uuid w')%nat.

(** * Properties *)

(** ** Reasoning about programs of the monad *)

(** Reads the fields of explicitly updated worlds. *)
Ltac world_cbn :=
  cbn [data n_clock n_random n_uuid n_post console fst snd].

Section Preserves.

Variable R : World -> World -> Prop.
Hypothesis R_refl : forall w, R w w.
Hypothesis R_trans : forall a b c, R a b -> R b c -> R a c.

Lemma preserves_ret {A} (a : A) : preserves R (ret a).
Proof. intros w. apply R_refl. Qed.

Lemma preserves_throw {A} (e : Exn) : preserves R (@throw A e).
Proof. intros w. apply R_refl. Qed.

Lemma preserves_get_db : preserves R get_db.
Proof. intros w. apply R_refl. Qed.

Lemma preserves_bind {A B} (m : M A) (f : A -> M B) :
  preserves R m -> (forall a, preserves R (f a)) -> preserves R (bind m f).
Proof.
  intros Hm Hf w. unfold bind. specialize (Hm w).
  destruct (m w) as [[a|e] w1]; simpl in *; [|assumption].
  eapply R_trans; [eassumption | apply Hf].
Qed.

Lemma preserves_try_catch {A} (body : M A) (handler : Exn -> M A) :
  preserves R body -> (forall e, preserves R (handler e)) ->
  preserves R (try_catch body handler).
Proof.
  intros Hm Hh w. unfold try_catch. specialize (Hm w).
  destruct (body w) as [[a|e] w1]; simpl in *; [assumption|].
  eapply R_trans; [eassumption | apply Hh].
Qed.

Lemma preserves_for_of {A} (xs : list A) (body : A -> M unit) :
  (forall x, preserves R (body x)) -> preserves R (for_of xs body).
Proof.
  intros Hb. induction xs as [|x xs IH]; simpl.
  - apply preserves_ret.
  - apply preserves_bind; [apply Hb | intros _; exact IH].
Qed.

End Preserves.

Lemma returns_ret {A} (a : A) : returns (ret a).
Proof. intros w. by exists a. Qed.

Lemma returns_bind {A B} (m : M A) (f : A -> M B) :
  returns m -> (forall a, returns (f a)) -> returns (bind m f).
Proof.
  intros Hm Hf w. unfold bind. destruct (Hm w) as [a Ha].
  destruct (m w) as [r w1]; simpl in Ha; subst r. apply Hf.
Qed.

Lemma returns_try_catch {A} (body : M A) (handler : Exn -> M A) :
  (forall e, returns (handler e)) -> returns (try_catch body handler).
Proof.
  intros Hh w. unfold try_catch.
  destruct (body w) as [[a|e] w1]; [by exists a | apply Hh].
Qed.

Lemma returns_for_of {A} (xs : list A) (body : A -> M unit) :
  (forall x, returns (body x)) -> returns (for_of xs body).
Proof.
  intros Hb. induction xs as [|x xs IH]; simpl.
  - apply returns_ret.
  - apply returns_bind; [apply Hb | intros _; exact IH].
Qed.

(** ** How the collections may change *)

Section Grows.

Context {A : Type} (R : A -> A -> Prop).
Hypothesis R_refl : forall x, R x x.
Hypothesis R_trans : forall x y z, R x y -> R y z -> R x z.

Lemma grows_refl (l : list A) : grows R l l.
Proof. intros i x Hx. eauto. Qed.

Lemma grows_trans (l1 l2 l3 : list A) :
  grows R l1 l2 -> grows R l2 l3 -> grows R l1 l3.
Proof.
  intros H12 H23 i x Hx.
  destruct (H12 i x Hx) as (y & Hy & Hxy).
  destruct (H23 i y Hy) as (z & Hz & Hyz). eauto.
Qed.

Lemma grows_app (l extra : list A) : grows R l (l ++ extra).
Proof.
  intros i x Hx. exists x. split; [|apply R_refl].
  rewrite lookup_app_l; [done|]. by eapply lookup_lt_Some.
Qed.

Lemma grows_alter (f : A -> A) (k : nat) (l : list A) :
  (forall x, R x (f x)) -> grows R l (alter f k l).
Proof.
  intros Hf i x Hx. destruct (decide (k = i)) as [->|Hne].
  - exists (f x). rewrite list_lookup_alter_eq, Hx. auto.
  - exists x. rewrite list_lookup_alter_ne by done. auto.
Qed.

Lemma grows_fmap (f : A -> A) (l : list A) :
  (forall x, R x (f x)) -> grows R l (f <$> l).
Proof.
  intros Hf i x Hx. exists (f x). rewrite list_lookup_fmap, Hx. auto.
Qed.

End Grows.

Lemma journey_le_refl j : journey_le j j.
Proof. by left. Qed.

Lemma journey_le_trans a b c : journey_le a b -> journey_le b c -> journey_le a c.
Proof.
  intros [->| ->] [->| ->]; unfold journey_le; auto.
Qed.

Lemma journey_le_set_checked j : journey_le j (set_checked true j).
Proof. by right. Qed.

Lemma journey_le_checked j j' :
  journey_le j j' -> j_checked j = true -> j_checked j' = true.
Proof. intros [->| ->]; auto. Qed.

Lemma stat_le_refl s : stat_le s s.
Proof. unfold stat_le. split; [done|lia]. Qed.

Lemma stat_le_trans a b c : stat_le a b -> stat_le b c -> stat_le a c.
Proof. unfold stat_le. intros (?&?&?) (?&?&?). split; [congruence|lia]. Qed.

Lemma stat_le_bump converted t s : stat_le s (bump_stat converted t s).
Proof. unfold stat_le. destruct converted; simpl; (split; [done|lia]). Qed.

Lemma stat_ok_bump converted t s : stat_ok s -> stat_ok (bump_stat converted t s).
Proof. unfold stat_ok. destruct converted; simpl; lia. Qed.

Lemma db_steps_refl d : db_steps d d.
Proof.
  repeat split; auto using grows_refl, journey_le_refl, stat_le_refl.
Qed.

Lemma db_steps_trans a b c : db_steps a b -> db_steps b c -> db_steps a c.
Proof.
  intros (?&?&?) (?&?&?). repeat split.
  - eapply grows_trans; eauto using journey_le_trans.
  - eapply grows_trans; eauto using stat_le_trans.
  - auto.
Qed.

Lemma quiet_refl w : quiet w w.
Proof.
  split; [apply db_steps_refl|]. exists []. by rewrite app_nil_r.
Qed.

Lemma quiet_trans a b c : quiet a b -> quiet b c -> quiet a c.
Proof.
  intros [Hd1 (l1 & E1 & F1)] [Hd2 (l2 & E2 & F2)].
  split; [eapply db_steps_trans; eauto|].
  exists (l1 ++ l2). rewrite E2, E1, app_assoc. split; [done|].
  by apply Forall_app.
Qed.

Lemma quiet_frame w w' :
  data w' = data w -> console w' = console w -> quiet w w'.
Proof.
  intros Hd Hc. split; [rewrite Hd; apply db_steps_refl|].
  exists []. by rewrite app_nil_r.
Qed.

Lemma quiet_modify_db f :
  (forall d, db_steps d (f d)) -> preserves quiet (modify_db f).
Proof.
  intros Hf w. split; simpl; [apply Hf|]. exists []. by rewrite app_nil_r.
Qed.

Lemma quiet_console_log l : ~ is_abandoned l -> preserves quiet (console_log l).
Proof.
  intros Hl w. split; simpl; [apply db_steps_refl|]. exists [l]. split; [done|].
  by constructor.
Qed.

Lemma db_steps_experiments f d : db_steps d (with_experiments f d).
Proof.
  repeat split; simpl; auto using grows_refl, journey_le_refl, stat_le_refl.
Qed.

Lemma db_steps_scheduled f d : db_steps d (with_scheduled_messages f d).
Proof.
  repeat split; simpl; auto using grows_refl, journey_le_refl, stat_le_refl.
Qed.

Lemma db_steps_journey f d :
  grows journey_le (user_journey d) (f (user_journey d)) ->
  db_steps d (with_user_journey f d).
Proof.
  intros H. repeat split; simpl; auto using grows_refl, stat_le_refl.
Qed.

Lemma db_steps_stats f d :
  grows stat_le (combo_stats d) (f (combo_stats d)) ->
  (Forall stat_ok (combo_stats d) -> Forall stat_ok (f (combo_stats d))) ->
  db_steps d (with_combo_stats f d).
Proof.
  intros H1 H2. repeat split; simpl; auto using grows_refl, journey_le_refl.
Qed.

(** ** Arithmetic of the random draws *)

Lemma floor_times_range (r : Q) (n : Z) :
  (0 <= r)%Q -> (r < 1)%Q -> 0 < n -> 0 <= floor_times r n < n.
Proof.
  intros H0 H1 Hn. unfold floor_times.
  assert (Hn' : (0 < inject_Z n)%Q) by (rewrite (Zlt_Qlt 0 n) in Hn; exact Hn).
  split.
  - change 0 with (Qfloor 0). apply Qfloor_resp_le.
    apply Qmult_le_0_compat; [exact H0 | by apply Qlt_le_weak].
  - rewrite Zlt_Qlt. eapply Qle_lt_trans; [apply Qfloor_le|].
    rewrite <- (Qmult_1_l (inject_Z n)) at 2.
    apply Qmult_lt_compat_r; assumption.
Qed.

Lemma js_index_in_range {A} (arr : list A) (i : Z) :
  0 <= i < Z.of_nat (length arr) -> exists x, js_index arr i = Some x /\ x ∈ arr.
Proof.
  intros [H0 H1]. unfold js_index.
  destruct (Z.ltb_spec i 0) as [?|_]; [lia|].
  destruct (lookup_lt_is_Some_2 arr (Z.to_nat i)) as [x Hx]; [lia|].
  exists x. split; [done|]. by eapply list_elem_of_lookup_2.
Qed.

Lemma js_index_Some {A} (arr : list A) (i : Z) x :
  js_index arr i = Some x -> arr !! Z.to_nat i = Some x.
Proof. unfold js_index. by destruct (i <? 0). Qed.

(** A draw from a non-empty array is one of its elements. *)
Lemma random_pick {A} (arr : list A) (r : Q) :
  (0 <= r)%Q -> (r < 1)%Q -> arr <> [] ->
  exists x, js_index arr (floor_times r (Z.of_nat (length arr))) = Some x /\ x ∈ arr.
Proof.
  intros H0 H1 Hne. apply js_index_in_range, floor_times_range; try done.
  destruct arr; [done|simpl; lia].
Qed.

(** ** Every handler below the sweep is quiet *)

Lemma quiet_ret {A} (a : A) : preserves quiet (ret a).
Proof. exact (preserves_ret quiet quiet_refl a). Qed.

Lemma quiet_throw {A} (e : Exn) : preserves quiet (@throw A e).
Proof. exact (preserves_throw quiet quiet_refl e). Qed.

Lemma quiet_get_db : preserves quiet get_db.
Proof. exact (preserves_get_db quiet quiet_refl). Qed.

Lemma quiet_bind {A B} (m : M A) (f : A -> M B) :
  preserves quiet m -> (forall a, preserves quiet (f a)) ->
  preserves quiet (bind m f).
Proof. exact (preserves_bind quiet quiet_trans m f). Qed.

Lemma quiet_try_catch {A} (body : M A) (handler : Exn -> M A) :
  preserves quiet body -> (forall e, preserves quiet (handler e)) ->
  preserves quiet (try_catch body handler).
Proof. exact (preserves_try_catch quiet quiet_trans body handler). Qed.

Lemma quiet_for_of {A} (xs : list A) (body : A -> M unit) :
  (forall x, preserves quiet (body x)) -> preserves quiet (for_of xs body).
Proof. exact (preserves_for_of quiet quiet_refl quiet_trans xs body). Qed.

Create HintDb quiet.

Ltac quiet_go :=
  repeat first
    [ solve [auto with quiet]
    | apply quiet_ret
    | apply quiet_throw
    | apply quiet_get_db
    | apply quiet_bind; [|intros ?]
    | apply quiet_try_catch; [|intros ?]
    | apply quiet_for_of; intros ?
    | apply quiet_console_log; simpl; tauto
    | apply quiet_modify_db; intros ?
    | apply db_steps_experiments
    | apply db_steps_scheduled
    | match goal with
      | |- preserves _ (match ?x with _ => _ end) => destruct x
      end ].

Section Quiet.

Variable env : Env.

Lemma quiet_Date_now : preserves quiet (Date_now env).
Proof. intros w. by apply quiet_frame. Qed.

Lemma quiet_Math_random : preserves quiet (Math_random env).
Proof. intros w. by apply quiet_frame. Qed.

Lemma quiet_uuidv4 : preserves quiet (uuidv4 env).
Proof. intros w. by apply quiet_frame. Qed.

Lemma quiet_axios_post url : preserves quiet (axios_post env url).
Proof. intros w. by apply quiet_frame. Qed.

#[local] Hint Resolve quiet_Date_now quiet_Math_random quiet_uuidv4 quiet_axios_post
  : quiet.

Lemma quiet_randomFrom arr : preserves quiet (randomFrom env arr).
Proof. unfold randomFrom. quiet_go. Qed.

#[local] Hint Resolve quiet_randomFrom : quiet.

Lemma quiet_selectCombo cohort attrs :
  preserves quiet (selectCombo env cohort attrs).
Proof. unfold selectCombo. cbv zeta. quiet_go. Qed.

Lemma quiet_generateMessage combo attrs :
  preserves quiet (generateMessage env combo attrs).
Proof. unfold generateMessage. cbv zeta. quiet_go. Qed.

Lemma quiet_sendViaCleverTap u m c e :
  preserves quiet (sendViaCleverTap env u m c e).
Proof. unfold sendViaCleverTap. quiet_go. Qed.

Lemma quiet_getNextTime h m : preserves quiet (getNextTime env h m).
Proof. unfold getNextTime. cbv zeta. quiet_go. Qed.

#[local] Hint Resolve quiet_selectCombo quiet_generateMessage quiet_sendViaCleverTap
  quiet_getNextTime : quiet.

Lemma quiet_updateComboStats key experiment converted :
  preserves quiet (updateComboStats env key experiment converted).
Proof.
  unfold updateComboStats. quiet_go.
  - apply db_steps_stats.
    + apply grows_alter; auto using stat_le_refl, stat_le_bump.
    + intros H. apply Forall_alter; auto using stat_ok_bump.
  - apply db_steps_stats.
    + apply grows_app, stat_le_refl.
    + intros H. apply Forall_app. split; [done|].
      constructor; [|constructor]. unfold stat_ok. destruct converted; simpl; lia.
Qed.

Lemma quiet_sendAtFor timing : preserves quiet (sendAtFor env timing).
Proof. unfold sendAtFor. quiet_go. Qed.

#[local] Hint Resolve quiet_updateComboStats quiet_sendAtFor : quiet.

Lemma quiet_createExperiment userId cohort attrs :
  preserves quiet (createExperiment env userId cohort attrs).
Proof. unfold createExperiment. cbv zeta. quiet_go. Qed.

#[local] Hint Resolve quiet_createExperiment : quiet.

Lemma grows_mark_checked userId eventType l :
  grows journey_le l (mark_checked userId eventType l).
Proof.
  apply grows_fmap. intros j. case_decide; auto using journey_le_refl,
    journey_le_set_checked.
Qed.

Lemma quiet_checkForConversion userId eventType :
  preserves quiet (checkForConversion env userId eventType).
Proof.
  unfold checkForConversion. quiet_go;
    apply db_steps_journey, grows_mark_checked.
Qed.

#[local] Hint Resolve quiet_checkForConversion : quiet.

Lemma quiet_observeEvent userId eventType properties :
  preserves quiet (observeEvent env userId eventType properties).
Proof.
  unfold observeEvent. cbv zeta. quiet_go.
  apply db_steps_journey, grows_app, journey_le_refl.
Qed.

#[local] Hint Resolve quiet_observeEvent : quiet.

Lemma quiet_webhook_loop events processed :
  preserves quiet (webhook_loop env events processed).
Proof.
  revert processed. induction events as [|event events IH]; intros n; simpl.
  - apply quiet_ret.
  - destruct (event_user event); [|apply IH].
    apply quiet_bind; [auto with quiet | intros ?; apply IH].
Qed.

Lemma quiet_webhookAmplitude events :
  preserves quiet (webhookAmplitude env events).
Proof. apply quiet_webhook_loop. Qed.

Lemma quiet_dispatchMessage p : preserves quiet (dispatchMessage env p).
Proof. unfold dispatchMessage. cbv zeta. quiet_go. Qed.

#[local] Hint Resolve quiet_dispatchMessage : quiet.

Lemma quiet_deliveryDispatcherCron :
  preserves quiet (deliveryDispatcherCron env).
Proof. unfold deliveryDispatcherCron. quiet_go. Qed.

Lemma quiet_apiTrigger u c a : preserves quiet (apiTrigger env u c a).
Proof. unfold apiTrigger. quiet_go. Qed.

Lemma quiet_apiExperiments limit : preserves quiet (apiExperiments limit).
Proof. unfold apiExperiments. cbv zeta. quiet_go. Qed.

End Quiet.

(** ** What every run of the engine preserves *)

Lemma quiet_steps w w' : quiet w w' -> steps w w'.
Proof. intros [Hd (lines & E & _)]. split; eauto. Qed.

Lemma steps_refl w : steps w w.
Proof. apply quiet_steps, quiet_refl. Qed.

Lemma steps_trans a b c : steps a b -> steps b c -> steps a c.
Proof.
  intros [Hd1 (l1 & E1)] [Hd2 (l2 & E2)].
  split; [eapply db_steps_trans; eauto|].
  exists (l1 ++ l2). by rewrite E2, E1, app_assoc.
Qed.

Lemma preserves_quiet_steps {A} (m : M A) :
  preserves quiet m -> preserves steps m.
Proof. intros H w. apply quiet_steps, H. Qed.

Section Steps.

Variable env : Env.

Lemma steps_sweepJourney p : preserves steps (sweepJourney env p).
Proof.
  unfold sweepJourney. cbv zeta.
  destruct (eventConfig !! j_event_type p.2) as [[wait t cohort|cohort]|];
    try apply (preserves_ret steps steps_refl).
  apply (preserves_bind steps steps_trans);
    [apply (preserves_get_db steps steps_refl)|intros d].
  apply (preserves_bind steps steps_trans); [|intros _].
  - destruct (list_find _ _) as [[k j]|].
    + apply preserves_quiet_steps, quiet_console_log. simpl. tauto.
    + apply (preserves_bind steps steps_trans); [|intros _].
      * intros w. split; simpl; [apply db_steps_refl|eauto].
      * apply preserves_quiet_steps.
        apply quiet_bind; [apply quiet_createExperiment|intros _; apply quiet_ret].
  - apply preserves_quiet_steps, quiet_modify_db. intros d'.
    apply db_steps_journey, grows_alter;
      auto using journey_le_refl, journey_le_set_checked.
Qed.

Lemma steps_deadlineSweepCron : preserves steps (deadlineSweepCron env).
Proof.
  unfold deadlineSweepCron.
  apply (preserves_bind steps steps_trans);
    [apply preserves_quiet_steps, quiet_Date_now|intros now].
  apply (preserves_bind steps steps_trans);
    [apply (preserves_get_db steps steps_refl)|intros d].
  apply (preserves_for_of steps steps_refl steps_trans), steps_sweepJourney.
Qed.

Lemma steps_run_op op w : steps w (run_op env op w).
Proof.
  destruct op; unfold run_op.
  - apply quiet_steps, quiet_webhookAmplitude.
  - apply steps_deadlineSweepCron.
  - apply quiet_steps, quiet_deliveryDispatcherCron.
  - apply quiet_steps, quiet_apiTrigger.
  - apply quiet_steps, (quiet_apiExperiments env).
Qed.

Lemma steps_run_ops ops w : steps w (run_ops env ops w).
Proof.
  revert w. induction ops as [|op ops IH]; intros w; simpl.
  - apply steps_refl.
  - eapply steps_trans; [apply steps_run_op | apply IH].
Qed.

End Steps.

(** A row found under a key is found at the same position after the rows
    have grown. *)
Lemma grows_find_key (key : string) (l l' : list ComboStat) i s :
  grows stat_le l l' ->
  list_find (fun s => s_combo_key s = key) l = Some (i, s) ->
  exists s', list_find (fun s => s_combo_key s = key) l' = Some (i, s') /\
             stat_le s s'.
Proof.
  intros Hg (Hi & Hkey & Hbefore)%list_find_Some.
  destruct (Hg i s Hi) as (s' & Hi' & Hle).
  exists s'. split; [|done]. apply list_find_Some. split; [done|].
  split; [destruct Hle as (-> & _); done|].
  intros j y' Hj Hlt Hy'.
  destruct (lookup_lt_is_Some_2 l j) as [y Hy].
  { apply lookup_lt_Some in Hi. lia. }
  destruct (Hg j y Hy) as (y2 & Hy2 & Hle2).
  rewrite Hj in Hy2. injection Hy2 as ->.
  apply (Hbefore j y Hy Hlt). destruct Hle2 as (<- & _). done.
Qed.

(** C7.  For every combination key the sent and converted counters never
    go down over any run of handlers, and [converted_count <= sent_count]
    holds for every row in every state reachable from the empty
    document (and is kept from any state in which it holds). *)
Theorem combo_counts_monotone_and_bounded (env : Env) (ops : list Op) :
  (forall w key i s,
     list_find (fun s => s_combo_key s = key) (combo_stats (data w)) = Some (i, s) ->
     exists s',
       list_find (fun s => s_combo_key s = key)
         (combo_stats (data (run_ops env ops w))) = Some (i, s') /\
       s_sent_count s <= s_sent_count s' /\
       s_converted_count s <= s_converted_count s') /\
  (forall w,
     Forall (fun s => s_converted_count s <= s_sent_count s)
       (combo_stats (data w)) ->
     Forall (fun s => s_converted_count s <= s_sent_count s)
       (combo_stats (data (run_ops env ops w)))) /\
  Forall (fun s => s_converted_count s <= s_sent_count s)
    (combo_stats (data (run_ops env ops initial_world))).
Proof.
  split; [|split].
  - intros w key i s Hfind.
    destruct (steps_run_ops env ops w) as [(_ & Hg & _) _].
    destruct (grows_find_key key _ _ i s Hg Hfind) as (s' & Hfind' & _ & ? & ?).
    eauto.
  - intros w Hok. destruct (steps_run_ops env ops w) as [(_ & _ & H) _]. auto.
  - destruct (steps_run_ops env ops initial_world) as [(_ & _ & H) _].
    apply H. constructor.
Qed.

(** ** Positions handed out by [indexed] *)

Lemma indexed_fst {A} (l : list A) : (indexed l).*1 = seq 0 (length l).
Proof.
  unfold indexed. rewrite fmap_imap.
  rewrite (imap_ext _ (fun j _ => j)) by done.
  rewrite imap_seq_0. apply list_fmap_id.
Qed.

Lemma indexed_elem_of {A} (l : list A) (i : nat) (x : A) :
  (i, x) ∈ indexed l <-> l !! i = Some x.
Proof.
  unfold indexed. rewrite elem_of_lookup_imap. split.
  - intros (k & y & [= -> ->] & Hy). done.
  - intros Hx. eauto.
Qed.

Lemma picked_NoDup {A} (P : nat * A -> Prop) `{!forall p, Decision (P p)}
    (n : nat) (l : list A) :
  NoDup (take n (filter P (indexed l))).*1.
Proof.
  eapply sublist_NoDup; [apply (NoDup_seq 0 (length l))|].
  rewrite <- indexed_fst. apply fmap_sublist.
  etrans; [apply sublist_take | apply sublist_filter].
Qed.

Lemma picked_elem_of {A} (P : nat * A -> Prop) `{!forall p, Decision (P p)}
    (n : nat) (l : list A) (i : nat) (x : A) :
  (i, x) ∈ take n (filter P (indexed l)) -> l !! i = Some x /\ P (i, x).
Proof.
  intros Hin. apply subseteq_take in Hin.
  apply list_elem_of_filter in Hin as [HP Hin].
  by apply indexed_elem_of in Hin.
Qed.

(** ** No handler below the sweep touches the journey records it does
       not own *)

Lemma same_journeys_refl w : same_journeys w w.
Proof. done. Qed.

Lemma same_journeys_trans a b c :
  same_journeys a b -> same_journeys b c -> same_journeys a c.
Proof. unfold same_journeys. congruence. Qed.

Create HintDb same.

Ltac same_go :=
  repeat first
    [ solve [auto with same]
    | apply (preserves_ret same_journeys same_journeys_refl)
    | apply (preserves_throw same_journeys same_journeys_refl)
    | apply (preserves_get_db same_journeys same_journeys_refl)
    | apply (preserves_bind same_journeys same_journeys_trans); [|intros ?]
    | match goal with
      | |- preserves _ (match ?x with _ => _ end) => destruct x
      end ].

Section CreateExperimentFrame.

Variable env : Env.

Lemma same_Date_now : preserves same_journeys (Date_now env).
Proof. intros w. done. Qed.

Lemma same_Math_random : preserves same_journeys (Math_random env).
Proof. intros w. done. Qed.

Lemma same_uuidv4 : preserves same_journeys (uuidv4 env).
Proof. intros w. done. Qed.

Lemma same_console_log l : preserves same_journeys (console_log l).
Proof. intros w. done. Qed.

Lemma same_modify_experiments f :
  preserves same_journeys (modify_db (with_experiments f)).
Proof. intros w. done. Qed.

Lemma same_modify_scheduled f :
  preserves same_journeys (modify_db (with_scheduled_messages f)).
Proof. intros w. done. Qed.

#[local] Hint Resolve same_Date_now same_Math_random same_uuidv4 same_console_log
  same_modify_experiments same_modify_scheduled : same.

Lemma same_randomFrom arr : preserves same_journeys (randomFrom env arr).
Proof. unfold randomFrom. same_go. Qed.

#[local] Hint Resolve same_randomFrom : same.

Lemma same_selectCombo cohort attrs :
  preserves same_journeys (selectCombo env cohort attrs).
Proof. unfold selectCombo. cbv zeta. same_go. Qed.

Lemma same_generateMessage combo attrs :
  preserves same_journeys (generateMessage env combo attrs).
Proof. unfold generateMessage. cbv zeta. same_go. Qed.

Lemma same_getNextTime h m : preserves same_journeys (getNextTime env h m).
Proof. unfold getNextTime. cbv zeta. same_go. Qed.

#[local] Hint Resolve same_selectCombo same_generateMessage same_getNextTime : same.

Lemma same_sendAtFor timing : preserves same_journeys (sendAtFor env timing).
Proof. unfold sendAtFor. same_go. Qed.

#[local] Hint Resolve same_sendAtFor : same.

Lemma same_createExperiment userId cohort attrs :
  preserves same_journeys (createExperiment env userId cohort attrs).
Proof. unfold createExperiment. cbv zeta. same_go. Qed.

End CreateExperimentFrame.

(** ** With draws in range, creating an experiment does not throw *)

Lemma returns_bind_with {A B} (P : A -> Prop) (m : M A) (f : A -> M B) :
  returns_with P m -> (forall a, P a -> returns (f a)) -> returns (bind m f).
Proof.
  intros Hm Hf w. unfold bind. destruct (Hm w) as (a & Ha & HP).
  destruct (m w) as [r w1]; simpl in Ha; subst r. by apply Hf.
Qed.

Section Returns.

Variable env : Env.
Hypothesis draws : random_ok env.

Lemma returns_Date_now : returns (Date_now env).
Proof. intros w. eexists. reflexivity. Qed.

Lemma returns_uuidv4 : returns (uuidv4 env).
Proof. intros w. eexists. reflexivity. Qed.

Lemma returns_get_db : returns get_db.
Proof. intros w. eexists. reflexivity. Qed.

Lemma returns_modify_db f : returns (modify_db f).
Proof. intros w. eexists. reflexivity. Qed.

Lemma returns_console_log l : returns (console_log l).
Proof. intros w. eexists. reflexivity. Qed.

Lemma returns_Math_random :
  returns_with (fun r => (0 <= r)%Q /\ (r < 1)%Q) (Math_random env).
Proof. intros w. eexists. split; [reflexivity|apply draws]. Qed.

Lemma returns_randomFrom arr : returns (randomFrom env arr).
Proof.
  unfold randomFrom. eapply returns_bind_with; [apply returns_Math_random|].
  intros r _. apply returns_ret.
Qed.

Lemma returns_selectCombo cohort attrs : returns (selectCombo env cohort attrs).
Proof.
  unfold selectCombo. cbv zeta.
  apply returns_bind; [apply returns_get_db|intros d].
  eapply returns_bind_with; [apply returns_Math_random|intros r _].
  apply returns_bind.
  - destruct (negb _ && bool_decide _) eqn:Hif.
    + eapply returns_bind_with; [apply returns_Math_random|intros r' [H0 H1]].
      apply andb_prop in Hif as [_ Hlen]. apply bool_decide_eq_true in Hlen.
      destruct (random_pick (take 5 (ranked_stats d)) r' H0 H1) as (x & -> & _).
      { destruct (ranked_stats d); [simpl in Hlen; lia|done]. }
      apply returns_ret.
    + repeat (apply returns_bind; [apply returns_randomFrom|intros ?]).
      apply returns_ret.
  - intros [[[t c] l] o].
    apply returns_bind; [apply returns_randomFrom|intros tn]. apply returns_ret.
Qed.

Lemma returns_generateMessage combo attrs :
  returns (generateMessage env combo attrs).
Proof.
  unfold generateMessage. cbv zeta.
  apply returns_bind; [apply returns_randomFrom|intros template].
  eapply returns_bind_with; [apply returns_Math_random|intros rc _].
  eapply returns_bind_with; [apply returns_Math_random|intros rh _].
  apply returns_ret.
Qed.

Lemma returns_getNextTime h m : returns (getNextTime env h m).
Proof.
  unfold getNextTime.
  apply returns_bind; [apply returns_Date_now|intros now]. apply returns_ret.
Qed.

Lemma returns_sendAtFor timing : returns (sendAtFor env timing).
Proof.
  unfold sendAtFor.
  destruct (truthy_delay _);
    repeat case_decide; try apply returns_getNextTime;
    (apply returns_bind; [apply returns_Date_now|intros now]; apply returns_ret).
Qed.

Lemma returns_createExperiment userId cohort attrs :
  returns (createExperiment env userId cohort attrs).
Proof.
  unfold createExperiment. cbv zeta.
  apply returns_bind; [apply returns_Date_now|intros t0].
  apply returns_bind; [apply returns_get_db|intros d].
  destruct (list_find _ _) as [[k recent]|].
  - apply returns_bind; [apply returns_console_log|intros _]. apply returns_ret.
  - apply returns_bind; [apply returns_uuidv4|intros id].
    apply returns_bind; [apply returns_selectCombo|intros combo].
    apply returns_bind; [apply returns_generateMessage|intros message].
    apply returns_bind; [apply returns_Date_now|intros now].
    apply returns_bind; [apply returns_modify_db|intros _].
    apply returns_bind; [apply returns_sendAtFor|intros sendAt].
    apply returns_bind; [apply returns_uuidv4|intros smId].
    apply returns_bind; [apply returns_modify_db|intros _].
    apply returns_bind; [apply returns_console_log|intros _].
    apply returns_ret.
Qed.

End Returns.

(** ** Abandonment is announced once per journey record *)

Lemma abandon_count_app i l1 l2 :
  abandon_count i (l1 ++ l2) = (abandon_count i l1 + abandon_count i l2)%nat.
Proof. unfold abandon_count. by rewrite filter_app, length_app. Qed.

Lemma abandon_count_quiet i lines :
  Forall (fun l => ~ is_abandoned l) lines -> abandon_count i lines = 0%nat.
Proof.
  unfold abandon_count. induction 1 as [|l lines Hl _ IH]; [done|].
  rewrite filter_cons. destruct (decide (abandoned_at i l)) as [Hi|_]; [|done].
  destruct l; simpl in *; tauto.
Qed.

Lemma abandon_count_mono i w w' :
  steps w w' -> (abandon_count i (console w) <= abandon_count i (console w'))%nat.
Proof. intros [_ (lines & ->)]. rewrite abandon_count_app. lia. Qed.

Lemma steps_checked_at i w w' : steps w w' -> checked_at i w -> checked_at i w'.
Proof.
  intros [(Hj & _) _] (j & Hi & Hc).
  destruct (Hj i j Hi) as (j' & Hi' & Hle). exists j'. split; [done|].
  by eapply journey_le_checked.
Qed.

Lemma quiet_abandoned_once w w' :
  quiet w w' -> abandoned_once w -> abandoned_once w'.
Proof.
  intros Hq Hinv i. destruct (Hinv i) as [Hle Hchk].
  pose proof (quiet_steps _ _ Hq) as Hs.
  destruct Hq as [_ (lines & E & Hlines)].
  rewrite E, abandon_count_app, (abandon_count_quiet i lines Hlines).
  rewrite Nat.add_0_r. split; [done|].
  intros Hpos. eapply steps_checked_at; eauto.
Qed.

(** Raising the flag of record [i] after at most one announcement for it
    re-establishes the invariant. *)
Lemma abandoned_once_mark (i : nat) (w w' : World) (lines : list LogLine) :
  abandoned_once w ->
  user_journey (data w') = alter (set_checked true) i (user_journey (data w)) ->
  is_Some (user_journey (data w) !! i) ->
  console w' = console w ++ lines ->
  (forall k, k <> i -> abandon_count k lines = 0%nat) ->
  (abandon_count i (console w) + abandon_count i lines <= 1)%nat ->
  abandoned_once w'.
Proof.
  intros Hinv Huj [j Hj] Hc Hother Hi k. rewrite Hc, abandon_count_app.
  destruct (decide (k = i)) as [->|Hne].
  - split; [done|]. intros _. exists (set_checked true j). split; [|done].
    by rewrite Huj, list_lookup_alter_eq, Hj.
  - rewrite (Hother k Hne), Nat.add_0_r. destruct (Hinv k) as [Hle Hchk].
    split; [done|]. intros Hpos. destruct (Hchk Hpos) as (j' & Hk & Hck).
    exists j'. split; [|done]. by rewrite Huj, list_lookup_alter_ne.
Qed.

Section Once.

Variable env : Env.
Hypothesis draws : random_ok env.

(** One turn of the sweep on an unresolved record. *)
Lemma sweepJourney_once (i : nat) (journey j0 : Journey) (w : World) :
  abandoned_once w ->
  user_journey (data w) !! i = Some j0 -> j_checked j0 = false ->
  abandoned_once (sweepJourney env (i, journey) w).2 /\
  forall k, k <> i ->
    user_journey (data (sweepJourney env (i, journey) w).2) !! k
    = user_journey (data w) !! k.
Proof.
  intros Hinv Hi Hunchecked.
  assert (Hzero : abandon_count i (console w) = 0%nat).
  { destruct (Hinv i) as [_ Hchk].
    destruct (abandon_count i (console w)) as [|n] eqn:E; [done|].
    destruct Hchk as (j & Hj & Hc); [lia|]. congruence. }
  remember (sweepJourney env (i, journey) w) as res eqn:Hres.
  unfold sweepJourney in Hres. cbv zeta in Hres. simpl in Hres.
  destruct (eventConfig !! j_event_type journey)
    as [[wait t cohort|cohort]|]; [|by subst res; split..].
  unfold bind at 1 in Hres. simpl in Hres.
  destruct (list_find _ _) as [[k jf]|].
  - simpl in Hres. subst res. simpl. split.
    + eapply (abandoned_once_mark i w _ [LOk (j_user_id journey) wait]);
        eauto; simpl; try done.
      rewrite Hzero. vm_compute. lia.
    + intros k' Hne. by rewrite list_lookup_alter_ne.
  - unfold bind in Hres. simpl in Hres.
    set (w1 := {| data := data w; n_clock := n_clock w;
                  n_random := n_random w; n_uuid := n_uuid w;
                  n_post := n_post w;
                  console := console w ++
                    [LAbandoned i (j_user_id journey) wait cohort] |}) in *.
    pose proof (quiet_createExperiment env (j_user_id journey) cohort
                  (j_properties journey) w1) as [_ (lines & Hc & Hlines)].
    pose proof (same_createExperiment env (j_user_id journey) cohort
                  (j_properties journey) w1) as Hsame.
    destruct (returns_createExperiment env draws (j_user_id journey) cohort
                (j_properties journey) w1) as [r Hr].
    destruct (createExperiment env (j_user_id journey) cohort
                (j_properties journey) w1) as [cr w2].
    simpl in Hc, Hsame, Hr. subst cr. simpl in Hres. subst res. simpl.
    unfold same_journeys in Hsame. simpl in Hsame.
    split.
    + eapply (abandoned_once_mark i w _
                (LAbandoned i (j_user_id journey) wait cohort :: lines));
        eauto; simpl.
      * by rewrite Hsame.
      * rewrite Hc. by rewrite <- app_assoc.
      * intros k Hne. unfold abandon_count. rewrite filter_cons.
        destruct (decide _) as [Hk|_]; [simpl in Hk; congruence|].
        by apply abandon_count_quiet.
      * rewrite Hzero. unfold abandon_count. rewrite filter_cons.
        destruct (decide _) as [_|Hk]; [|simpl in Hk; congruence].
        simpl. fold (abandon_count i lines).
        rewrite (abandon_count_quiet i lines Hlines). lia.
    + intros k Hne. rewrite list_lookup_alter_ne by done.
      by rewrite Hsame.
Qed.

Lemma sweep_loop_once (rest : list (nat * Journey)) (w : World) :
  NoDup rest.*1 ->
  abandoned_once w ->
  (forall k j, (k, j) ∈ rest ->
     exists j0, user_journey (data w) !! k = Some j0 /\ j_checked j0 = false) ->
  abandoned_once (for_of rest (sweepJourney env) w).2.
Proof.
  revert w. induction rest as [|[i journey] rest IH]; intros w Hnd Hinv Hrest.
  - done.
  - simpl. unfold bind.
    destruct (Hrest i journey) as (j0 & Hi & Hc); [left|].
    destruct (sweepJourney_once i journey j0 w Hinv Hi Hc) as [Hinv1 Hkeep].
    destruct (sweepJourney env (i, journey) w) as [[[]|e] w1]; [|done].
    simpl in *. apply NoDup_cons in Hnd as [Hnotin Hnd].
    apply IH; [done..|].
    intros k j Hin. rewrite Hkeep.
    + apply (Hrest k j). by right.
    + intros ->. apply Hnotin.
      apply list_elem_of_fmap. exists (i, j). done.
Qed.

Lemma deadlineSweepCron_once (w : World) :
  abandoned_once w -> abandoned_once (deadlineSweepCron env w).2.
Proof.
  intros Hinv. unfold deadlineSweepCron, bind. simpl.
  apply sweep_loop_once.
  - apply picked_NoDup.
  - apply (quiet_abandoned_once w); [by apply quiet_frame|done].
  - intros k j Hin. apply picked_elem_of in Hin as [Hk [_ Hc]].
    simpl in *. eauto.
Qed.

Lemma run_op_once op w : abandoned_once w -> abandoned_once (run_op env op w).
Proof.
  destruct op; unfold run_op.
  - apply quiet_abandoned_once, quiet_webhookAmplitude.
  - apply deadlineSweepCron_once.
  - apply quiet_abandoned_once, quiet_deliveryDispatcherCron.
  - apply quiet_abandoned_once, quiet_apiTrigger.
  - apply quiet_abandoned_once, (quiet_apiExperiments env).
Qed.

Lemma run_ops_once ops w :
  abandoned_once w -> abandoned_once (run_ops env ops w).
Proof.
  revert w. induction ops as [|op ops IH]; intros w Hinv; simpl; [done|].
  by apply IH, run_op_once.
Qed.

End Once.

Lemma hourly_env_draws : random_ok Scenario.hourly_env.
Proof.
  intros k. pose proof (Z.mod_pos_bound (Z.of_nat k) 10 eq_refl).
  unfold Qle, Qlt. cbn [Qnum Qden random Scenario.hourly_env]. lia.
Qed.

Lemma initial_abandoned_once : abandoned_once initial_world.
Proof. intros i. split; [compute; lia|]. compute. lia. Qed.



Lemma combo_counts_monotone_and_bounded_witness :
  exists s',
    list_find (fun s => s_combo_key s = "5min|sms|reciprocity|paytm_cashback"%string)
      (combo_stats (data (run_ops Sample.quiet_env [OpDispatch] Sample.due)))
    = Some (0%nat, s') /\
    7 <= s_sent_count s' /\ 2 <= s_converted_count s'.
Proof.
  apply (proj1 (combo_counts_monotone_and_bounded Sample.quiet_env [OpDispatch])
           Sample.due "5min|sms|reciprocity|paytm_cashback"%string 0%nat
           (Sample.stat1 7 2)).
  vm_compute. reflexivity.
Defined.

(** ** The sweep's follow-up test *)

(** C6.  While the sweep handles a journey record whose event type has a
    wait rule, a stored record counts as its follow-up exactly when it is
    of the same user, of the expected event type and its event time is
    strictly greater than the record's own; abandonment is announced (and
    the Experiment Factory called) exactly when no stored record passes
    that test, so an equal or earlier follow-up does not suppress it. *)
Theorem follow_up_is_strictly_later (env : Env) (i : nat) (journey : Journey)
    (w : World) (wait : string) (timeout : Z) (cohort : string) :
  eventConfig !! j_event_type journey = Some (Waits wait timeout cohort) ->
  let later j :=
    j_user_id j = j_user_id journey /\ j_event_type j = wait /\
    j_event_time j > j_event_time journey in
  let after := (sweepJourney env (i, journey) w).2 in
  let announce := LAbandoned i (j_user_id journey) wait cohort in
  (forall j, isFollowUp journey wait j <-> later j) /\
  ((exists lines, console after = console w ++ announce :: lines) <->
   ~ exists j, j ∈ user_journey (data w) /\ later j) /\
  ((exists j, j ∈ user_journey (data w) /\ later j) ->
   console after = console w ++ [LOk (j_user_id journey) wait] /\
   experiments (data after) = experiments (data w) /\
   scheduled_messages (data after) = scheduled_messages (data w)) /\
  ((forall j, j ∈ user_journey (data w) ->
      j_user_id j = j_user_id journey -> j_event_type j = wait ->
      j_event_time j <= j_event_time journey) ->
   sweepJourney env (i, journey) w =
   ((console_log announce ;;;
     createExperiment env (j_user_id journey) cohort (j_properties journey) ;;;
     ret tt) ;;;
    modify_db (with_user_journey (alter (set_checked true) i))) w).
Proof.
  intros Hcfg later after announce.
  assert (Hlater : forall j, isFollowUp journey wait j <-> later j).
  { intros j. unfold isFollowUp, later. intuition lia. }
  assert (Hrun : sweepJourney env (i, journey) w =
    match list_find (isFollowUp journey wait) (user_journey (data w)) with
    | Some _ =>
        (console_log (LOk (j_user_id journey) wait) ;;;
         modify_db (with_user_journey (alter (set_checked true) i))) w
    | None =>
        ((console_log announce ;;;
          createExperiment env (j_user_id journey) cohort (j_properties journey) ;;;
          ret tt) ;;;
         modify_db (with_user_journey (alter (set_checked true) i))) w
    end).
  { unfold sweepJourney. cbv zeta. simpl. rewrite Hcfg.
    unfold bind at 1. simpl.
    destruct (list_find _ _) as [[k jf]|]; reflexivity. }
  destruct (list_find (isFollowUp journey wait) (user_journey (data w)))
    as [[k jf]|] eqn:Hfind.
  - apply list_find_Some in Hfind as (Hk & Hjf & _).
    assert (Hex : exists j, j ∈ user_journey (data w) /\ later j).
    { exists jf. split; [by eapply list_elem_of_lookup_2|by apply Hlater]. }
    assert (Hlog : console after = console w ++ [LOk (j_user_id journey) wait]).
    { unfold after. rewrite Hrun. reflexivity. }
    split; [exact Hlater|]. split; [|split].
    + split.
      * intros (lines & E). rewrite Hlog in E.
        apply app_inv_head in E. discriminate.
      * intros Hno. by destruct Hno.
    + intros _. split; [exact Hlog|]. unfold after. rewrite Hrun. by split.
    + intros Hall. destruct Hex as (j & Hin & Hu & Ht & Hgt).
      specialize (Hall j Hin Hu Ht). lia.
  - apply list_find_None in Hfind.
    assert (Hno : ~ exists j, j ∈ user_journey (data w) /\ later j).
    { intros (j & Hin & Hj). rewrite Forall_forall in Hfind.
      apply (Hfind j Hin). by apply Hlater. }
    split; [exact Hlater|]. split; [|split].
    + split; [intros _; exact Hno|]. intros _.
      unfold after. rewrite Hrun. unfold bind at 1. unfold bind at 1. simpl.
      set (w1 := {| data := data w; n_clock := n_clock w;
                    n_random := n_random w; n_uuid := n_uuid w;
                    n_post := n_post w; console := console w ++ [announce] |}).
      pose proof (quiet_createExperiment env (j_user_id journey) cohort
                    (j_properties journey) w1) as [_ (lines & Hc & _)].
      unfold bind.
      destruct (createExperiment env (j_user_id journey) cohort
                  (j_properties journey) w1) as [[cr|e] w2];
        simpl in *; exists lines; rewrite Hc; by rewrite <- app_assoc.
    + intros Hex. by destruct Hno.
    + intros _. exact Hrun.
Qed.

Lemma follow_up_is_strictly_later_witness :
  let journey :=
    {| j_id := "a"; j_user_id := "u"; j_event_type := "trial_paywall_view";
       j_event_time := 1000; j_properties := no_attributes;
       j_check_at := 1801000; j_checked := false |} in
  let same_instant :=
    {| j_id := "b"; j_user_id := "u"; j_event_type := "trial_initiated";
       j_event_time := 1000; j_properties := no_attributes;
       j_check_at := 601000; j_checked := false |} in
  let w := Sample.world_of
             {| experiments := []; combo_stats := []; scheduled_messages := [];
                user_journey := [journey; same_instant] |} in
  eventConfig !! j_event_type journey
    = Some (Waits "trial_initiated" (30 * 60 * 1000) "paywall_bouncers") /\
  exists lines,
    console (sweepJourney Sample.quiet_env (0%nat, journey) w).2
    = console w ++ LAbandoned 0 "u" "trial_initiated" "paywall_bouncers" :: lines.
Proof.
  intros journey same_instant w.
  assert (Hcfg : eventConfig !! j_event_type journey
            = Some (Waits "trial_initiated" (30 * 60 * 1000) "paywall_bouncers"))
    by (vm_compute; reflexivity).
  split; [exact Hcfg|].
  apply (proj2 (proj1 (proj2 (follow_up_is_strictly_later Sample.quiet_env 0%nat
                                journey w _ _ _ Hcfg)))).
  intros (j & Hin & _ & Hty & Hgt).
  apply elem_of_cons in Hin as [->|Hin]; [discriminate Hty|].
  apply elem_of_cons in Hin as [->|Hin]; [simpl in Hgt; lia|].
  by apply elem_of_nil in Hin.
Defined.

(** ** Sorting *)

Section Sorting.

Context {A : Type} (before : A -> A -> bool) (ge : A -> A -> Prop).
Hypothesis before_ge : forall y x, before y x = true -> ge y x.
Hypothesis not_before_ge : forall y x, before y x = false -> ge x y.
Hypothesis ge_trans : forall x y z, ge x y -> ge y z -> ge x z.

Lemma sort_insert_perm (x : A) (l : list A) :
  sort_insert before x l ≡ₚ x :: l.
Proof.
  induction l as [|y l IH]; simpl; [done|].
  destruct (before y x); [|done].
  rewrite IH. apply Permutation_swap.
Qed.

Lemma js_sort_perm (l : list A) : js_sort before l ≡ₚ l.
Proof.
  induction l as [|x l IH]; simpl; [done|].
  rewrite sort_insert_perm. by rewrite IH.
Qed.

Lemma sort_insert_sorted (x : A) (l : list A) :
  StronglySorted ge l -> StronglySorted ge (sort_insert before x l).
Proof.
  induction 1 as [|y l Hs IH Hy]; simpl.
  - repeat constructor.
  - destruct (before y x) eqn:Hb.
    + constructor; [exact IH|].
      rewrite sort_insert_perm. constructor; [by apply before_ge|exact Hy].
    + constructor; [by constructor|].
      constructor; [by apply not_before_ge|].
      eapply Forall_impl; [exact Hy|].
      intros z Hz. eapply ge_trans; [|exact Hz]. by apply not_before_ge.
Qed.

Lemma js_sort_sorted (l : list A) : StronglySorted ge (js_sort before l).
Proof.
  induction l as [|x l IH]; simpl; [constructor|].
  by apply sort_insert_sorted.
Qed.

(** In a sorted list an earlier position holds a [ge]-greater value. *)
Lemma sorted_lookup_ge (l : list A) (i k : nat) (a b : A) :
  StronglySorted ge l -> (i < k)%nat ->
  l !! i = Some a -> l !! k = Some b -> ge a b.
Proof.
  intros Hs. revert i k. induction Hs as [|y l Hs IH Hy]; intros i k Hik Ha Hb.
  - done.
  - destruct k as [|k]; [lia|]. simpl in Hb. destruct i as [|i].
    + injection Ha as ->. rewrite Forall_forall in Hy. apply Hy.
      by eapply list_elem_of_lookup_2.
    + simpl in Ha. eapply (IH i k); [lia|done..].
Qed.

End Sorting.

(** ** The ranking of the Combination Selector *)

Lemma Qltb_true (x y : Q) : Qltb x y = true <-> (x < y)%Q.
Proof.
  unfold Qltb. rewrite negb_true_iff. split.
  - intros H. apply Qnot_le_lt. intros Hle.
    apply Qle_bool_iff in Hle. congruence.
  - intros H. destruct (Qle_bool y x) eqn:E; [|done].
    apply Qle_bool_iff in E. lra.
Qed.

Lemma Qltb_false (x y : Q) : Qltb x y = false <-> ~ (x < y)%Q.
Proof.
  rewrite <- Qltb_true. destruct (Qltb x y); split; try done; congruence.
Qed.

Lemma ranked_stats_perm (d : DB) : ranked_stats d ≡ₚ rate <$> eligible_stats d.
Proof. apply js_sort_perm. Qed.

Lemma ranked_stats_sorted (d : DB) :
  StronglySorted (fun a b => (cvr b <= cvr a)%Q) (ranked_stats d).
Proof.
  apply js_sort_sorted.
  - intros y x H. apply Qltb_true in H. lra.
  - intros y x H. apply Qltb_false in H. lra.
  - intros x y z ? ?. lra.
Qed.

Lemma ranked_stats_elem (d : DB) (s : RatedStat) :
  s ∈ ranked_stats d ->
  stat s ∈ eligible_stats d /\
  (cvr s == inject_Z (s_converted_count (stat s))
            / inject_Z (s_sent_count (stat s)))%Q.
Proof.
  rewrite ranked_stats_perm. intros (s0 & -> & Hin)%list_elem_of_fmap.
  split; [exact Hin|].
  apply list_elem_of_filter in Hin as [H5 _]. unfold rate. simpl.
  destruct (Z.ltb_spec 0 (s_sent_count s0)); [reflexivity|lia].
Qed.

Lemma cohortIntelligence_cases (cohort : string) (x : Intelligence) :
  cohortIntelligence !! cohort = Some x ->
  x = checkout_abandoners \/ x = payment_failed \/ x = paywall_bouncers.
Proof.
  intros H. apply elem_of_list_to_map_2 in H.
  repeat (apply elem_of_cons in H as [[= _ ->]|H]; [tauto|]).
  by apply elem_of_nil in H.
Qed.

Lemma tones_of_nonempty (cohort : string) : tones_of cohort <> [].
Proof.
  unfold tones_of. destruct (cohortIntelligence !! cohort) as [x|] eqn:E.
  - apply cohortIntelligence_cases in E as [->|[->| ->]]; done.
  - done.
Qed.

(** The tone of a selected combination is the draw made after the four
    other fields, from the tone set of the cohort. *)
Lemma selectCombo_tone (env : Env) (cohort : string) (attrs : Attributes)
    (w w' : World) (combo : Combo) :
  selectCombo env cohort attrs w = (Ok combo, w') ->
  exists k : nat,
    tone combo =
    default "undefined"%string
      (js_index (tones_of cohort)
         (floor_times (random env k) (Z.of_nat (length (tones_of cohort))))).
Proof.
  unfold selectCombo. cbv zeta. fold (tones_of cohort).
  unfold bind at 1. cbn [get_db fst snd].
  unfold bind at 1. cbn [Math_random fst snd].
  unfold bind at 1.
  match goal with |- context [match ?c ?x with _ => _ end] =>
    destruct (c x) as [[[[[t c'] l] o]|e] w1] end; [|discriminate].
  unfold randomFrom, bind, Math_random, ret. cbn [fst snd].
  intros [= <- _]. cbn [tone]. eauto.
Qed.


Lemma half_env_draws : random_ok Ranking.half_env.
Proof. intros k. split; unfold Qle, Qlt; simpl; lia. Qed.


Ltac not_in_list :=
  let H := fresh in
  intros H;
  repeat (apply elem_of_cons in H as [H|H]; [discriminate H|]);
  by apply elem_of_nil in H.



(** ** Selecting a combination and composing a message only draw *)

Lemma only_draws_refl w : only_draws w w.
Proof. by repeat split. Qed.

Lemma only_draws_trans a b c : only_draws a b -> only_draws b c -> only_draws a c.
Proof.
  unfold only_draws. intros (?&?&?&?&?) (?&?&?&?&?).
  repeat split; congruence.
Qed.

Create HintDb draws.

Ltac draws_go :=
  repeat first
    [ solve [auto with draws]
    | apply (preserves_ret only_draws only_draws_refl)
    | apply (preserves_throw only_draws only_draws_refl)
    | apply (preserves_get_db only_draws only_draws_refl)
    | apply (preserves_bind only_draws only_draws_trans); [|intros ?]
    | match goal with
      | |- preserves _ (match ?x with _ => _ end) => destruct x
      end ].

Section Draws.

Variable env : Env.

Lemma draws_Math_random : preserves only_draws (Math_random env).
Proof. intros w. by repeat split. Qed.

#[local] Hint Resolve draws_Math_random : draws.

Lemma draws_randomFrom arr : preserves only_draws (randomFrom env arr).
Proof. unfold randomFrom. draws_go. Qed.

#[local] Hint Resolve draws_randomFrom : draws.

Lemma draws_selectCombo cohort attrs :
  preserves only_draws (selectCombo env cohort attrs).
Proof. unfold selectCombo. cbv zeta. draws_go. Qed.

Lemma draws_generateMessage combo attrs :
  preserves only_draws (generateMessage env combo attrs).
Proof. unfold generateMessage. cbv zeta. draws_go. Qed.

End Draws.

(** ** Send times *)

Lemma next_local_least (tz tod now r r' : Z) :
  next_local tz tod now r -> now < r' -> (r' + tz) `mod` day_ms = tod -> r <= r'.
Proof.
  unfold next_local, day_ms. intros (Hlt & Hle & Hmod) Hlt' Hmod'.
  destruct (Z.le_gt_cases r r') as [|Hgt]; [done|exfalso].
  pose proof (Z.div_mod (r + tz) 86400000 ltac:(lia)) as E.
  pose proof (Z.div_mod (r' + tz) 86400000 ltac:(lia)) as E'.
  change (24 * 60 * 60 * 1000) with 86400000 in *.
  rewrite Hmod in E. rewrite Hmod' in E'.
  assert ((r + tz) `div` 86400000 = (r' + tz) `div` 86400000 \/
          (r + tz) `div` 86400000 <= (r' + tz) `div` 86400000 - 1 \/
          (r' + tz) `div` 86400000 <= (r + tz) `div` 86400000 - 1) as [H|[H|H]]
    by lia; lia.
Qed.

Lemma getNextTime_run (env : Env) (hour minute : Z) (w : World) :
  0 <= hour * 3600000 + minute * 60000 < day_ms ->
  exists r,
    getNextTime env hour minute w = (Ok r, tick w) /\
    next_local (tz_offset env) (hour * 3600000 + minute * 60000)
      (clock env (n_clock w)) r.
Proof.
  intros Htod. unfold getNextTime, bind, Date_now, ret. cbv zeta. world_cbn.
  eexists. split; [reflexivity|].
  set (now := clock env (n_clock w)). set (tz := tz_offset env).
  set (tod := hour * 3600000 + minute * 60000) in *.
  unfold next_local, day_ms in *.
  change (24 * 60 * 60 * 1000) with 86400000 in *.
  pose proof (Z.div_mod (now + tz) 86400000 ltac:(lia)) as E.
  pose proof (Z.mod_pos_bound (now + tz) 86400000 ltac:(lia)) as B.
  set (q := (now + tz) `div` 86400000) in *.
  set (m := (now + tz) `mod` 86400000) in *.
  replace (q * 86400000 + hour * 3600000 + minute * 60000 - tz)
    with (q * 86400000 + tod - tz) by (unfold tod; lia).
  destruct (Z.leb_spec (q * 86400000 + tod - tz) now).
  - split; [lia|]. split; [lia|].
    replace (q * 86400000 + tod - tz + 86400000 + tz)
      with (tod + (q + 1) * 86400000) by lia.
    rewrite Z_mod_plus_full. apply Z.mod_small. lia.
  - split; [lia|]. split; [lia|].
    replace (q * 86400000 + tod - tz + tz) with (tod + q * 86400000) by lia.
    rewrite Z_mod_plus_full. apply Z.mod_small. lia.
Qed.

Lemma delays_unmapped (timing : string) :
  timing ∉ timing_names -> truthy_delay (delays !! timing) = None.
Proof.
  intros Hnot. destruct (delays !! timing) as [[ms|]|] eqn:E; try done.
  exfalso. apply elem_of_list_to_map_2 in E. apply Hnot. unfold timing_names.
  repeat (apply elem_of_cons in E as [[= -> _]|E];
          [repeat first [left; reflexivity | right]|]).
  repeat (apply elem_of_cons in E as [E|E]; [discriminate E|]).
  by apply elem_of_nil in E.
Qed.

Ltac split_ands := repeat match goal with |- _ /\ _ => split end.

Lemma sendAtFor_run (env : Env) (timing : string) (w : World) :
  exists sendAt,
    sendAtFor env timing w = (Ok sendAt, tick w) /\
    send_time_spec env timing (clock env (n_clock w)) sendAt.
Proof.
  destruct (decide (timing ∈ timing_names)) as [Hin|Hnot].
  - unfold timing_names in Hin.
    repeat (apply elem_of_cons in Hin as [->|Hin];
      [try (eexists; split; [reflexivity|];
            unfold send_time_spec; split_ands; intros H;
            first [discriminate H | reflexivity
                  | exfalso; apply H; unfold timing_names;
                    repeat first [left; reflexivity | right]])|]).
    + destruct (getNextTime_run env 8 0 w) as (r & Hrun & Hnext);
        [unfold day_ms; lia|].
      exists r. split; [exact Hrun|].
      unfold send_time_spec; split_ands; intros H;
        first [discriminate H | exact Hnext
              | exfalso; apply H; unfold timing_names;
                repeat first [left; reflexivity | right]].
    + destruct (getNextTime_run env 19 0 w) as (r & Hrun & Hnext);
        [unfold day_ms; lia|].
      exists r. split; [exact Hrun|].
      unfold send_time_spec; split_ands; intros H;
        first [discriminate H | exact Hnext
              | exfalso; apply H; unfold timing_names;
                repeat first [left; reflexivity | right]].
    + by apply elem_of_nil in Hin.
  - exists (clock env (n_clock w) + 60000). split.
    + unfold sendAtFor. rewrite (delays_unmapped timing Hnot).
      assert (timing <> "next_morning"%string)
        by (intros ->; apply Hnot; unfold timing_names;
            repeat first [left; reflexivity | right]).
      assert (timing <> "next_evening"%string)
        by (intros ->; apply Hnot; unfold timing_names;
            repeat first [left; reflexivity | right]).
      rewrite !decide_False by done. reflexivity.
    + unfold send_time_spec.
      split_ands; intros H; first [reflexivity | subst timing; exfalso;
        apply Hnot; unfold timing_names;
        repeat first [left; reflexivity | right]].
Qed.

(** ** What creating an experiment writes *)

Lemma createExperiment_existing (env : Env) (userId cohort : string)
    (attrs : Attributes) (w : World) (k : nat) (recent : Experiment) :
  list_find (is_recent userId cohort (clock env (n_clock w) - 60 * 60 * 1000))
    (experiments (data w)) = Some (k, recent) ->
  createExperiment env userId cohort attrs w =
  (Ok (Existing recent),
   {| data := data w; n_clock := S (n_clock w); n_random := n_random w;
      n_uuid := n_uuid w; n_post := n_post w;
      console := console w ++ [LSkip userId] |}).
Proof.
  intros Hfind. unfold createExperiment. cbv zeta.
  unfold bind at 1. cbn [Date_now]. unfold bind at 1. cbn [get_db]. world_cbn.
  rewrite Hfind. reflexivity.
Qed.

Lemma createExperiment_created (env : Env) (userId cohort : string)
    (attrs : Attributes) (w w' : World) (r : CreateResult) :
  list_find (is_recent userId cohort (clock env (n_clock w) - 60 * 60 * 1000))
    (experiments (data w)) = None ->
  createExperiment env userId cohort attrs w = (Ok r, w') ->
  exists combo message sendAt smId,
    r = Created (uuid env (n_uuid w)) combo message sendAt /\
    send_time_spec env (timing combo) (clock env (S (S (n_clock w)))) sendAt /\
    experiments (data w') =
      experiments (data w) ++
      [new_experiment (uuid env (n_uuid w)) userId cohort combo message
         (clock env (S (n_clock w)))] /\
    scheduled_messages (data w') =
      scheduled_messages (data w) ++
      [{| sm_id := smId; sm_experiment_id := uuid env (n_uuid w);
          sm_user_id := userId; sm_send_at := sendAt;
          sm_status := MsgPending |}] /\
    combo_stats (data w') = combo_stats (data w) /\
    user_journey (data w') = user_journey (data w) /\
    n_clock w' = S (S (S (n_clock w))).
Proof.
  intros Hfind. unfold createExperiment. cbv zeta.
  unfold bind at 1. cbn [Date_now]. unfold bind at 1. cbn [get_db]. world_cbn.
  rewrite Hfind.
  unfold bind at 1. cbn [uuidv4]. world_cbn.
  set (w1 := {| data := data w; n_clock := S (n_clock w);
                n_random := n_random w; n_uuid := S (n_uuid w);
                n_post := n_post w; console := console w |}).
  unfold bind at 1.
  pose proof (draws_selectCombo env cohort attrs w1) as (Hd2 & Hc2 & Hu2 & _).
  destruct (selectCombo env cohort attrs w1) as [[combo|e] w2]; [|discriminate].
  unfold bind at 1.
  pose proof (draws_generateMessage env combo attrs w2) as (Hd3 & Hc3 & Hu3 & _).
  destruct (generateMessage env combo attrs w2) as [[message|e] w3];
    [|discriminate].
  cbn [snd] in Hd2, Hc2, Hu2, Hd3, Hc3, Hu3.
  unfold bind at 1. cbn [Date_now]. world_cbn.
  unfold bind at 1. cbn [modify_db]. world_cbn.
  unfold bind at 1.
  match goal with |- context [sendAtFor env (timing combo) ?wx] =>
    destruct (sendAtFor_run env (timing combo) wx) as (sendAt & -> & Hspec)
  end.
  cbn [tick] in *. world_cbn. cbn [n_clock] in Hspec.
  unfold bind, uuidv4, modify_db, console_log, ret. world_cbn.
  intros [= <- <-]. world_cbn.
  rewrite Hc3, Hc2 in Hspec. cbn [n_clock w1] in Hspec.
  eexists combo, message, sendAt, _.
  split; [reflexivity|]. split; [exact Hspec|].
  cbn [experiments scheduled_messages combo_stats user_journey
       with_experiments with_scheduled_messages].
  rewrite Hd3, Hd2, Hc3, Hc2. cbn [data n_clock w1].
  repeat split; reflexivity.
Qed.

(** With draws in range and no recent experiment, [createExperiment]
    creates one. *)
Lemma createExperiment_fresh (env : Env) (userId cohort : string)
    (attrs : Attributes) (w : World) :
  random_ok env ->
  list_find (is_recent userId cohort (clock env (n_clock w) - 60 * 60 * 1000))
    (experiments (data w)) = None ->
  exists combo message sendAt smId w',
    createExperiment env userId cohort attrs w =
      (Ok (Created (uuid env (n_uuid w)) combo message sendAt), w') /\
    send_time_spec env (timing combo) (clock env (S (S (n_clock w)))) sendAt /\
    experiments (data w') =
      experiments (data w) ++
      [new_experiment (uuid env (n_uuid w)) userId cohort combo message
         (clock env (S (n_clock w)))] /\
    scheduled_messages (data w') =
      scheduled_messages (data w) ++
      [{| sm_id := smId; sm_experiment_id := uuid env (n_uuid w);
          sm_user_id := userId; sm_send_at := sendAt;
          sm_status := MsgPending |}] /\
    combo_stats (data w') = combo_stats (data w) /\
    user_journey (data w') = user_journey (data w) /\
    n_clock w' = S (S (S (n_clock w))).
Proof.
  intros Hd Hfind.
  destruct (returns_createExperiment env Hd userId cohort attrs w) as [r Hr].
  destruct (createExperiment env userId cohort attrs w) as [res w'] eqn:Hrun.
  simpl in Hr. subst res.
  destruct (createExperiment_created env userId cohort attrs w w' r Hfind Hrun)
    as (combo & message & sendAt & smId & -> & H).
  exists combo, message, sendAt, smId, w'. split; [reflexivity|exact H].
Qed.



(** ** At most one experiment of a user and cohort is recent *)

Create HintDb dedup.

Lemma far_sym a b : far a b -> far b a.
Proof. unfold far. intros H Hu Hc. destruct H; [congruence..|tauto|tauto]. Qed.

Lemma separated_perm (l l' : list Experiment) :
  l ≡ₚ l' -> separated l -> separated l'.
Proof.
  induction 1 as [|x l l' Hp IH|x y l|l1 l2 l3 _ IH1 _ IH2]; simpl.
  - done.
  - intros [Hx Hl]. split; [by rewrite <- Hp|by apply IH].
  - intros [Hy [Hx Hl]]. apply Forall_cons in Hy as [Hyx Hy].
    split; [|done]. constructor; [by apply far_sym|done].
  - auto.
Qed.

Lemma separated_snoc (l : list Experiment) (x : Experiment) :
  separated l -> Forall (fun e => far e x) l -> separated (l ++ [x]).
Proof.
  induction l as [|e l IH]; simpl.
  - by repeat constructor.
  - intros [He Hl] Hx. apply Forall_cons in Hx as [Hex Hx].
    split; [|by apply IH]. apply Forall_app. split; [done|by constructor].
Qed.

Lemma separated_alter (f : Experiment -> Experiment) (i : nat)
    (l : list Experiment) :
  (forall e, e_user_id (f e) = e_user_id e /\ e_cohort (f e) = e_cohort e /\
             e_created_at (f e) = e_created_at e) ->
  separated l -> separated (alter f i l).
Proof.
  intros Hf. revert i. induction l as [|e l IH]; intros i; [done|].
  destruct i as [|i]; simpl; intros [He Hl].
  - split; [|done]. eapply Forall_impl; [exact He|].
    intros b Hb. unfold far in *. destruct (Hf e) as (-> & -> & ->). exact Hb.
  - split; [|by apply IH]. apply Forall_alter; [done|].
    intros b _ Hb. unfold far in *. destruct (Hf b) as (-> & -> & ->). exact Hb.
Qed.

Lemma separated_lookup (l : list Experiment) (i j : nat) (a b : Experiment) :
  separated l -> (i < j)%nat -> l !! i = Some a -> l !! j = Some b -> far a b.
Proof.
  revert i j. induction l as [|e l IH]; intros i j Hs Hij Ha Hb; [done|].
  destruct Hs as [He Hl]. destruct j as [|j]; [lia|]. simpl in Hb.
  destruct i as [|i].
  - injection Ha as ->. rewrite Forall_forall in He. apply He.
    by eapply list_elem_of_lookup_2.
  - simpl in Ha. apply (IH i j); [done|lia|done..].
Qed.

Section Dedup.

Variable env : Env.
Hypothesis draws : random_ok env.
Hypothesis monotone : clock_monotone env.

Lemma keeps_dedup_refl w : keeps_dedup env w w.
Proof. by split. Qed.

Lemma keeps_dedup_trans a b c :
  keeps_dedup env a b -> keeps_dedup env b c -> keeps_dedup env a c.
Proof. intros [H1 L1] [H2 L2]. split; [auto|lia]. Qed.

(** A step that leaves the stored experiments alone keeps the
    invariant, as long as the clock counter does not go back. *)
Lemma keeps_dedup_frame w w' :
  experiments (data w') = experiments (data w) ->
  (n_clock w <= n_clock w')%nat -> keeps_dedup env w w'.
Proof.
  intros He Hc. split; [|done]. intros [Hs Hb]. split; rewrite He; [done|].
  eapply Forall_impl; [exact Hb|]. intros e H m Hm. apply H. lia.
Qed.

Lemma dedup_alter (f : Experiment -> Experiment) (i : nat) :
  (forall e, e_user_id (f e) = e_user_id e /\ e_cohort (f e) = e_cohort e /\
             e_created_at (f e) = e_created_at e) ->
  preserves (keeps_dedup env) (modify_db (with_experiments (alter f i))).
Proof.
  intros Hf w. split; [|done]. intros [H1 H2]. split; simpl.
  - by apply separated_alter.
  - apply Forall_alter; [done|]. intros e _ He m Hm.
    destruct (Hf e) as (_ & _ & ->). by apply He.
Qed.

Lemma dedup_sort (before : Experiment -> Experiment -> bool) :
  preserves (keeps_dedup env) (modify_db (with_experiments (js_sort before))).
Proof.
  intros w. split; [|done]. intros [H1 H2]. split; simpl.
  - eapply separated_perm; [|exact H1]. symmetry. apply js_sort_perm.
  - by rewrite js_sort_perm.
Qed.

Lemma dedup_Date_now : preserves (keeps_dedup env) (Date_now env).
Proof. intros w. apply keeps_dedup_frame; simpl; [done|lia]. Qed.

Lemma dedup_axios_post url : preserves (keeps_dedup env) (axios_post env url).
Proof. intros w. by apply keeps_dedup_frame. Qed.

Lemma dedup_uuidv4 : preserves (keeps_dedup env) (uuidv4 env).
Proof. intros w. by apply keeps_dedup_frame. Qed.

Lemma dedup_console_log l : preserves (keeps_dedup env) (console_log l).
Proof. intros w. by apply keeps_dedup_frame. Qed.

Lemma dedup_modify_journey f :
  preserves (keeps_dedup env) (modify_db (with_user_journey f)).
Proof. intros w. by apply keeps_dedup_frame. Qed.

Lemma dedup_modify_stats f :
  preserves (keeps_dedup env) (modify_db (with_combo_stats f)).
Proof. intros w. by apply keeps_dedup_frame. Qed.

Lemma dedup_modify_scheduled f :
  preserves (keeps_dedup env) (modify_db (with_scheduled_messages f)).
Proof. intros w. by apply keeps_dedup_frame. Qed.

#[local] Hint Resolve dedup_Date_now dedup_axios_post dedup_uuidv4
  dedup_console_log dedup_modify_journey dedup_modify_stats
  dedup_modify_scheduled : dedup.

Ltac dedup_go :=
  repeat first
    [ solve [auto with dedup]
    | apply (preserves_ret (keeps_dedup env) keeps_dedup_refl)
    | apply (preserves_throw (keeps_dedup env) keeps_dedup_refl)
    | apply (preserves_get_db (keeps_dedup env) keeps_dedup_refl)
    | apply (preserves_bind (keeps_dedup env) keeps_dedup_trans); [|intros ?]
    | apply (preserves_try_catch (keeps_dedup env) keeps_dedup_trans);
      [|intros ?]
    | apply (preserves_for_of (keeps_dedup env) keeps_dedup_refl
               keeps_dedup_trans); intros ?
    | apply dedup_alter; intros ?; by repeat split
    | apply dedup_sort
    | match goal with
      | |- preserves _ (match ?x with _ => _ end) => destruct x
      end ].

Lemma dedup_sendViaCleverTap u m c e :
  preserves (keeps_dedup env) (sendViaCleverTap env u m c e).
Proof. unfold sendViaCleverTap. dedup_go. Qed.

Lemma dedup_updateComboStats key experiment converted :
  preserves (keeps_dedup env) (updateComboStats env key experiment converted).
Proof. unfold updateComboStats. dedup_go. Qed.

(** The dedup check is what keeps new experiments an hour away from the
    stored ones of the same user and cohort. *)
Lemma dedup_createExperiment userId cohort attrs :
  preserves (keeps_dedup env) (createExperiment env userId cohort attrs).
Proof.
  intros w.
  destruct (list_find
              (is_recent userId cohort (clock env (n_clock w) - 60 * 60 * 1000))
              (experiments (data w))) as [[k recent]|] eqn:Hfind.
  - rewrite (createExperiment_existing env userId cohort attrs w k recent Hfind).
    apply keeps_dedup_frame; simpl; [done|lia].
  - destruct (createExperiment_fresh env userId cohort attrs w draws Hfind)
      as (combo & message & sendAt & smId & w' & -> & _ & Hexp & _ & _ & _ & Hn).
    cbn [snd]. split; [|lia]. intros [Hsep Hbound].
    apply list_find_None in Hfind. split; rewrite Hexp.
    + apply separated_snoc; [done|].
      rewrite Forall_forall in Hfind. apply Forall_forall. intros e Hin Hu Hc.
      left. simpl in *.
      assert (e_created_at e <= clock env (n_clock w) - 60 * 60 * 1000).
      { destruct (Z.le_gt_cases (e_created_at e)
                    (clock env (n_clock w) - 60 * 60 * 1000)); [done|].
        exfalso. apply (Hfind e Hin). repeat split; [done..|lia]. }
      pose proof (monotone (n_clock w) (S (n_clock w)) ltac:(lia)). lia.
    + apply Forall_app. split.
      * eapply Forall_impl; [exact Hbound|]. intros e H m Hm. apply H. lia.
      * constructor; [|constructor]. intros m Hm. simpl.
        apply monotone. lia.
Qed.

#[local] Hint Resolve dedup_sendViaCleverTap dedup_updateComboStats
  dedup_createExperiment : dedup.

Lemma dedup_checkForConversion userId eventType :
  preserves (keeps_dedup env) (checkForConversion env userId eventType).
Proof. unfold checkForConversion. dedup_go. Qed.

#[local] Hint Resolve dedup_checkForConversion : dedup.

Lemma dedup_observeEvent userId eventType properties :
  preserves (keeps_dedup env) (observeEvent env userId eventType properties).
Proof. unfold observeEvent. cbv zeta. dedup_go. Qed.

#[local] Hint Resolve dedup_observeEvent : dedup.

Lemma dedup_webhook_loop events processed :
  preserves (keeps_dedup env) (webhook_loop env events processed).
Proof.
  revert processed. induction events as [|event events IH]; intros n; simpl.
  - apply (preserves_ret (keeps_dedup env) keeps_dedup_refl).
  - destruct (event_user event); [|apply IH].
    apply (preserves_bind (keeps_dedup env) keeps_dedup_trans);
      [auto with dedup | intros ?; apply IH].
Qed.

Lemma dedup_sweepJourney p : preserves (keeps_dedup env) (sweepJourney env p).
Proof. unfold sweepJourney. cbv zeta. dedup_go. Qed.

Lemma dedup_dispatchMessage p :
  preserves (keeps_dedup env) (dispatchMessage env p).
Proof. unfold dispatchMessage. cbv zeta. dedup_go. Qed.

#[local] Hint Resolve dedup_sweepJourney dedup_dispatchMessage : dedup.

Lemma dedup_run_op op : preserves (keeps_dedup env) (fun w => (Ok tt, run_op env op w)).
Proof.
  intros w. cbn [snd]. destruct op; unfold run_op.
  - apply dedup_webhook_loop.
  - unfold deadlineSweepCron.
    match goal with |- keeps_dedup env w (?m w).2 =>
      revert w; change (preserves (keeps_dedup env) m) end.
    dedup_go.
  - unfold deliveryDispatcherCron.
    match goal with |- keeps_dedup env w (?m w).2 =>
      revert w; change (preserves (keeps_dedup env) m) end.
    dedup_go.
  - unfold apiTrigger.
    match goal with |- keeps_dedup env w (?m w).2 =>
      revert w; change (preserves (keeps_dedup env) m) end.
    dedup_go.
  - unfold apiExperiments. cbv zeta.
    match goal with |- keeps_dedup env w (?m w).2 =>
      revert w; change (preserves (keeps_dedup env) m) end.
    dedup_go.
Qed.

Lemma dedup_run_ops ops w : keeps_dedup env w (run_ops env ops w).
Proof.
  revert w. induction ops as [|op ops IH]; intros w; simpl.
  - apply keeps_dedup_refl.
  - eapply keeps_dedup_trans; [apply (dedup_run_op op w) | apply IH].
Qed.

(** Under the invariant, the recent experiment of a user and cohort is
    unique, so the dedup check returns exactly it. *)
Lemma createExperiment_returns_the_recent userId cohort attrs w e :
  dedup_inv env w ->
  e ∈ experiments (data w) ->
  is_recent userId cohort (clock env (n_clock w) - 60 * 60 * 1000) e ->
  (createExperiment env userId cohort attrs w).1 = Ok (Existing e).
Proof.
  intros [Hsep Hbound] Hin Hrecent.
  destruct (list_find_elem_of _ _ e Hin Hrecent) as [[k recent] Hfind].
  rewrite (createExperiment_existing env userId cohort attrs w k recent Hfind).
  cbn [fst]. do 2 f_equal.
  apply list_find_Some in Hfind as (Hk & Hr & _).
  apply list_elem_of_lookup_1 in Hin as [j Hj].
  destruct (decide (k = j)) as [->|Hne]; [congruence|].
  exfalso. rewrite Forall_forall in Hbound.
  pose proof (Hbound e (list_elem_of_lookup_2 _ _ _ Hj) (n_clock w) ltac:(lia)).
  pose proof (Hbound recent (list_elem_of_lookup_2 _ _ _ Hk) (n_clock w)
                ltac:(lia)).
  destruct Hrecent as (Hu & Hc & Ht). destruct Hr as (Hu' & Hc' & Ht').
  assert (Hfar : far recent e).
  { destruct (Nat.lt_total k j) as [Hlt|[->|Hlt]]; [|done|].
    - exact (separated_lookup _ k j recent e Hsep Hlt Hk Hj).
    - apply far_sym. exact (separated_lookup _ j k e recent Hsep Hlt Hj Hk). }
  destruct Hfar; [congruence..|lia|lia].
Qed.

End Dedup.


Lemma quiet_env_draws : random_ok Sample.quiet_env.
Proof. intros k. split; unfold Qle, Qlt; simpl; lia. Qed.


(** ** Tone renderings *)

(** The composed message is [wrap_tone] of the tone, around a template
    and an offer text that do not depend on the tone. *)
Lemma generateMessage_wraps (env : Env) (combo : Combo) (attrs : Attributes)
    (w : World) :
  exists template offerMsg w',
    forall t,
      generateMessage env (with_tone t combo) attrs w
      = (Ok (wrap_tone t template offerMsg), w').
Proof.
  unfold generateMessage, randomFrom, bind, Math_random, ret. cbv zeta.
  world_cbn. cbn [with_tone lever offer tone].
  eexists _, _, _. intros t. reflexivity.
Qed.



(** ** The statistics update on conversion *)

Lemma updateComboStats_existing (env : Env) (key : string)
    (experiment : Experiment) (converted : bool) (w : World) (i : nat)
    (s : ComboStat) :
  list_find (fun s => s_combo_key s = key) (combo_stats (data w)) = Some (i, s) ->
  combo_stats (data (updateComboStats env key experiment converted w).2)
  = alter (bump_stat converted (clock env (n_clock w))) i (combo_stats (data w)).
Proof.
  intros Hfind. unfold updateComboStats.
  unfold bind at 1. cbn [get_db]. rewrite Hfind. reflexivity.
Qed.

(** C1 (what the code does).  One message is delivered and its user
    converts: the resolver marks the experiment converted and raises
    converted_count from 0 to 1, and it raises sent_count as well, from 1
    to 2, although only one message was ever sent. *)
Theorem conversion_counts_a_second_send :
  e_status <$> experiments (data Conversion.delivered_once) = [StSent] /\
  (fun s => (s_sent_count s, s_converted_count s))
    <$> combo_stats (data Conversion.delivered_once) = [(1, 0)] /\
  e_status <$> experiments (data Conversion.converted_once) = [StConverted] /\
  length (filter (fun m => sm_status m = MsgSent)
            (scheduled_messages (data Conversion.converted_once))) = 1%nat /\
  (fun s => (s_sent_count s, s_converted_count s))
    <$> combo_stats (data Conversion.converted_once) = [(2, 1)].
Proof. vm_compute. repeat split; reflexivity. Qed.

(** ** The dispatcher and a failing adapter *)

(** The adapter reports a failure through its result; it never throws. *)
Lemma sendViaCleverTap_returns (env : Env) (userId message channel id : string) :
  returns (sendViaCleverTap env userId message channel id).
Proof.
  unfold sendViaCleverTap. destruct (negb (credentials env)).
  - apply returns_bind; [apply returns_console_log|intros _]. apply returns_ret.
  - apply returns_try_catch. intros e.
    apply returns_bind; [apply returns_console_log|intros _]. apply returns_ret.
Qed.

Lemma sendViaCleverTap_failure (env : Env) (userId message channel id : string)
    (w : World) :
  credentials env = true -> post_fails env (n_post w) = true ->
  (sendViaCleverTap env userId message channel id w).1
  = Ok {| success := false; mock := false |}.
Proof.
  intros Hc Hp. unfold sendViaCleverTap. rewrite Hc. cbn [negb].
  unfold try_catch, bind, axios_post. rewrite Hp. reflexivity.
Qed.

(** Whatever the adapter answers, a due message whose experiment exists
    is marked sent. *)
Lemma dispatchMessage_marks_sent (env : Env) (i : nat) (msg : ScheduledMessage)
    (w : World) (k : nat) (experiment : Experiment) :
  list_find (fun e => e_id e = sm_experiment_id msg) (experiments (data w))
    = Some (k, experiment) ->
  let after := (dispatchMessage env (i, msg) w).2 in
  scheduled_messages (data after)
    = alter (set_msg_status MsgSent) i (scheduled_messages (data w)) /\
  experiments (data after)
    = alter (set_sent (clock env (n_clock w))) k (experiments (data w)).
Proof.
  intros Hfind after. subst after.
  remember (dispatchMessage env (i, msg) w) as res eqn:Hres.
  unfold dispatchMessage in Hres. cbv zeta in Hres.
  unfold bind at 1 in Hres. cbn [get_db fst snd] in Hres. rewrite Hfind in Hres.
  unfold try_catch in Hres. unfold bind at 1 in Hres.
  assert (Hframe : data (sendViaCleverTap env (sm_user_id msg)
                     (e_message experiment) (e_channel experiment)
                     (sm_experiment_id msg) w).2 = data w /\
                   n_clock (sendViaCleverTap env (sm_user_id msg)
                     (e_message experiment) (e_channel experiment)
                     (sm_experiment_id msg) w).2 = n_clock w).
  { unfold sendViaCleverTap. destruct (negb (credentials env)); [done|].
    unfold try_catch, bind, axios_post.
    destruct (post_fails env (n_post w)); done. }
  destruct (sendViaCleverTap_returns env (sm_user_id msg) (e_message experiment)
              (e_channel experiment) (sm_experiment_id msg) w) as [r Hr].
  destruct (sendViaCleverTap env (sm_user_id msg) (e_message experiment)
              (e_channel experiment) (sm_experiment_id msg) w) as [sr w1].
  cbn [fst snd] in Hr, Hframe. subst sr. destruct Hframe as [Hd Hc].
  unfold bind at 1 in Hres. cbn [modify_db] in Hres.
  unfold bind at 1 in Hres. cbn [Date_now] in Hres.
  unfold bind at 1 in Hres. cbn [modify_db] in Hres.
  unfold updateComboStats in Hres.
  unfold bind at 1 in Hres. unfold bind at 1 in Hres. cbn [get_db] in Hres.
  cbn [data n_clock n_random n_uuid n_post console fst snd] in Hres.
  match type of Hres with context [list_find ?P (combo_stats ?d)] =>
    destruct (list_find P (combo_stats d)) as [[n s]|] end;
    unfold bind, Date_now, modify_db, console_log in Hres;
    cbn [data n_clock n_random n_uuid n_post console fst snd] in Hres;
    subst res; cbn [data snd scheduled_messages experiments with_combo_stats
                    with_experiments with_scheduled_messages];
    rewrite Hd, Hc; done.
Qed.

(** C2 (what the code does).  Credentials are configured and CleverTap
    rejects the request, so the adapter returns a failure; the dispatcher
    run nevertheless marks the scheduled message sent, sets the
    experiment's status and sent_at, and counts the send. *)
Theorem dispatcher_marks_failed_send_as_sent :
  let env := Sample.failing_env in
  let after := (deliveryDispatcherCron env Sample.due).2 in
  (sendViaCleverTap env "u1" "Hey!" "sms" "e1" Sample.due).1
    = Ok {| success := false; mock := false |} /\
  console after = [LCleverTapError; LSent "e1" "u1" "sms"] /\
  sm_status <$> scheduled_messages (data Sample.due) = [MsgPending] /\
  sm_status <$> scheduled_messages (data after) = [MsgSent] /\
  e_status <$> experiments (data after) = [StSent] /\
  e_sent_at <$> experiments (data after) = [Some 1000001] /\
  s_sent_count <$> combo_stats (data Sample.due) = [7] /\
  s_sent_count <$> combo_stats (data after) = [8].
Proof. vm_compute. repeat split; reflexivity. Qed.

(** * Further properties of the handlers *)

(** ** Selection outside the exploit branch *)

Lemma intelligence_nonempty (cohort : string) :
  let intel := default checkout_abandoners (cohortIntelligence !! cohort) in
  i_timing intel <> [] /\ i_channel intel <> [] /\ i_lever intel <> [] /\
  i_offer intel <> [].
Proof.
  destruct (cohortIntelligence !! cohort) as [x|] eqn:E; simpl.
  - apply cohortIntelligence_cases in E as [->|[->| ->]]; by repeat split.
  - by repeat split.
Qed.

Lemma random_default_in (env : Env) (arr : list string) (k : nat) :
  random_ok env -> arr <> [] ->
  default "undefined"%string
    (js_index arr (floor_times (random env k) (Z.of_nat (length arr)))) ∈ arr.
Proof.
  intros Hd Hne. destruct (Hd k) as [H0 H1].
  destruct (random_pick arr (random env k) H0 H1 Hne) as (x & -> & Hx).
  exact Hx.
Qed.




(** ** The delivery adapter *)

(** X3.  [sendViaCleverTap] never throws and never touches the document.
    Without credentials it makes no request and answers
    [{success: true, mock: true}]; with credentials it makes exactly one
    request and its [success] says whether that request went through. *)
Theorem adapter_contract (env : Env) (userId message channel id : string)
    (w : World) :
  let run := sendViaCleverTap env userId message channel id w in
  data run.2 = data w /\ n_clock run.2 = n_clock w /\
  (credentials env = false ->
   run.1 = Ok {| success := true; mock := true |} /\
   n_post run.2 = n_post w /\
   console run.2 = console w ++ [LMock userId message channel]) /\
  (credentials env = true ->
   run.1 = Ok {| success := negb (post_fails env (n_post w)); mock := false |} /\
   n_post run.2 = S (n_post w) /\
   console run.2 =
     console w ++ (if post_fails env (n_post w) then [LCleverTapError] else [])).
Proof.
  cbv zeta. unfold sendViaCleverTap.
  destruct (credentials env); cbn [negb].
  - unfold try_catch, bind, axios_post, console_log, ret.
    destruct (post_fails env (n_post w)); world_cbn;
      (split; [reflexivity|]); (split; [reflexivity|]);
      (split; [discriminate|]); intros _; rewrite ?app_nil_r; by repeat split.
  - unfold bind, console_log, ret. world_cbn.
    split; [reflexivity|]. split; [reflexivity|]. split; [|discriminate].
    intros _. by repeat split.
Qed.

Lemma adapter_contract_witness :
  (sendViaCleverTap Sample.failing_env "u" "m" "sms" "e" initial_world).1
  = Ok {| success := false; mock := false |} /\
  (sendViaCleverTap Sample.quiet_env "u" "m" "sms" "e" initial_world).1
  = Ok {| success := true; mock := true |}.
Proof.
  split.
  - exact (proj1 (proj2 (proj2 (proj2
             (adapter_contract Sample.failing_env "u" "m" "sms" "e"
                initial_world))) eq_refl)).
  - exact (proj1 (proj1 (proj2 (proj2
             (adapter_contract Sample.quiet_env "u" "m" "sms" "e"
                initial_world))) eq_refl)).
Defined.

(** ** Steps that leave the document alone *)

Section Frame.

Variable R : World -> World -> Prop.
Hypothesis R_frame :
  forall w w', data w' = data w -> (n_clock w <= n_clock w')%nat ->
               (n_uuid w <= n_uuid w')%nat -> R w w'.

Lemma frame_Date_now env : preserves R (Date_now env).
Proof. intros w. apply R_frame; simpl; [done|lia|lia]. Qed.

Lemma frame_Math_random env : preserves R (Math_random env).
Proof. intros w. by apply R_frame. Qed.

Lemma frame_uuidv4 env : preserves R (uuidv4 env).
Proof. intros w. apply R_frame; simpl; [done|lia|lia]. Qed.

Lemma frame_axios_post env url : preserves R (axios_post env url).
Proof. intros w. by apply R_frame. Qed.

Lemma frame_console_log l : preserves R (console_log l).
Proof. intros w. by apply R_frame. Qed.

Lemma frame_get_db : preserves R get_db.
Proof. intros w. by apply R_frame. Qed.

Lemma frame_ret {A} (a : A) : preserves R (ret a).
Proof. intros w. by apply R_frame. Qed.

Lemma frame_throw {A} (e : Exn) : preserves R (@throw A e).
Proof. intros w. by apply R_frame. Qed.

End Frame.

(** Steps through a program: binds, branches and loops by the generic
    rules, reads of the outside world by the frame rule of the relation,
    everything else by the hints of the database. *)
Tactic Notation "preserves_go" constr(frame) constr(trans) ident(db) :=
  repeat first
    [ solve [auto with db]
    | apply (frame_ret _ frame)
    | apply (frame_throw _ frame)
    | apply (frame_get_db _ frame)
    | apply (frame_Date_now _ frame)
    | apply (frame_Math_random _ frame)
    | apply (frame_uuidv4 _ frame)
    | apply (frame_axios_post _ frame)
    | apply (frame_console_log _ frame)
    | apply (preserves_bind _ trans); [|intros ?]
    | apply (preserves_try_catch _ trans); [|intros ?]
    | apply (preserves_for_of _ (fun w => frame w w eq_refl (le_n _) (le_n _))
               trans); intros ?
    | match goal with
      | |- preserves _ (match ?x with _ => _ end) => destruct x
      end ].

(** ** The statistics are indexed by combination *)

Create HintDb index.

Lemma keeps_index_frame w w' :
  data w' = data w -> (n_clock w <= n_clock w')%nat ->
  (n_uuid w <= n_uuid w')%nat -> keeps_index w w'.
Proof. intros Hd _ _. unfold keeps_index. by rewrite Hd. Qed.

Lemma keeps_index_trans a b c :
  keeps_index a b -> keeps_index b c -> keeps_index a c.
Proof. unfold keeps_index. auto. Qed.

Lemma index_modify_other (f : DB -> DB) :
  (forall d, combo_stats (f d) = combo_stats d) ->
  preserves keeps_index (modify_db f).
Proof.
  intros Hf w. unfold keeps_index, stats_indexed. simpl. by rewrite Hf.
Qed.

Lemma index_modify_experiments f :
  preserves keeps_index (modify_db (with_experiments f)).
Proof. by apply index_modify_other. Qed.

Lemma index_modify_scheduled f :
  preserves keeps_index (modify_db (with_scheduled_messages f)).
Proof. by apply index_modify_other. Qed.

Lemma index_modify_journey f :
  preserves keeps_index (modify_db (with_user_journey f)).
Proof. by apply index_modify_other. Qed.

#[local] Hint Resolve index_modify_experiments index_modify_scheduled
  index_modify_journey : index.

Lemma fmap_alter_same {A B} (g : A -> B) (f : A -> A) (i : nat) (l : list A) :
  (forall x, g (f x) = g x) -> g <$> alter f i l = g <$> l.
Proof.
  intros Hf. rewrite (list_fmap_alter g f id).
  - by rewrite list_alter_id.
  - apply Forall_forall. intros x _. apply Hf.
Qed.

(** A row is added only under the key of the experiment's combination,
    and only when that key is not there yet. *)
Lemma index_updateComboStats env (experiment : Experiment) converted :
  preserves keeps_index
    (updateComboStats env
       (comboKey (e_timing experiment) (e_channel experiment)
          (e_lever experiment) (e_offer experiment))
       experiment converted).
Proof.
  intros w. unfold updateComboStats, bind. cbn [get_db fst snd].
  destruct (list_find _ _) as [[i s]|] eqn:Hfind;
    cbn [Date_now modify_db fst snd data]; intros [Hk Hn]; split;
    cbn [data combo_stats with_combo_stats].
  - apply Forall_alter; [done|]. intros x _ Hx. exact Hx.
  - by rewrite fmap_alter_same.
  - apply Forall_app. split; [done|]. by repeat constructor.
  - rewrite fmap_app. apply NoDup_app. split; [done|]. split.
    + intros k Hin Hk'. apply list_elem_of_singleton in Hk'. subst k.
      apply list_elem_of_fmap in Hin as (s & Hs & Hin).
      apply list_find_None in Hfind. rewrite Forall_forall in Hfind.
      by apply (Hfind s Hin).
    + apply NoDup_singleton.
Qed.

#[local] Hint Resolve index_updateComboStats : index.

Section Index.

Variable env : Env.

Lemma index_createExperiment userId cohort attrs :
  preserves keeps_index (createExperiment env userId cohort attrs).
Proof.
  unfold createExperiment, selectCombo, generateMessage, sendAtFor,
    getNextTime, randomFrom. cbv zeta.
  preserves_go keeps_index_frame keeps_index_trans index.
Qed.

#[local] Hint Resolve index_createExperiment : index.

Lemma index_webhook_loop events processed :
  preserves keeps_index (webhook_loop env events processed).
Proof.
  revert processed. induction events as [|event events IH]; intros n; simpl.
  - apply (frame_ret _ keeps_index_frame).
  - destruct (event_user event); [|apply IH].
    apply (preserves_bind _ keeps_index_trans); [|intros ?; apply IH].
    unfold observeEvent, checkForConversion. cbv zeta.
    preserves_go keeps_index_frame keeps_index_trans index.
Qed.

Lemma index_run_op op w : keeps_index w (run_op env op w).
Proof.
  destruct op; unfold run_op.
  - apply index_webhook_loop.
  - revert w. change (preserves keeps_index (deadlineSweepCron env)).
    unfold deadlineSweepCron, sweepJourney. cbv zeta.
    preserves_go keeps_index_frame keeps_index_trans index.
  - revert w. change (preserves keeps_index (deliveryDispatcherCron env)).
    unfold deliveryDispatcherCron, dispatchMessage, sendViaCleverTap. cbv zeta.
    preserves_go keeps_index_frame keeps_index_trans index.
  - revert w. change (preserves keeps_index (apiTrigger env user_id cohort
                                               attributes)).
    unfold apiTrigger.
    preserves_go keeps_index_frame keeps_index_trans index.
  - revert w. change (preserves keeps_index (apiExperiments limit)).
    unfold apiExperiments. cbv zeta.
    preserves_go keeps_index_frame keeps_index_trans index.
Qed.

End Index.

(** X4.  In every state reachable from the empty document each
    statistics row is keyed by its own timing|channel|lever|offer, and no
    key occurs twice; any run of handlers keeps a document in that
    shape. *)
Theorem stats_are_indexed_by_combination (env : Env) (ops : list Op) :
  (forall w,
     stats_indexed (data w) -> stats_indexed (data (run_ops env ops w))) /\
  Forall (fun s => s_combo_key s =
                   comboKey (s_timing s) (s_channel s) (s_lever s) (s_offer s))
    (combo_stats (data (run_ops env ops initial_world))) /\
  NoDup (s_combo_key <$> combo_stats (data (run_ops env ops initial_world))).
Proof.
  assert (H : forall w, stats_indexed (data w) ->
                        stats_indexed (data (run_ops env ops w))).
  { induction ops as [|op ops IH]; intros w Hw; simpl; [done|].
    apply IH. by apply (index_run_op env op w). }
  split; [exact H|]. apply (H initial_world). split; [constructor|].
  simpl. apply NoDup_nil_2.
Qed.

Lemma stats_are_indexed_by_combination_witness :
  stats_indexed (data Ranking.after_five_sends).
Proof.
  apply (proj1 (stats_are_indexed_by_combination Ranking.half_env _)
           initial_world).
  split; [constructor|]. simpl. apply NoDup_nil_2.
Defined.

(** ** Looking a row up after an update *)

Lemma list_find_alter_other {A} (P : A -> Prop) `{!forall x, Decision (P x)}
    (f : A -> A) (i : nat) (l : list A) :
  (forall x, P (f x) <-> P x) ->
  (forall x, l !! i = Some x -> ~ P x) ->
  list_find P (alter f i l) = list_find P l.
Proof.
  intros Hf. revert i. induction l as [|y l IH]; intros i Hi; [done|].
  destruct i as [|i]; simpl.
  - assert (~ P y) by (by apply Hi).
    assert (~ P (f y)) by (by rewrite Hf).
    by rewrite !decide_False by done.
  - destruct (decide (P y)); [done|]. f_equal. apply IH.
    intros x Hx. by apply Hi.
Qed.

(** X5.  After [updateComboStats(key, experiment, converted)] a lookup
    of [key] finds the updated row: the old row with one more send (and
    one more conversion if [converted]) at its old position, or, when the
    key was not there, a new last row with the experiment's combination,
    one send and zero or one conversion.  Lookups of every other key
    answer as before, and nothing but the statistics changes. *)
Theorem updateComboStats_lookup (env : Env) (key : string)
    (experiment : Experiment) (converted : bool) (w : World) :
  let find k d := list_find (fun s => s_combo_key s = k) (combo_stats d) in
  let after := data (updateComboStats env key experiment converted w).2 in
  let t := clock env (n_clock w) in
  (forall i s,
     find key (data w) = Some (i, s) ->
     find key after = Some (i, bump_stat converted t s)) /\
  (find key (data w) = None ->
   find key after =
   Some (length (combo_stats (data w)),
         {| s_combo_key := key; s_timing := e_timing experiment;
            s_channel := e_channel experiment; s_lever := e_lever experiment;
            s_offer := e_offer experiment; s_sent_count := 1;
            s_converted_count := if converted then 1 else 0;
            s_last_updated := t |})) /\
  (forall key', key' <> key -> find key' after = find key' (data w)) /\
  experiments after = experiments (data w) /\
  scheduled_messages after = scheduled_messages (data w) /\
  user_journey after = user_journey (data w).
Proof.
  cbv beta zeta.
  remember (updateComboStats env key experiment converted w) as res eqn:Hres.
  unfold updateComboStats, bind in Hres. cbn [get_db fst snd] in Hres.
  destruct (list_find (fun s => s_combo_key s = key) (combo_stats (data w)))
    as [[i s]|] eqn:Hfind;
    unfold Date_now, modify_db in Hres;
    cbn [fst snd data n_clock] in Hres; subst res;
    cbn [snd data combo_stats experiments scheduled_messages user_journey
         with_combo_stats].
  - apply list_find_Some in Hfind as (Hi & Hkey & Hbefore).
    split; [|split; [done|split; [|done]]].
    + intros i' s' [= <- <-]. apply list_find_Some. split; [|split].
      * by rewrite list_lookup_alter_eq, Hi.
      * exact Hkey.
      * intros j y Hj Hlt. rewrite list_lookup_alter_ne in Hj by lia.
        by apply (Hbefore j).
    + intros key' Hne. apply list_find_alter_other; [done|].
      intros x Hx Hk. rewrite Hi in Hx. injection Hx as <-. congruence.
  - split; [done|]. split; [|split; [|done]].
    + intros _. rewrite list_find_app_r by done. simpl.
      rewrite decide_True by done. simpl. done.
    + intros key' Hne.
      destruct (list_find (fun s => s_combo_key s = key') (combo_stats (data w)))
        as [[j y]|] eqn:Hother.
      * by apply list_find_app_l.
      * apply list_find_app_None. split; [done|]. simpl.
        by rewrite decide_False by (simpl; congruence).
Qed.

Lemma updateComboStats_lookup_witness :
  list_find (fun s => s_combo_key s = "5min|sms|reciprocity|paytm_cashback"%string)
    (combo_stats
       (data (updateComboStats Sample.quiet_env
                "5min|sms|reciprocity|paytm_cashback" Sample.exp1 false
                Sample.due).2))
  = Some (0%nat, bump_stat false 1000000 (Sample.stat1 7 2)).
Proof.
  apply (proj1 (updateComboStats_lookup Sample.quiet_env
                  "5min|sms|reciprocity|paytm_cashback" Sample.exp1 false
                  Sample.due)).
  vm_compute. reflexivity.
Defined.

(** ** The head of a sorted array *)

Section SortedHead.

Context {A : Type} (key : A -> Z).

Let newer (a b : A) : bool := key b - key a <? 0.

Lemma head_sort_insert (x : A) (l : list A) :
  head (sort_insert newer x l) =
  match head l with
  | Some y => if newer y x then Some y else Some x
  | None => Some x
  end.
Proof. destruct l as [|y l]; simpl; [done|]. by destruct (newer y x). Qed.

(** Sorting newest first puts the leftmost maximum in front. *)
Lemma head_js_sort (xs : list A) (m : A) :
  head (js_sort newer xs) = Some m ->
  exists p : nat,
    xs !! p = Some m /\
    (forall (q : nat) y, xs !! q = Some y -> (q < p)%nat -> key y < key m) /\
    (forall (q : nat) y, xs !! q = Some y -> (p < q)%nat -> key y <= key m).
Proof.
  revert m. induction xs as [|x xs IH]; intros m; simpl; [done|].
  rewrite head_sort_insert.
  destruct (head (js_sort newer xs)) as [h|] eqn:Hh.
  - destruct (IH h eq_refl) as (p & Hp & Hlt & Hle).
    unfold newer at 1. destruct (Z.ltb_spec (key x - key h) 0) as [Hnew|Hold].
    + intros [= <-]. exists (S p). split; [done|]. split.
      * intros [|q] y Hy Hq; simpl in Hy.
        -- injection Hy as <-. lia.
        -- apply (Hlt q); [done|lia].
      * intros [|q] y Hy Hq; [lia|]. simpl in Hy. apply (Hle q); [done|lia].
    + intros [= <-]. exists 0%nat. split; [done|]. split; [intros; lia|].
      intros [|q] y Hy Hq; [lia|]. simpl in Hy.
      destruct (Nat.lt_total q p) as [Hqp|[->|Hqp]].
      * pose proof (Hlt q y Hy Hqp). lia.
      * rewrite Hp in Hy. injection Hy as <-. lia.
      * pose proof (Hle q y Hy Hqp). lia.
  - intros [= <-]. exists 0%nat. split; [done|]. split; [intros; lia|].
    intros [|q] y Hy Hq; [lia|]. simpl in Hy.
    apply head_None in Hh.
    assert (xs = []) as ->.
    { apply Permutation_nil_r. rewrite <- Hh. symmetry. apply js_sort_perm. }
    done.
Qed.

End SortedHead.

Lemma indexed_from_sorted {A} (P : nat * A -> Prop) `{!forall p, Decision (P p)}
    (k : nat) (l : list A) :
  StronglySorted (fun a b => (a.1 < b.1)%nat)
    (filter P (imap (fun i x => ((k + i)%nat, x)) l)) /\
  Forall (fun b => (k <= b.1)%nat)
    (filter P (imap (fun i x => ((k + i)%nat, x)) l)).
Proof.
  revert k. induction l as [|x l IH]; intros k; simpl.
  - split; constructor.
  - destruct (IH (S k)) as [Hs Hb].
    assert (Heq : imap ((fun i x => ((k + i)%nat, x)) ∘ S) l
                  = imap (fun i x => ((S k + i)%nat, x)) l).
    { apply imap_ext. intros i y _. simpl. f_equal. lia. }
    rewrite Heq. rewrite filter_cons.
    destruct (decide _).
    + split.
      * constructor; [done|]. eapply Forall_impl; [exact Hb|].
        intros b Hle. simpl in *. lia.
      * constructor; [simpl; lia|]. eapply Forall_impl; [exact Hb|].
        intros b Hle. simpl in *. lia.
    + split; [done|]. eapply Forall_impl; [exact Hb|].
      intros b Hle. simpl in *. lia.
Qed.

Lemma indexed_filter_sorted {A} (P : nat * A -> Prop)
    `{!forall p, Decision (P p)} (l : list A) :
  StronglySorted (fun a b => (a.1 < b.1)%nat) (filter P (indexed l)).
Proof. exact (proj1 (indexed_from_sorted P 0 l)). Qed.

(** ** The Conversion Resolver *)

Lemma recent_active_spec (userId : string) (l : list Experiment) :
  let active e :=
    e_user_id e = userId /\ (e_status e = StSent \/ e_status e = StOpened) in
  match recent_active userId l with
  | None => forall e, e ∈ l -> ~ active e
  | Some (i, e) =>
      l !! i = Some e /\ active e /\
      forall (j : nat) e',
        l !! j = Some e' -> active e' ->
        e_created_at e' <= e_created_at e /\
        (e_created_at e' = e_created_at e -> (i <= j)%nat)
  end.
Proof.
  intros active. unfold recent_active.
  set (P := fun p : nat * Experiment =>
              e_user_id p.2 = userId /\
              (e_status p.2 = StSent \/ e_status p.2 = StOpened)).
  set (xs := filter P (indexed l)).
  assert (Hin : forall j e', l !! j = Some e' -> active e' -> (j, e') ∈ xs).
  { intros j e' Hj Ha. apply list_elem_of_filter. split; [exact Ha|].
    by apply indexed_elem_of. }
  destruct (head (js_sort _ xs)) as [[i e]|] eqn:Hhead.
  - apply (head_js_sort (fun p : nat * Experiment => e_created_at p.2))
      in Hhead as (p & Hp & Hlt & Hle).
    pose proof (list_elem_of_lookup_2 _ _ _ Hp) as Hm.
    apply list_elem_of_filter in Hm as [Hact Hm].
    apply indexed_elem_of in Hm.
    split; [exact Hm|]. split; [exact Hact|].
    intros j e' Hj Ha.
    apply Hin in Hj; [|exact Ha].
    apply list_elem_of_lookup_1 in Hj as [q Hq].
    pose proof (indexed_filter_sorted P l) as Hsorted. fold xs in Hsorted.
    destruct (Nat.lt_total q p) as [Hqp|[->|Hqp]].
    + pose proof (Hlt q _ Hq Hqp) as H. simpl in H. split; lia.
    + rewrite Hp in Hq. injection Hq as <- <-. split; lia.
    + pose proof (Hle q _ Hq Hqp) as H. simpl in H. split; [lia|].
      intros _.
      pose proof (sorted_lookup_ge _ xs p q _ _ Hsorted Hqp Hp Hq) as Hij.
      simpl in Hij. lia.
  - apply head_None in Hhead.
    assert (Hnil : xs = []).
    { apply Permutation_nil_r. rewrite <- Hhead. symmetry. apply js_sort_perm. }
    intros e He Ha. apply list_elem_of_lookup_1 in He as [j Hj].
    pose proof (Hin j e Hj Ha) as Hx. rewrite Hnil in Hx.
    by apply elem_of_nil in Hx.
Qed.

Lemma set_checked_checked (j : Journey) :
  j_checked j = true -> set_checked true j = j.
Proof. destruct j. simpl. by intros ->. Qed.

Lemma mark_checked_lookup (userId eventType : string) (l : list Journey)
    (i : nat) (j : Journey) :
  l !! i = Some j ->
  mark_checked userId eventType l !! i =
  Some (if decide (j_user_id j = userId /\ j_event_type j = eventType)
        then set_checked true j else j).
Proof.
  intros Hi. unfold mark_checked. rewrite list_lookup_fmap, Hi. simpl. f_equal.
  destruct (j_checked j) eqn:Hc.
  - rewrite decide_False by (intros (_ & _ & ?); congruence).
    destruct (decide _); [by rewrite set_checked_checked|done].
  - destruct (decide (j_user_id j = userId /\ j_event_type j = eventType))
      as [[Hu Ht]|Hno].
    + by rewrite decide_True.
    + rewrite decide_False; [done|]. intros (Hu & Ht & _). by apply Hno.
Qed.

(** X6.  On [trial_activated] the resolver converts exactly one
    experiment: among the user's experiments with status sent or opened
    the one created last, and among several created at that same instant
    the first in store order.  Every other experiment and every scheduled
    message is left as it was.  When the user has no sent or opened
    experiment, experiments, statistics and console are unchanged. *)
Theorem conversion_resolves_latest_active (env : Env) (userId : string)
    (w : World) :
  let active e :=
    e_user_id e = userId /\ (e_status e = StSent \/ e_status e = StOpened) in
  let after := (checkForConversion env userId "trial_activated" w).2 in
  ((forall e, e ∈ experiments (data w) -> ~ active e) ->
   experiments (data after) = experiments (data w) /\
   combo_stats (data after) = combo_stats (data w) /\
   scheduled_messages (data after) = scheduled_messages (data w) /\
   console after = console w) /\
  (forall e, e ∈ experiments (data w) -> active e ->
   exists (i : nat) chosen,
     experiments (data w) !! i = Some chosen /\ active chosen /\
     (forall (j : nat) e',
        experiments (data w) !! j = Some e' -> active e' ->
        e_created_at e' <= e_created_at chosen /\
        (e_created_at e' = e_created_at chosen -> (i <= j)%nat)) /\
     experiments (data after)
       = alter (set_converted (clock env (n_clock w))) i (experiments (data w)) /\
     scheduled_messages (data after) = scheduled_messages (data w) /\
     console after = console w ++ [LConverted userId (e_id chosen)]).
Proof.
  intros active after. subst after.
  remember (checkForConversion env userId "trial_activated" w) as res eqn:Hres.
  unfold checkForConversion in Hres.
  rewrite decide_False in Hres by discriminate.
  rewrite decide_True in Hres by reflexivity.
  unfold bind at 1 in Hres. cbn [ret fst snd] in Hres.
  unfold bind at 1 in Hres. unfold modify_db at 1 in Hres.
  cbn [fst snd] in Hres. unfold bind at 1 in Hres.
  cbn [get_db data fst snd experiments with_user_journey] in Hres.
  pose proof (recent_active_spec userId (experiments (data w))) as Hspec.
  cbv zeta in Hspec. fold active in Hspec.
  destruct (recent_active userId (experiments (data w))) as [[i chosen]|].
  - destruct Hspec as (Hi & Hact & Hmax).
    unfold bind at 1 in Hres. cbn [Date_now fst snd n_clock] in Hres.
    unfold bind at 1 in Hres. unfold modify_db at 1 in Hres.
    cbn [fst snd data] in Hres. unfold bind at 1 in Hres.
    match type of Hres with context [updateComboStats env ?k ?e ?c ?wx] =>
      assert (Hupd : experiments (data (updateComboStats env k e c wx).2)
                       = experiments (data wx) /\
                     scheduled_messages (data (updateComboStats env k e c wx).2)
                       = scheduled_messages (data wx) /\
                     console (updateComboStats env k e c wx).2 = console wx /\
                     exists u, (updateComboStats env k e c wx).1 = Ok u);
      [unfold updateComboStats, bind; cbn [get_db fst snd];
       destruct (list_find _ _) as [[n s]|]; by repeat split; eauto|];
      destruct (updateComboStats env k e c wx) as [r wu]
    end.
    cbn [fst snd] in Hupd. destruct Hupd as (He & Hs & Hc & [u ->]).
    unfold console_log in Hres. cbn [fst snd] in Hres. subst res.
    cbn [snd data console] in *. split.
    + intros Hnone. exfalso.
      exact (Hnone chosen (list_elem_of_lookup_2 _ _ _ Hi) Hact).
    + intros _ _ _. exists i, chosen.
      split; [exact Hi|]. split; [exact Hact|]. split; [exact Hmax|].
      rewrite He, Hs, Hc. by repeat split.
  - cbn [ret] in Hres. subst res. cbn [snd data console]. split.
    + intros _. by repeat split.
    + intros e He Ha. exfalso. exact (Hspec e He Ha).
Qed.

Lemma conversion_resolves_latest_active_witness :
  exists (i : nat) chosen,
    experiments (data Conversion.delivered_once) !! i = Some chosen /\
    experiments (data (checkForConversion Ranking.half_env "a"
                         "trial_activated" Conversion.delivered_once).2)
    = alter (set_converted
               (clock Ranking.half_env (n_clock Conversion.delivered_once)))
        i (experiments (data Conversion.delivered_once)).
Proof.
  assert (Hex : exists e, experiments (data Conversion.delivered_once) !! 0%nat
                          = Some e) by (vm_compute; eauto).
  destruct Hex as [e He].
  destruct (proj2 (conversion_resolves_latest_active Ranking.half_env "a"
                     Conversion.delivered_once) e)
    as (i & chosen & Hi & _ & _ & Hexp & _).
  - by eapply list_elem_of_lookup_2.
  - revert He. vm_compute. intros [= <-]. split; [reflexivity|by left].
  - exists i, chosen. split; [exact Hi|exact Hexp].
Defined.

(** X7.  The conversion check does nothing at all for an event type other
    than [trial_initiated] and [trial_activated].  On [trial_initiated]
    it raises the flag of the user's [trial_paywall_view] records, keeps
    every other journey record, and leaves experiments, statistics,
    scheduled messages and console alone. *)
Theorem conversion_check_frame (env : Env) (userId : string) (w : World) :
  (forall eventType,
     eventType <> "trial_initiated"%string ->
     eventType <> "trial_activated"%string ->
     checkForConversion env userId eventType w = (Ok tt, w)) /\
  let after := (checkForConversion env userId "trial_initiated" w).2 in
  experiments (data after) = experiments (data w) /\
  combo_stats (data after) = combo_stats (data w) /\
  scheduled_messages (data after) = scheduled_messages (data w) /\
  console after = console w /\
  length (user_journey (data after)) = length (user_journey (data w)) /\
  forall (i : nat) j,
    user_journey (data w) !! i = Some j ->
    user_journey (data after) !! i =
    Some (if decide (j_user_id j = userId /\
                     j_event_type j = "trial_paywall_view"%string)
          then set_checked true j else j).
Proof.
  split.
  - intros eventType H1 H2. unfold checkForConversion.
    rewrite !decide_False by done. unfold bind, ret. simpl. by destruct w.
  - cbv zeta. unfold checkForConversion.
    rewrite decide_True by reflexivity.
    rewrite decide_False by discriminate.
    unfold bind, modify_db, ret. cbn [fst snd data console experiments
      combo_stats scheduled_messages user_journey with_user_journey].
    repeat split.
    + unfold mark_checked. by rewrite length_fmap.
    + intros i j Hi. by apply mark_checked_lookup.
Qed.

Lemma conversion_check_frame_witness :
  checkForConversion Sample.quiet_env "u1" "payment_failed" Sample.due
  = (Ok tt, Sample.due).
Proof.
  apply (proj1 (conversion_check_frame Sample.quiet_env "u1" Sample.due));
    discriminate.
Defined.

(** ** The webhook loop *)

Lemma observeEvent_counted (env : Env) (userId eventType : string)
    (properties : Attributes) (w w' : World) (counted : bool) :
  observeEvent env userId eventType properties w = (Ok counted, w') ->
  counted = bool_decide (is_Some (eventConfig !! eventType)).
Proof.
  unfold observeEvent. unfold bind at 1. cbn [console_log fst snd].
  unfold bind at 1.
  destruct (checkForConversion env userId eventType _) as [[[]|e] w1];
    [|discriminate].
  destruct (eventConfig !! eventType) as [[wait timeout cohort|cohort]|].
  - unfold bind, Date_now, uuidv4, modify_db, console_log, ret. cbn [fst snd].
    intros [= <- _]. symmetry. apply bool_decide_eq_true. eauto.
  - unfold bind at 1.
    destruct (createExperiment env userId cohort properties w1)
      as [[r|e] w2]; [|discriminate].
    unfold bind, console_log, ret. cbn [fst snd].
    intros [= <- _]. symmetry. apply bool_decide_eq_true. eauto.
  - unfold ret. intros [= <- _]. symmetry. apply bool_decide_eq_false.
    by intros [x Hx].
Qed.

Lemma webhook_loop_skip (env : Env) (events : list Event) (acc : nat) (w : World) :
  webhook_loop env (filter has_user events) acc w = webhook_loop env events acc w.
Proof.
  revert acc w. induction events as [|event events IH]; intros acc w; [done|].
  rewrite filter_cons. unfold has_user at 1.
  destruct (decide (is_Some (event_user event))) as [[u Hu]|Hno]; simpl.
  - rewrite Hu. unfold bind.
    destruct (observeEvent env u _ _ w) as [[b|e] w1]; [apply IH|done].
  - destruct (event_user event) as [u|]; [|apply IH].
    exfalso. apply Hno. eauto.
Qed.

Lemma webhook_loop_count (env : Env) (events : list Event) (acc n : nat)
    (w w' : World) :
  webhook_loop env events acc w = (Ok n, w') ->
  n = (acc + length (filter (fun ev => has_user ev /\
                                       is_Some (eventConfig !! ev_event_type ev))
                       events))%nat.
Proof.
  revert acc w. induction events as [|event events IH]; intros acc w; simpl.
  - unfold ret. intros [= <- _]. lia.
  - rewrite filter_cons.
    destruct (decide (has_user event /\ _)) as [[[u Hu] Hcfg]|Hno].
    + rewrite Hu. unfold bind.
      destruct (observeEvent env u _ _ w) as [[b|e] w1] eqn:Hobs; [|discriminate].
      apply observeEvent_counted in Hobs. intros Hrest. apply IH in Hrest.
      subst b. rewrite bool_decide_eq_true_2 in Hrest by assumption. simpl. lia.
    + destruct (event_user event) as [u|] eqn:Hu; [|apply IH].
      unfold bind.
      destruct (observeEvent env u _ _ w) as [[b|e] w1] eqn:Hobs; [|discriminate].
      apply observeEvent_counted in Hobs. intros Hrest. apply IH in Hrest.
      subst b. rewrite bool_decide_eq_false_2 in Hrest; [assumption|].
      intros Hcfg. apply Hno. split; [|assumption].
      unfold has_user. rewrite Hu. eauto.
Qed.



Lemma webhook_loop_acc (env : Env) (events : list Event) (acc : nat) (w : World) :
  webhook_loop env events acc w =
  match webhook_loop env events 0 w with
  | (Ok n, w') => (Ok (acc + n)%nat, w')
  | (Throw e, w') => (Throw e, w')
  end.
Proof.
  revert acc w. induction events as [|event events IH]; intros acc w; simpl.
  - unfold ret. by rewrite Nat.add_0_r.
  - destruct (event_user event) as [u|]; [|apply IH].
    unfold bind. destruct (observeEvent env u _ _ w) as [[b|e] w1]; [|done].
    rewrite (IH (if b then S acc else acc)), (IH (if b then 1 else 0)%nat).
    destruct (webhook_loop env events 0 w1) as [[n|e] w2]; [|done].
    destruct b; do 2 f_equal; lia.
Qed.

Lemma webhook_loop_app (env : Env) (a b : list Event) (acc : nat) (w : World) :
  webhook_loop env (a ++ b) acc w =
  match webhook_loop env a acc w with
  | (Ok n1, w1) => webhook_loop env b n1 w1
  | (Throw e, w1) => (Throw e, w1)
  end.
Proof.
  revert w acc. induction a as [|event a IH]; intros w acc; simpl; [done|].
  destruct (event_user event) as [u|]; [|apply IH].
  unfold bind. destruct (observeEvent env u _ _ w) as [[c|e] w1]; [|done].
  apply IH.
Qed.

(** X9.  One webhook request with the batch [a ++ b] is the request with
    [a] followed by the request with [b]: the same final world, and the
    two [processed] counts added up.  If handling [a] throws, nothing of
    [b] is handled. *)
Theorem webhook_batches_compose (env : Env) (a b : list Event) (w : World) :
  webhookAmplitude env (a ++ b) w =
  match webhookAmplitude env a w with
  | (Ok n1, w1) =>
      match webhookAmplitude env b w1 with
      | (Ok n2, w2) => (Ok (n1 + n2)%nat, w2)
      | (Throw e, w2) => (Throw e, w2)
      end
  | (Throw e, w1) => (Throw e, w1)
  end.
Proof.
  unfold webhookAmplitude. rewrite webhook_loop_app.
  destruct (webhook_loop env a 0 w) as [[n1|e] w1]; [|done].
  apply webhook_loop_acc.
Qed.

(** ** The rules of the webhook *)

Lemma eventConfig_waits (eventType waitFor cohort : string) (timeout : Z) :
  eventConfig !! eventType = Some (Waits waitFor timeout cohort) ->
  eventType = "trial_paywall_view"%string \/ eventType = "trial_initiated"%string.
Proof.
  intros H. apply elem_of_list_to_map_2 in H.
  repeat (apply elem_of_cons in H as [[= -> _]|H]; [tauto|]).
  apply elem_of_cons in H as [H|H]; [discriminate H|].
  by apply elem_of_nil in H.
Qed.

(** X10.  An event whose type has a wait rule is stored as one new,
    unresolved journey record at the end of the journey list; its deadline
    is the clock reading taken on arrival plus the rule's timeout, and its
    event time is the next clock reading.  No experiment, statistics row
    or scheduled message is written, the event counts as processed, and a
    [trial_initiated] event first resolves the user's waiting
    [trial_paywall_view] records. *)
Theorem wait_rule_records_a_deadline (env : Env)
    (userId eventType waitFor cohort : string) (timeout : Z)
    (properties : Attributes) (w : World) :
  eventConfig !! eventType = Some (Waits waitFor timeout cohort) ->
  let checkAt := clock env (n_clock w) + timeout in
  let record :=
    {| j_id := uuid env (n_uuid w); j_user_id := userId;
       j_event_type := eventType; j_event_time := clock env (S (n_clock w));
       j_properties := properties; j_check_at := checkAt;
       j_checked := false |} in
  exists w',
    observeEvent env userId eventType properties w = (Ok true, w') /\
    user_journey (data w') =
      (if decide (eventType = "trial_initiated"%string)
       then mark_checked userId "trial_paywall_view" (user_journey (data w))
       else user_journey (data w)) ++ [record] /\
    experiments (data w') = experiments (data w) /\
    combo_stats (data w') = combo_stats (data w) /\
    scheduled_messages (data w') = scheduled_messages (data w) /\
    console w' = console w ++ [LEvent eventType userId;
                               LScheduled userId waitFor checkAt].
Proof.
  intros Hcfg. cbv zeta. unfold observeEvent. rewrite Hcfg.
  unfold checkForConversion.
  destruct (eventConfig_waits _ _ _ _ Hcfg) as [->| ->];
    (eexists; split;
     [unfold bind, console_log, modify_db, Date_now, uuidv4, ret; simpl;
      reflexivity|]);
    simpl; rewrite <- ?app_assoc; repeat split; reflexivity.
Qed.

Lemma wait_rule_records_a_deadline_witness :
  exists w',
    observeEvent Sample.quiet_env "u" "trial_paywall_view" no_attributes
      initial_world = (Ok true, w') /\
    user_journey (data w') =
      [ {| j_id := "0"; j_user_id := "u"; j_event_type := "trial_paywall_view";
           j_event_time := 1000001; j_properties := no_attributes;
           j_check_at := 1000000 + 30 * 60 * 1000; j_checked := false |} ].
Proof.
  destruct (wait_rule_records_a_deadline Sample.quiet_env "u"
              "trial_paywall_view" "trial_initiated" "paywall_bouncers"
              (30 * 60 * 1000) no_attributes initial_world eq_refl)
    as (w' & Hrun & Hj & _).
  exists w'. split; [exact Hrun|]. rewrite Hj. reflexivity.
Defined.

Lemma checkForConversion_other (env : Env) (userId eventType : string)
    (w : World) :
  eventType <> "trial_initiated"%string ->
  eventType <> "trial_activated"%string ->
  checkForConversion env userId eventType w = (Ok tt, w).
Proof.
  intros H1 H2. unfold checkForConversion.
  rewrite !decide_False by done. unfold bind, ret. simpl. by destruct w.
Qed.

(** A send time is strictly after the clock reading it is computed
    from. *)
Lemma send_time_spec_later (env : Env) (timing : string) (now sendAt : Z) :
  send_time_spec env timing now sendAt -> now < sendAt.
Proof.
  intros (H1 & H2 & H3 & H4 & H5 & H6 & H7 & H8 & H9).
  destruct (decide (timing ∈ timing_names)) as [Hin|Hnot].
  - unfold timing_names in Hin.
    repeat (apply elem_of_cons in Hin as [Hin|Hin];
            [first [ specialize (H1 Hin) | specialize (H2 Hin)
                   | specialize (H3 Hin) | specialize (H4 Hin)
                   | specialize (H5 Hin) | specialize (H6 Hin)
                   | specialize (H7 Hin) | specialize (H8 Hin) ];
             first [lia | by match goal with H : next_local _ _ _ _ |- _ =>
                               destruct H end] |]).
    by apply elem_of_nil in Hin.
  - specialize (H9 Hnot). lia.
Qed.



(** ** Resolved records and the sweep *)

Lemma abandon_count_other (i k : nat) (u wait cohort : string) :
  k <> i -> abandon_count i [LAbandoned k u wait cohort] = 0%nat.
Proof.
  intros Hne. unfold abandon_count. rewrite filter_cons.
  destruct (decide _) as [Hk|_]; [simpl in Hk; congruence|done].
Qed.

(** A sweep turn for another record announces nothing for record [i]. *)
Lemma sweepJourney_other (env : Env) (i k : nat) (journey : Journey) (w : World) :
  k <> i ->
  abandon_count i (console (sweepJourney env (k, journey) w).2)
  = abandon_count i (console w).
Proof.
  intros Hne. unfold sweepJourney. cbv zeta. simpl.
  destruct (eventConfig !! j_event_type journey)
    as [[wait t cohort|cohort]|]; [|done..].
  unfold bind at 1. simpl.
  destruct (list_find _ _) as [[k' jf]|].
  - simpl. rewrite abandon_count_app.
    rewrite (abandon_count_quiet i [LOk (j_user_id journey) wait]); [lia|].
    constructor; [simpl; tauto|constructor].
  - unfold bind. simpl.
    match goal with |- context [createExperiment env ?u ?c ?a ?wx] =>
      pose proof (quiet_createExperiment env u c a wx) as [_ (lines & Hc & Hl)];
      destruct (createExperiment env u c a wx) as [[r|e] w2]
    end; simpl in *; rewrite Hc, !abandon_count_app,
      (abandon_count_other i k) by done;
      rewrite (abandon_count_quiet i lines Hl); lia.
Qed.

Lemma sweep_loop_resolved (env : Env) (i : nat) (rest : list (nat * Journey))
    (w : World) :
  Forall (fun p => p.1 <> i) rest ->
  abandon_count i (console (for_of rest (sweepJourney env) w).2)
  = abandon_count i (console w).
Proof.
  revert w. induction rest as [|[k journey] rest IH]; intros w Hrest; [done|].
  apply Forall_cons in Hrest as [Hk Hrest]. simpl in Hk.
  simpl. unfold bind.
  pose proof (sweepJourney_other env i k journey w Hk) as Hone.
  destruct (sweepJourney env (k, journey) w) as [[[]|e] w1]; [|done].
  simpl in Hone. rewrite <- Hone. by apply IH.
Qed.

Lemma deadlineSweepCron_resolved (env : Env) (i : nat) (w : World) :
  checked_at i w ->
  abandon_count i (console (deadlineSweepCron env w).2)
  = abandon_count i (console w).
Proof.
  intros (j & Hi & Hc). unfold deadlineSweepCron, bind. simpl.
  rewrite sweep_loop_resolved; [done|].
  apply Forall_forall. intros [k jk] Hin.
  apply picked_elem_of in Hin as [Hk [_ Hunchecked]]. simpl in *.
  intros ->. congruence.
Qed.

Lemma quiet_abandon_count (i : nat) (w w' : World) :
  quiet w w' -> abandon_count i (console w') = abandon_count i (console w).
Proof.
  intros [_ (lines & -> & Hl)].
  rewrite abandon_count_app, (abandon_count_quiet i lines Hl). lia.
Qed.

Lemma run_op_resolved (env : Env) (i : nat) (op : Op) (w : World) :
  checked_at i w ->
  abandon_count i (console (run_op env op w)) = abandon_count i (console w).
Proof.
  intros Hc. destruct op; unfold run_op.
  - apply quiet_abandon_count, quiet_webhookAmplitude.
  - by apply deadlineSweepCron_resolved.
  - apply quiet_abandon_count, quiet_deliveryDispatcherCron.
  - apply quiet_abandon_count, quiet_apiTrigger.
  - apply quiet_abandon_count, (quiet_apiExperiments env).
Qed.



(** ** What one sweep resolves *)

Lemma sweepJourney_run (env : Env) (k : nat) (journey : Journey) (w : World) :
  random_ok env ->
  (sweepJourney env (k, journey) w).1 = Ok tt /\
  user_journey (data (sweepJourney env (k, journey) w).2)
  = sweep_marks [(k, journey)] (user_journey (data w)).
Proof.
  intros Hd. unfold sweep_marks. simpl.
  remember (sweepJourney env (k, journey) w) as res eqn:Hres.
  unfold sweepJourney in Hres. cbv zeta in Hres. simpl in Hres.
  destruct (decide (has_wait_rule journey)) as [Hw|Hw];
    unfold has_wait_rule in Hw;
    destruct (eventConfig !! j_event_type journey)
      as [[wait t cohort|cohort]|]; try done; try (by subst res).
  unfold bind at 1 in Hres. simpl in Hres.
  destruct (list_find _ _) as [[k' jf]|].
  - subst res. done.
  - unfold bind in Hres. simpl in Hres.
    match type of Hres with context [createExperiment env ?u ?c ?a ?wx] =>
      pose proof (same_createExperiment env u c a wx) as Hsame;
      destruct (returns_createExperiment env Hd u c a wx) as [r Hr];
      destruct (createExperiment env u c a wx) as [cr w2]
    end.
    simpl in Hr. subst cr. simpl in Hres. subst res. simpl.
    unfold same_journeys in Hsame. simpl in Hsame. by rewrite Hsame.
Qed.

Lemma sweep_loop_run (env : Env) (rest : list (nat * Journey)) (w : World) :
  random_ok env ->
  (for_of rest (sweepJourney env) w).1 = Ok tt /\
  user_journey (data (for_of rest (sweepJourney env) w).2)
  = sweep_marks rest (user_journey (data w)).
Proof.
  intros Hd. revert w. induction rest as [|[k journey] rest IH]; intros w.
  - done.
  - simpl. unfold bind.
    destruct (sweepJourney_run env k journey w Hd) as [Hok Hj].
    destruct (sweepJourney env (k, journey) w) as [[[]|e] w1]; [|done].
    simpl in Hj. destruct (IH w1) as [Hok' Hj']. split; [done|].
    rewrite Hj'. unfold sweep_marks in *. simpl. by rewrite Hj.
Qed.

Lemma set_checked_twice (j : Journey) :
  set_checked true (set_checked true j) = set_checked true j.
Proof. done. Qed.

Lemma sweep_marks_length (rest : list (nat * Journey)) (l : list Journey) :
  length (sweep_marks rest l) = length l.
Proof.
  revert l. induction rest as [|p rest IH]; intros l; [done|].
  unfold sweep_marks in *. simpl. rewrite IH.
  destruct (decide _); [apply length_alter|done].
Qed.

Lemma sweep_marks_lookup (rest : list (nat * Journey)) (l : list Journey)
    (i : nat) :
  sweep_marks rest l !! i =
  if decide (Exists (fun p => p.1 = i /\ has_wait_rule p.2) rest)
  then set_checked true <$> l !! i else l !! i.
Proof.
  revert l. induction rest as [|[k journey] rest IH]; intros l; [done|].
  unfold sweep_marks in *. simpl. rewrite IH. clear IH.
  destruct (decide (has_wait_rule journey)) as [Hw|Hw].
  - destruct (decide (k = i)) as [->|Hne].
    + rewrite list_lookup_alter_eq.
      rewrite (decide_True (P := Exists _ (_ :: _)))
        by (by apply Exists_cons_hd).
      destruct (decide (Exists _ rest)); [|done].
      destruct (l !! i); simpl; [|done]. by rewrite set_checked_twice.
    + rewrite list_lookup_alter_ne by done.
      destruct (decide (Exists _ rest)) as [He|He].
      * by rewrite decide_True by (by apply Exists_cons_tl).
      * rewrite decide_False; [done|].
        intros [[? _]|?]%Exists_cons; simpl in *; done.
  - destruct (decide (Exists _ rest)) as [He|He].
    + by rewrite decide_True by (by apply Exists_cons_tl).
    + rewrite decide_False; [done|].
      intros [[_ ?]|?]%Exists_cons; simpl in *; done.
Qed.



(** ** What one dispatcher run sends *)

Lemma total_alter (f : ComboStat -> Z) (g : ComboStat -> ComboStat) (i : nat)
    (l : list ComboStat) (s : ComboStat) :
  l !! i = Some s ->
  foldr Z.add 0 (f <$> alter g i l) = foldr Z.add 0 (f <$> l) - f s + f (g s).
Proof.
  revert i. induction l as [|x l IH]; intros [|i] Hi; try done.
  - injection Hi as ->. simpl. lia.
  - change (alter g (S i) (x :: l)) with (x :: alter g i l).
    rewrite !fmap_cons. cbn [foldr]. rewrite (IH i Hi). lia.
Qed.

Lemma total_snoc (f : ComboStat -> Z) (l : list ComboStat) (s : ComboStat) :
  foldr Z.add 0 (f <$> l ++ [s]) = foldr Z.add 0 (f <$> l) + f s.
Proof.
  induction l as [|x l IH]; [simpl; lia|].
  change ((x :: l) ++ [s]) with (x :: (l ++ [s])).
  rewrite !fmap_cons. cbn [foldr]. rewrite IH. lia.
Qed.

(** Every call of [updateComboStats] adds one to the total of
    [sent_count], and one to the total of [converted_count] exactly when
    it is called for a conversion. *)
Lemma updateComboStats_totals (env : Env) (key : string) (e : Experiment)
    (converted : bool) (w : World) :
  let after := (updateComboStats env key e converted w).2 in
  (updateComboStats env key e converted w).1 = Ok tt /\
  total_sent (data after) = total_sent (data w) + 1 /\
  total_converted (data after)
    = total_converted (data w) + (if converted then 1 else 0) /\
  experiments (data after) = experiments (data w) /\
  scheduled_messages (data after) = scheduled_messages (data w) /\
  user_journey (data after) = user_journey (data w).
Proof.
  cbv zeta. unfold updateComboStats, bind. cbn [get_db fst snd].
  unfold total_sent, total_converted.
  destruct (list_find _ _) as [[i s]|] eqn:Hfind;
    cbn [Date_now modify_db fst snd data combo_stats with_combo_stats
         experiments scheduled_messages user_journey].
  - apply list_find_Some in Hfind as (Hi & _ & _).
    rewrite !(total_alter _ _ i _ s Hi). simpl.
    split_ands; try reflexivity; destruct converted; lia.
  - rewrite !total_snoc. simpl.
    split_ands; try reflexivity.
Qed.

Lemma sendViaCleverTap_frame (env : Env) (userId message channel id : string)
    (w : World) :
  exists r w1,
    sendViaCleverTap env userId message channel id w = (Ok r, w1) /\
    data w1 = data w /\ n_clock w1 = n_clock w.
Proof.
  unfold sendViaCleverTap. destruct (negb (credentials env)).
  - eexists _, _. split; [reflexivity|]. done.
  - unfold try_catch, bind, axios_post.
    destruct (post_fails env (n_post w)); eexists _, _; (split; [reflexivity|]);
      done.
Qed.

(** One turn of the dispatcher for a message whose experiment is
    stored. *)
Lemma dispatchMessage_found (env : Env) (i : nat) (msg : ScheduledMessage)
    (w : World) (k : nat) (experiment : Experiment) :
  list_find (fun e => e_id e = sm_experiment_id msg) (experiments (data w))
    = Some (k, experiment) ->
  let after := (dispatchMessage env (i, msg) w).2 in
  (dispatchMessage env (i, msg) w).1 = Ok tt /\
  scheduled_messages (data after)
    = alter (set_msg_status MsgSent) i (scheduled_messages (data w)) /\
  experiments (data after)
    = alter (set_sent (clock env (n_clock w))) k (experiments (data w)) /\
  user_journey (data after) = user_journey (data w) /\
  total_sent (data after) = total_sent (data w) + 1 /\
  total_converted (data after) = total_converted (data w).
Proof.
  intros Hfind after. subst after.
  remember (dispatchMessage env (i, msg) w) as res eqn:Hres.
  unfold dispatchMessage in Hres. cbv zeta in Hres.
  unfold bind at 1 in Hres. cbn [get_db fst snd] in Hres. rewrite Hfind in Hres.
  unfold try_catch in Hres. unfold bind at 1 in Hres.
  destruct (sendViaCleverTap_frame env (sm_user_id msg) (e_message experiment)
              (e_channel experiment) (sm_experiment_id msg) w)
    as (r & w1 & Hsend & Hd & Hc).
  rewrite Hsend in Hres.
  unfold bind at 1 in Hres. cbn [modify_db] in Hres.
  unfold bind at 1 in Hres. cbn [Date_now] in Hres.
  unfold bind at 1 in Hres. cbn [modify_db] in Hres.
  unfold bind at 1 in Hres.
  cbn [data n_clock n_random n_uuid n_post console fst snd] in Hres.
  match type of Hres with context [updateComboStats env ?key ?e ?c ?wx] =>
    pose proof (updateComboStats_totals env key e c wx)
      as (Hok & Hts & Htc & He & Hm & Hj);
    destruct (updateComboStats env key e c wx) as [u w2]
  end.
  cbn [fst snd] in Hok. subst u.
  unfold console_log in Hres. subst res.
  cbn [fst snd data] in *.
  rewrite He, Hm, Hj, Hts, Htc.
  cbn [experiments scheduled_messages user_journey with_experiments
       with_scheduled_messages]. rewrite Hd, Hc.
  unfold total_sent, total_converted. simpl.
  split_ands; try reflexivity. lia.
Qed.

Lemma dispatchMessage_orphan (env : Env) (i : nat) (msg : ScheduledMessage)
    (w : World) :
  list_find (fun e => e_id e = sm_experiment_id msg) (experiments (data w))
    = None ->
  dispatchMessage env (i, msg) w = (Ok tt, w).
Proof.
  intros Hfind. unfold dispatchMessage. cbv zeta.
  unfold bind. cbn [get_db fst snd]. rewrite Hfind. reflexivity.
Qed.

Lemma list_find_id (x : string) (l : list Experiment) :
  (x ∈ e_id <$> l -> is_Some (list_find (fun e => e_id e = x) l)) /\
  (x ∉ e_id <$> l -> list_find (fun e => e_id e = x) l = None).
Proof.
  split.
  - intros (e & -> & He)%list_elem_of_fmap.
    by apply (list_find_elem_of _ _ e).
  - intros Hnot. apply list_find_None, Forall_forall. intros e He <-.
    apply Hnot, list_elem_of_fmap. eauto.
Qed.

Lemma stamped_refl (l : list Experiment) : Forall2 stamped l l.
Proof. apply Forall_Forall2_diag, Forall_forall. intros e _. by left. Qed.

Lemma stamped_alter (l l' : list Experiment) (k : nat) (t : Z) :
  Forall2 stamped l l' -> Forall2 stamped l (alter (set_sent t) k l').
Proof.
  intros H. revert k. induction H as [|e e' l l' He Hl IH]; intros [|k]; simpl.
  - constructor.
  - constructor.
  - constructor; [|done]. right. exists t. destruct He as [->|[t' ->]]; done.
  - constructor; [done|apply IH].
Qed.

Lemma stamped_ids (l l' : list Experiment) :
  Forall2 stamped l l' -> e_id <$> l' = e_id <$> l.
Proof.
  induction 1 as [|e e' l l' He Hl IH]; [done|]. rewrite !fmap_cons, IH.
  f_equal. destruct He as [->|[t ->]]; done.
Qed.

Lemma dispatch_loop_run (env : Env) (exps : list Experiment)
    (rest : list (nat * ScheduledMessage)) (w : World) :
  Forall2 stamped exps (experiments (data w)) ->
  let after := (for_of rest (dispatchMessage env) w).2 in
  (for_of rest (dispatchMessage env) w).1 = Ok tt /\
  scheduled_messages (data after)
    = dispatch_marks (e_id <$> exps) rest (scheduled_messages (data w)) /\
  Forall2 stamped exps (experiments (data after)) /\
  user_journey (data after) = user_journey (data w).
Proof.
  revert w. induction rest as [|[i msg] rest IH]; intros w Hst; [done|].
  cbv zeta. simpl. unfold bind. unfold dispatch_marks. simpl.
  fold (dispatch_marks (e_id <$> exps) rest).
  rewrite <- (stamped_ids _ _ Hst).
  destruct (decide (sm_experiment_id msg ∈ e_id <$> experiments (data w)))
    as [Hin|Hnot].
  - apply list_find_id in Hin as [[k e] Hfind].
    destruct (dispatchMessage_found env i msg w k e Hfind)
      as (Hok & Hm & He & Hj & _).
    destruct (dispatchMessage env (i, msg) w) as [[[]|err] w1]; [|done].
    cbn [fst snd] in *.
    destruct (IH w1) as (Hok' & Hm' & He' & Hj').
    { rewrite He. by apply stamped_alter. }
    rewrite (stamped_ids _ _ Hst) in *.
    split; [done|]. split; [by rewrite Hm', Hm|]. split; [done|].
    by rewrite Hj', Hj.
  - apply list_find_id in Hnot.
    rewrite (dispatchMessage_orphan env i msg w Hnot).
    destruct (IH w Hst) as (Hok' & Hm' & He' & Hj').
    rewrite (stamped_ids _ _ Hst) in *. done.
Qed.

Lemma set_msg_status_twice (m : ScheduledMessage) :
  set_msg_status MsgSent (set_msg_status MsgSent m) = set_msg_status MsgSent m.
Proof. done. Qed.

Lemma dispatch_marks_length (ids : list string)
    (rest : list (nat * ScheduledMessage)) (l : list ScheduledMessage) :
  length (dispatch_marks ids rest l) = length l.
Proof.
  revert l. induction rest as [|p rest IH]; intros l; [done|].
  unfold dispatch_marks in *. simpl. rewrite IH.
  destruct (decide _); [apply length_alter|done].
Qed.

Lemma dispatch_marks_lookup (ids : list string)
    (rest : list (nat * ScheduledMessage)) (l : list ScheduledMessage)
    (i : nat) :
  dispatch_marks ids rest l !! i =
  if decide (Exists (fun p => p.1 = i /\ sm_experiment_id p.2 ∈ ids) rest)
  then set_msg_status MsgSent <$> l !! i else l !! i.
Proof.
  revert l. induction rest as [|[k msg] rest IH]; intros l; [done|].
  unfold dispatch_marks in *. simpl. rewrite IH. clear IH.
  destruct (decide (sm_experiment_id msg ∈ ids)) as [Hw|Hw].
  - destruct (decide (k = i)) as [->|Hne].
    + rewrite list_lookup_alter_eq.
      rewrite (decide_True (P := Exists _ (_ :: _)))
        by (by apply Exists_cons_hd).
      destruct (decide (Exists _ rest)); [|done].
      destruct (l !! i); simpl; [|done]. by rewrite set_msg_status_twice.
    + rewrite list_lookup_alter_ne by done.
      destruct (decide (Exists _ rest)) as [He|He].
      * by rewrite decide_True by (by apply Exists_cons_tl).
      * rewrite decide_False; [done|].
        intros [[? _]|?]%Exists_cons; simpl in *; done.
  - destruct (decide (Exists _ rest)) as [He|He].
    + by rewrite decide_True by (by apply Exists_cons_tl).
    + rewrite decide_False; [done|].
      intros [[_ ?]|?]%Exists_cons; simpl in *; done.
Qed.

(** X14.  What one run of the delivery dispatcher does: [now] being the
    clock reading it starts with, it marks as sent exactly the messages at
    the positions of its batch - the first hundred pending messages whose
    send time is not after [now] - whose experiment is stored, and it
    does so whatever CleverTap answers; a message whose experiment is not
    stored stays pending.  No message is added, removed or set back,
    every experiment is as it was or stamped as sent, journey records are
    not touched, and the run does not throw. *)
Theorem dispatcher_sends_the_due_batch (env : Env) (w : World) :
  let now := clock env (n_clock w) in
  let after := (deliveryDispatcherCron env w).2 in
  let ids := e_id <$> experiments (data w) in
  (deliveryDispatcherCron env w).1 = Ok tt /\
  length (scheduled_messages (data after))
    = length (scheduled_messages (data w)) /\
  (forall (i : nat) m,
     scheduled_messages (data w) !! i = Some m ->
     scheduled_messages (data after) !! i =
     Some (if decide (i ∈ (pendingMessages now (data w)).*1 /\
                      sm_experiment_id m ∈ ids)
           then set_msg_status MsgSent m else m)) /\
  Forall2 (fun e e' => e' = e \/ exists t, e' = set_sent t e)
    (experiments (data w)) (experiments (data after)) /\
  user_journey (data after) = user_journey (data w).
Proof.
  intros now after ids. subst after.
  unfold deliveryDispatcherCron, bind. simpl.
  match goal with |- context [for_of ?rest _ ?wx] =>
    destruct (dispatch_loop_run env (experiments (data w)) rest wx
                (stamped_refl _)) as (Hok & Hm & He & Hj)
  end.
  simpl in Hm, Hj. fold now in Hok, Hm, He, Hj |- *. fold ids in Hm.
  split; [exact Hok|]. rewrite Hm.
  split; [apply dispatch_marks_length|]. split; [|split; [exact He|exact Hj]].
  intros i m Hi. rewrite dispatch_marks_lookup, Hi. simpl.
  destruct (decide (Exists _ _)) as [Hex|Hex];
    destruct (decide (_ /\ _)) as [Hin|Hin]; try done.
  - exfalso. apply Hin. apply Exists_exists in Hex as ([k mk] & Hk & Heq & Hw).
    simpl in *. subst k.
    pose proof (picked_elem_of _ _ _ _ _ Hk) as [Hmk _].
    rewrite Hi in Hmk. injection Hmk as <-.
    split; [|done]. apply list_elem_of_fmap. by exists (i, m).
  - exfalso. apply Hex. apply Exists_exists.
    destruct Hin as [Hin Hw].
    apply list_elem_of_fmap in Hin as ([k mk] & -> & Hk). simpl in *.
    pose proof (picked_elem_of _ _ _ _ _ Hk) as [Hmk _].
    rewrite Hi in Hmk. injection Hmk as <-. by exists (k, m).
Qed.

Lemma dispatcher_sends_the_due_batch_witness :
  scheduled_messages
    (data (deliveryDispatcherCron Sample.failing_env Sample.due).2) !! 0%nat
  = Some (set_msg_status MsgSent Sample.msg1).
Proof.
  destruct (dispatcher_sends_the_due_batch Sample.failing_env Sample.due)
    as (_ & _ & Hmsg & _).
  etrans; [exact (Hmsg 0%nat Sample.msg1 eq_refl)|].
  rewrite decide_True; [reflexivity|].
  split.
  - assert (E : (pendingMessages
                   (clock Sample.failing_env (n_clock Sample.due))
                   (data Sample.due)).*1 = [0%nat])
      by (vm_compute; reflexivity).
    rewrite E. left.
  - left.
Defined.

(** ** Counted sends, deliveries and conversions *)

Create HintDb account.

Lemma keeps_accounted_frame w w' :
  data w' = data w -> (n_clock w <= n_clock w')%nat ->
  (n_uuid w <= n_uuid w')%nat -> keeps_accounted w w'.
Proof. intros Hd _ _. unfold keeps_accounted. by rewrite Hd. Qed.

Lemma keeps_accounted_trans a b c :
  keeps_accounted a b -> keeps_accounted b c -> keeps_accounted a c.
Proof. unfold keeps_accounted. auto. Qed.

Lemma account_modify_experiments f :
  preserves keeps_accounted (modify_db (with_experiments f)).
Proof. intros w Hacc. exact Hacc. Qed.

Lemma account_modify_journey f :
  preserves keeps_accounted (modify_db (with_user_journey f)).
Proof. intros w Hacc. exact Hacc. Qed.

(** A new message is pending. *)
Lemma account_modify_push (smId experimentId userId : string) (sendAt : Z) :
  preserves keeps_accounted
    (modify_db (with_scheduled_messages (fun l => l ++ [
       {| sm_id := smId; sm_experiment_id := experimentId;
          sm_user_id := userId; sm_send_at := sendAt;
          sm_status := MsgPending |} ]))).
Proof.
  intros w. unfold keeps_accounted, accounted, sent_messages. simpl.
  rewrite filter_app, filter_cons, decide_False by done.
  by rewrite filter_nil, app_nil_r.
Qed.

Lemma account_conversion env key (experiment : Experiment) :
  preserves keeps_accounted (updateComboStats env key experiment true).
Proof.
  intros w.
  destruct (updateComboStats_totals env key experiment true w)
    as (_ & Hts & Htc & _ & Hm & _).
  unfold keeps_accounted, accounted, sent_messages in *. rewrite Hts, Htc, Hm.
  lia.
Qed.

#[local] Hint Resolve account_modify_experiments account_modify_journey
  account_modify_push account_conversion : account.

Lemma sent_after_alter (l : list ScheduledMessage) (i : nat)
    (m : ScheduledMessage) :
  l !! i = Some m -> sm_status m = MsgPending ->
  length (filter (fun m => sm_status m = MsgSent)
            (alter (set_msg_status MsgSent) i l))
  = S (length (filter (fun m => sm_status m = MsgSent) l)).
Proof.
  revert i. induction l as [|x l IH]; intros [|i] Hi Hp; try done.
  - injection Hi as ->.
    rewrite !filter_cons. simpl. rewrite Hp.
    by rewrite decide_False by discriminate.
  - change (alter (set_msg_status MsgSent) (S i) (x :: l))
      with (x :: alter (set_msg_status MsgSent) i l).
    rewrite !filter_cons. destruct (decide _); simpl; by rewrite (IH i Hi Hp).
Qed.

Section Account.

Variable env : Env.

Lemma account_createExperiment userId cohort attrs :
  preserves keeps_accounted (createExperiment env userId cohort attrs).
Proof.
  unfold createExperiment, selectCombo, generateMessage, sendAtFor,
    getNextTime, randomFrom. cbv zeta.
  preserves_go keeps_accounted_frame keeps_accounted_trans account.
Qed.

#[local] Hint Resolve account_createExperiment : account.

Lemma account_webhook_loop events processed :
  preserves keeps_accounted (webhook_loop env events processed).
Proof.
  revert processed. induction events as [|event events IH]; intros n; simpl.
  - apply (frame_ret _ keeps_accounted_frame).
  - destruct (event_user event); [|apply IH].
    apply (preserves_bind _ keeps_accounted_trans); [|intros ?; apply IH].
    unfold observeEvent, checkForConversion. cbv zeta.
    preserves_go keeps_accounted_frame keeps_accounted_trans account.
Qed.

(** The messages of the batch are pending when their turn comes, so each
    one that is sent is counted once on both sides. *)
Lemma account_dispatch_loop (rest : list (nat * ScheduledMessage)) (w : World) :
  NoDup rest.*1 ->
  (forall i msg, (i, msg) ∈ rest ->
     exists m, scheduled_messages (data w) !! i = Some m /\
               sm_status m = MsgPending) ->
  accounted (data w) ->
  accounted (data (for_of rest (dispatchMessage env) w).2).
Proof.
  revert w. induction rest as [|[i msg] rest IH]; intros w Hnd Hrest Hacc;
    [done|].
  simpl. unfold bind. apply NoDup_cons in Hnd as [Hnotin Hnd].
  destruct (Hrest i msg) as (m & Hi & Hp); [left|].
  destruct (list_find (fun e => e_id e = sm_experiment_id msg)
              (experiments (data w))) as [[k e]|] eqn:Hfind.
  - destruct (dispatchMessage_found env i msg w k e Hfind)
      as (Hok & Hm & _ & _ & Hts & Htc).
    destruct (dispatchMessage env (i, msg) w) as [[[]|err] w1]; [|done].
    cbn [fst snd] in *. apply IH; [done| |].
    + intros i' msg' Hin. rewrite Hm, list_lookup_alter_ne.
      * apply (Hrest i' msg'). by right.
      * intros ->. apply Hnotin. apply list_elem_of_fmap. by exists (i', msg').
    + unfold accounted, sent_messages in *.
      rewrite Hts, Htc, Hm, (sent_after_alter _ i m Hi Hp). lia.
  - rewrite (dispatchMessage_orphan env i msg w Hfind). cbn [fst snd].
    apply IH; [done| |done].
    intros i' msg' Hin. apply (Hrest i' msg'). by right.
Qed.

Lemma account_deliveryDispatcherCron (w : World) :
  keeps_accounted w (deliveryDispatcherCron env w).2.
Proof.
  intros Hacc. unfold deliveryDispatcherCron, bind. simpl.
  apply account_dispatch_loop.
  - apply picked_NoDup.
  - intros i msg Hin. apply picked_elem_of in Hin as [Hi [Hp _]].
    simpl in *. eauto.
  - exact Hacc.
Qed.

Lemma account_run_op op w : keeps_accounted w (run_op env op w).
Proof.
  destruct op; unfold run_op.
  - apply account_webhook_loop.
  - revert w. change (preserves keeps_accounted (deadlineSweepCron env)).
    unfold deadlineSweepCron, sweepJourney. cbv zeta.
    preserves_go keeps_accounted_frame keeps_accounted_trans account.
  - apply account_deliveryDispatcherCron.
  - revert w. change (preserves keeps_accounted (apiTrigger env user_id cohort
                                                   attributes)).
    unfold apiTrigger.
    preserves_go keeps_accounted_frame keeps_accounted_trans account.
  - revert w. change (preserves keeps_accounted (apiExperiments limit)).
    unfold apiExperiments. cbv zeta.
    preserves_go keeps_accounted_frame keeps_accounted_trans account.
Qed.

End Account.



(** ** The experiments route *)

Lemma js_sort_sorted_id {A} (before : A -> A -> bool) (l : list A) :
  StronglySorted (fun x y => before y x = false) l -> js_sort before l = l.
Proof.
  induction 1 as [|x l Hs IH Hx]; [done|]. simpl. rewrite IH.
  destruct l as [|y l]; [done|]. simpl.
  apply Forall_cons in Hx as [-> _]. done.
Qed.

Lemma sorted_impl {A} (R R' : A -> A -> Prop) (l : list A) :
  StronglySorted R l -> (forall x y, R x y -> R' x y) -> StronglySorted R' l.
Proof.
  intros Hs HR. induction Hs as [|x l Hs IH Hx]; constructor; [done|].
  eapply Forall_impl; [exact Hx|]. intros y. apply HR.
Qed.

Lemma take_length_take {A} (k : nat) (l : list A) :
  take (length (take k l)) l = take k l.
Proof.
  rewrite length_take. destruct (decide (k <= length l)%nat).
  - by rewrite Nat.min_l.
  - rewrite Nat.min_r by lia. by rewrite !take_ge by lia.
Qed.

(** X16.  [GET /api/experiments] is not a pure read: it reorders the
    stored experiments in place.  After a request the store holds the
    same experiments, newest first; the answer is a prefix of the store -
    its first [limit] entries, fifty when the limit is missing, not a
    number or zero, and all but the last [-limit] when the limit is
    negative; nothing else of the document is touched, and a second
    request leaves the store as the first one left it. *)
Theorem experiments_route_sorts_the_store (limit : option Z) (w : World) :
  exists l w',
    apiExperiments limit w = (Ok l, w') /\
    experiments (data w') ≡ₚ experiments (data w) /\
    StronglySorted (fun a b => e_created_at b <= e_created_at a)
      (experiments (data w')) /\
    l = take (length l) (experiments (data w')) /\
    length l =
      (if decide (effective_limit limit < 0)%Z
       then length (experiments (data w)) - Z.to_nat (- effective_limit limit)%Z
       else Z.to_nat (effective_limit limit) `min`
            length (experiments (data w)))%nat /\
    combo_stats (data w') = combo_stats (data w) /\
    scheduled_messages (data w') = scheduled_messages (data w) /\
    user_journey (data w') = user_journey (data w) /\
    console w' = console w /\
    experiments (data (apiExperiments limit w').2) = experiments (data w').
Proof.
  unfold apiExperiments. cbv zeta. fold (effective_limit limit).
  unfold bind, modify_db, get_db, ret. cbn [fst snd data console].
  set (before := fun a b : Experiment => e_created_at b - e_created_at a <? 0).
  cbn [experiments combo_stats scheduled_messages user_journey with_experiments].
  assert (Hperm : js_sort before (experiments (data w)) ≡ₚ experiments (data w))
    by apply js_sort_perm.
  assert (Hsorted : StronglySorted (fun a b => e_created_at b <= e_created_at a)
                      (js_sort before (experiments (data w)))).
  { apply js_sort_sorted.
    - intros y x H. apply Z.ltb_lt in H. lia.
    - intros y x H. apply Z.ltb_ge in H. lia.
    - intros x y z. lia. }
  eexists _, _. split; [reflexivity|].
  split; [exact Hperm|]. split; [exact Hsorted|].
  split_ands; try reflexivity.
  - destruct (effective_limit limit <? 0); by rewrite take_length_take.
  - rewrite <- (Permutation_length Hperm).
    destruct (decide (effective_limit limit < 0)) as [Hneg|Hpos].
    + rewrite (proj2 (Z.ltb_lt _ _) Hneg), length_take. lia.
    + rewrite (proj2 (Z.ltb_ge _ _)) by lia. by rewrite length_take.
  - apply js_sort_sorted_id.
    eapply sorted_impl; [exact Hsorted|].
    intros a b Hab. cbv beta in Hab. subst before. cbv beta.
    apply Z.ltb_ge. lia.
Qed.

(** ** Nothing records an open *)

Create HintDb unopened.

Lemma keeps_unopened_frame w w' :
  data w' = data w -> (n_clock w <= n_clock w')%nat ->
  (n_uuid w <= n_uuid w')%nat -> keeps_unopened w w'.
Proof. intros Hd _ _. unfold keeps_unopened. by rewrite Hd. Qed.

Lemma keeps_unopened_trans a b c :
  keeps_unopened a b -> keeps_unopened b c -> keeps_unopened a c.
Proof. unfold keeps_unopened. auto. Qed.

Lemma unopened_modify_stats f :
  preserves keeps_unopened (modify_db (with_combo_stats f)).
Proof. intros w H. exact H. Qed.

Lemma unopened_modify_scheduled f :
  preserves keeps_unopened (modify_db (with_scheduled_messages f)).
Proof. intros w H. exact H. Qed.

Lemma unopened_modify_journey f :
  preserves keeps_unopened (modify_db (with_user_journey f)).
Proof. intros w H. exact H. Qed.

Lemma unopened_set_converted t i :
  preserves keeps_unopened
    (modify_db (with_experiments (alter (set_converted t) i))).
Proof.
  intros w H. unfold never_opened in *. simpl.
  apply Forall_alter; [done|]. intros e _ [_ Ho]. done.
Qed.

Lemma unopened_set_sent t k :
  preserves keeps_unopened (modify_db (with_experiments (alter (set_sent t) k))).
Proof.
  intros w H. unfold never_opened in *. simpl.
  apply Forall_alter; [done|]. intros e _ [_ Ho]. done.
Qed.

Lemma unopened_push id userId cohort tm ch lv ofr tn message now :
  preserves keeps_unopened
    (modify_db (with_experiments (fun l => l ++ [
       {| e_id := id; e_user_id := userId; e_cohort := cohort;
          e_timing := tm; e_channel := ch; e_lever := lv; e_offer := ofr;
          e_tone := tn; e_message := message; e_created_at := now;
          e_sent_at := None; e_opened_at := None; e_converted_at := None;
          e_status := StPending |} ]))).
Proof.
  intros w H. unfold never_opened in *. simpl.
  apply Forall_app. split; [done|]. by repeat constructor.
Qed.

Lemma unopened_sort before :
  preserves keeps_unopened (modify_db (with_experiments (js_sort before))).
Proof.
  intros w H. unfold never_opened in *. simpl.
  by rewrite js_sort_perm.
Qed.

#[local] Hint Resolve unopened_modify_stats unopened_modify_scheduled
  unopened_modify_journey unopened_set_converted unopened_set_sent
  unopened_push unopened_sort : unopened.

Section Unopened.

Variable env : Env.

Lemma unopened_createExperiment userId cohort attrs :
  preserves keeps_unopened (createExperiment env userId cohort attrs).
Proof.
  unfold createExperiment, selectCombo, generateMessage, sendAtFor,
    getNextTime, randomFrom. cbv zeta.
  preserves_go keeps_unopened_frame keeps_unopened_trans unopened.
Qed.

#[local] Hint Resolve unopened_createExperiment : unopened.

Lemma unopened_webhook_loop events processed :
  preserves keeps_unopened (webhook_loop env events processed).
Proof.
  revert processed. induction events as [|event events IH]; intros n; simpl.
  - apply (frame_ret _ keeps_unopened_frame).
  - destruct (event_user event); [|apply IH].
    apply (preserves_bind _ keeps_unopened_trans); [|intros ?; apply IH].
    unfold observeEvent, checkForConversion, updateComboStats. cbv zeta.
    preserves_go keeps_unopened_frame keeps_unopened_trans unopened.
Qed.

Lemma unopened_run_op op w : keeps_unopened w (run_op env op w).
Proof.
  destruct op; unfold run_op.
  - apply unopened_webhook_loop.
  - revert w. change (preserves keeps_unopened (deadlineSweepCron env)).
    unfold deadlineSweepCron, sweepJourney. cbv zeta.
    preserves_go keeps_unopened_frame keeps_unopened_trans unopened.
  - revert w. change (preserves keeps_unopened (deliveryDispatcherCron env)).
    unfold deliveryDispatcherCron, dispatchMessage, sendViaCleverTap,
      updateComboStats. cbv zeta.
    preserves_go keeps_unopened_frame keeps_unopened_trans unopened.
  - revert w. change (preserves keeps_unopened (apiTrigger env user_id cohort
                                                  attributes)).
    unfold apiTrigger.
    preserves_go keeps_unopened_frame keeps_unopened_trans unopened.
  - revert w. change (preserves keeps_unopened (apiExperiments limit)).
    unfold apiExperiments. cbv zeta.
    preserves_go keeps_unopened_frame keeps_unopened_trans unopened.
Qed.

End Unopened.

(** X17.  No handler records an open: in every state reachable from the
    empty document no experiment has the status [opened] and none has
    [opened_at] set, and any run of handlers keeps a document that way.
    So the [opened] alternative of the conversion check never applies to
    an experiment the engine created. *)
Theorem no_experiment_is_ever_opened (env : Env) (ops : list Op) :
  (forall w, never_opened (data w) -> never_opened (data (run_ops env ops w))) /\
  Forall (fun e => e_status e <> StOpened /\ e_opened_at e = None)
    (experiments (data (run_ops env ops initial_world))).
Proof.
  assert (H : forall w, never_opened (data w) ->
                        never_opened (data (run_ops env ops w))).
  { induction ops as [|op ops IH]; intros w Hw; simpl; [done|].
    apply IH. by apply (unopened_run_op env op w). }
  split; [exact H|]. apply (H initial_world). constructor.
Qed.

Lemma no_experiment_is_ever_opened_witness :
  never_opened (data (run_ops Ranking.half_env
                        [ OpWebhook [Ranking.payment_failed_event "a"];
                          OpDispatch;
                          OpWebhook [Conversion.trial_activated "a"] ]
                        initial_world)).
Proof.
  apply (proj1 (no_experiment_is_ever_opened Ranking.half_env
                  [ OpWebhook [Ranking.payment_failed_event "a"]; OpDispatch;
                    OpWebhook [Conversion.trial_activated "a"] ])
           initial_world).
  constructor.
Defined.

(** ** Experiments and their messages *)

Lemma later_of_refl (e : Experiment) : later_of e e.
Proof. unfold later_of. split_ands; reflexivity. Qed.

Lemma later_of_trans (a b c : Experiment) :
  later_of a b -> later_of b c -> later_of a c.
Proof.
  unfold later_of. intros H1 H2.
  destruct H1 as (?&?&?&?&?&?&?&?&?&?&?).
  destruct H2 as (?&?&?&?&?&?&?&?&?&?&?).
  split_ands; try congruence. lia.
Qed.

Lemma evolves_refl (d : DB) : evolves d d.
Proof. intros e He. exists e. split; [done|apply later_of_refl]. Qed.

Lemma evolves_trans (a b c : DB) : evolves a b -> evolves b c -> evolves a c.
Proof.
  intros H1 H2 e He. destruct (H1 e He) as (e1 & He1 & Hl1).
  destruct (H2 e1 He1) as (e2 & He2 & Hl2). exists e2. split; [done|].
  by eapply later_of_trans.
Qed.

Lemma evolves_alter (f : Experiment -> Experiment) (i : nat) (d d' : DB)
    (x : Experiment) :
  experiments d !! i = Some x -> later_of x (f x) ->
  experiments d' = alter f i (experiments d) -> evolves d d'.
Proof.
  intros Hi Hl Hd e He. rewrite Hd.
  apply list_elem_of_lookup in He as [j Hj].
  destruct (decide (j = i)) as [->|Hne].
  - rewrite Hi in Hj. injection Hj as <-. exists (f x). split; [|done].
    apply list_elem_of_lookup. exists i. by rewrite list_lookup_alter_eq, Hi.
  - exists e. split; [|apply later_of_refl].
    apply list_elem_of_lookup. exists j. by rewrite list_lookup_alter_ne.
Qed.

Lemma elem_of_alter_inv {A} (f : A -> A) (i : nat) (l : list A) (x : A) :
  x ∈ alter f i l ->
  (exists j, j <> i /\ l !! j = Some x) \/ (exists y, l !! i = Some y /\ x = f y).
Proof.
  intros [j Hj]%list_elem_of_lookup.
  destruct (decide (j = i)) as [->|Hne].
  - right. rewrite list_lookup_alter_eq in Hj.
    destruct (l !! i) as [y|]; [|done]. injection Hj as <-. eauto.
  - left. rewrite list_lookup_alter_ne in Hj by done. eauto.
Qed.

Lemma count_alter {A} (P : A -> Prop) `{!forall x, Decision (P x)}
    (f : A -> A) (i : nat) (l : list A) (x : A) :
  l !! i = Some x ->
  Z.of_nat (length (filter P (alter f i l)))
  = Z.of_nat (length (filter P l))
    - (if decide (P x) then 1 else 0) + (if decide (P (f x)) then 1 else 0).
Proof.
  revert i. induction l as [|y l IH]; intros [|i] Hi; try done.
  - injection Hi as ->.
    change (alter f 0%nat (x :: l)) with (f x :: l).
    rewrite !filter_cons.
    destruct (decide (P x)), (decide (P (f x))); simpl; lia.
  - change (alter f (S i) (y :: l)) with (y :: alter f i l).
    rewrite !filter_cons. specialize (IH i Hi).
    destruct (decide (P y)); simpl length; lia.
Qed.

Lemma NoDup_fmap_lookup {A B} (g : A -> B) (l : list A) (i j : nat) (x y : A) :
  NoDup (g <$> l) -> l !! i = Some x -> l !! j = Some y -> g x = g y -> i = j.
Proof.
  intros Hnd Hi Hj Hg. eapply NoDup_lookup; [exact Hnd| |].
  - by rewrite list_lookup_fmap, Hi.
  - by rewrite list_lookup_fmap, Hj, Hg.
Qed.

(** What a call of [createExperiment] leaves behind: the document as it
    was, or one more pending experiment, under a new identifier, and one
    more pending message that points to it. *)
Lemma createExperiment_cases (env : Env) (userId cohort : string)
    (attrs : Attributes) (w : World) (r : Res CreateResult) (w' : World) :
  createExperiment env userId cohort attrs w = (r, w') ->
  (data w' = data w /\ (n_uuid w <= n_uuid w')%nat) \/
  (exists e m,
     experiments (data w') = experiments (data w) ++ [e] /\
     scheduled_messages (data w') = scheduled_messages (data w) ++ [m] /\
     combo_stats (data w') = combo_stats (data w) /\
     e_id e = uuid env (n_uuid w) /\ e_status e = StPending /\
     sm_experiment_id m = e_id e /\ sm_status m = MsgPending /\
     (n_uuid w < n_uuid w')%nat).
Proof.
  unfold createExperiment. cbv zeta.
  unfold bind at 1. cbn [Date_now]. unfold bind at 1. cbn [get_db]. world_cbn.
  destruct (list_find _ _) as [[k recent]|].
  { intros [= <- <-]. left. simpl. done. }
  unfold bind at 1. cbn [uuidv4]. world_cbn.
  set (w1 := {| data := data w; n_clock := S (n_clock w);
                n_random := n_random w; n_uuid := S (n_uuid w);
                n_post := n_post w; console := console w |}).
  unfold bind at 1.
  pose proof (draws_selectCombo env cohort attrs w1) as (Hd2 & Hc2 & Hu2 & _).
  destruct (selectCombo env cohort attrs w1) as [[combo|e] w2].
  2:{ intros [= <- <-]. left. cbn [snd] in *. rewrite Hd2, Hu2. simpl.
      split; [done|lia]. }
  unfold bind at 1.
  pose proof (draws_generateMessage env combo attrs w2) as (Hd3 & Hc3 & Hu3 & _).
  destruct (generateMessage env combo attrs w2) as [[message|e] w3].
  2:{ intros [= <- <-]. left. cbn [snd] in *. rewrite Hd3, Hu3, Hd2, Hu2. simpl.
      split; [done|lia]. }
  cbn [snd] in Hd2, Hc2, Hu2, Hd3, Hc3, Hu3.
  unfold bind at 1. cbn [Date_now]. world_cbn.
  unfold bind at 1. cbn [modify_db]. world_cbn.
  unfold bind at 1.
  match goal with |- context [sendAtFor env (timing combo) ?wx] =>
    destruct (sendAtFor_run env (timing combo) wx) as (sendAt & -> & _)
  end.
  cbn [tick] in *. world_cbn.
  unfold bind, uuidv4, modify_db, console_log, ret. world_cbn.
  intros [= <- <-]. world_cbn. right.
  eexists _, _.
  cbn [experiments scheduled_messages combo_stats user_journey
       with_experiments with_scheduled_messages].
  rewrite Hd3, Hd2, Hu3, Hu2. cbn [data n_uuid w1].
  split_ands; try reflexivity. lia.
Qed.

Create HintDb uuids.

Lemma uuid_le_frame w w' :
  data w' = data w -> (n_clock w <= n_clock w')%nat ->
  (n_uuid w <= n_uuid w')%nat -> uuid_le w w'.
Proof. intros _ _ H. exact H. Qed.

Lemma uuid_le_trans a b c : uuid_le a b -> uuid_le b c -> uuid_le a c.
Proof. unfold uuid_le. lia. Qed.

Lemma uuid_le_modify f : preserves uuid_le (modify_db f).
Proof. intros w. unfold uuid_le. simpl. lia. Qed.

#[local] Hint Resolve uuid_le_modify : uuids.

Lemma uuid_le_checkForConversion env userId eventType :
  preserves uuid_le (checkForConversion env userId eventType).
Proof.
  unfold checkForConversion, updateComboStats. cbv zeta.
  preserves_go uuid_le_frame uuid_le_trans uuids.
Qed.

Lemma uuid_le_dispatchMessage env p :
  preserves uuid_le (dispatchMessage env p).
Proof.
  unfold dispatchMessage, sendViaCleverTap, updateComboStats. cbv zeta.
  preserves_go uuid_le_frame uuid_le_trans uuids.
Qed.

(** What the conversion check does to experiments, messages and
    statistics. *)
Lemma checkForConversion_effect (env : Env) (userId eventType : string)
    (w : World) :
  let after := (checkForConversion env userId eventType w).2 in
  scheduled_messages (data after) = scheduled_messages (data w) /\
  ((experiments (data after) = experiments (data w) /\
    combo_stats (data after) = combo_stats (data w)) \/
   (exists (i : nat) e t,
      experiments (data w) !! i = Some e /\
      (e_status e = StSent \/ e_status e = StOpened) /\
      experiments (data after) = alter (set_converted t) i (experiments (data w)) /\
      total_converted (data after) = total_converted (data w) + 1)).
Proof.
  intros after. subst after.
  remember (checkForConversion env userId eventType w) as res eqn:Hres.
  unfold checkForConversion in Hres.
  destruct (decide (eventType = "trial_activated"%string)) as [->|Hta].
  - rewrite decide_False in Hres by discriminate.
    unfold bind at 1 in Hres. cbn [ret fst snd] in Hres.
    unfold bind at 1 in Hres. unfold modify_db at 1 in Hres.
    cbn [fst snd] in Hres. unfold bind at 1 in Hres.
    cbn [get_db data fst snd experiments with_user_journey] in Hres.
    pose proof (recent_active_spec userId (experiments (data w))) as Hspec.
    cbv zeta in Hspec.
    destruct (recent_active userId (experiments (data w))) as [[i chosen]|].
    + destruct Hspec as (Hi & [_ Hact] & _).
      unfold bind at 1 in Hres. cbn [Date_now fst snd n_clock] in Hres.
      unfold bind at 1 in Hres. unfold modify_db at 1 in Hres.
      cbn [fst snd data] in Hres. unfold bind at 1 in Hres.
      match type of Hres with context [updateComboStats env ?k ?e ?c ?wx] =>
        pose proof (updateComboStats_totals env k e c wx)
          as (Hok & _ & Htc & He & Hm & _);
        destruct (updateComboStats env k e c wx) as [u wu]
      end.
      cbn [fst snd] in *. subst u.
      unfold console_log in Hres. cbn [fst snd] in Hres. subst res.
      cbn [snd data] in *. rewrite Hm, He, Htc. split; [done|].
      right. exists i, chosen, (clock env (n_clock w)).
      split; [exact Hi|]. split; [exact Hact|]. split; [reflexivity|].
      unfold total_converted. reflexivity.
    + cbn [ret] in Hres. subst res. cbn [snd data]. split; [done|]. by left.
  - destruct (decide (eventType = "trial_initiated"%string));
      unfold bind, modify_db, ret in Hres; cbn [fst snd] in Hres; subst res;
      cbn [snd data]; (split; [done|]); by left.
Qed.

Create HintDb link.

Lemma keeps_link_same_data env w w' :
  data w' = data w -> (n_uuid w <= n_uuid w')%nat -> keeps_link env w w'.
Proof.
  intros Hdata Hu (Ha & Hb & Hc & Hd & He).
  split; [|rewrite Hdata; apply evolves_refl].
  unfold linked, converted_experiments. rewrite Hdata.
  split_ands; try done.
  eapply Forall_impl; [exact Ha|]. intros e (k & Hk & ->).
  exists k. split; [lia|done].
Qed.

Lemma keeps_link_frame env w w' :
  data w' = data w -> (n_clock w <= n_clock w')%nat ->
  (n_uuid w <= n_uuid w')%nat -> keeps_link env w w'.
Proof. intros Hdata _ Hu. by apply keeps_link_same_data. Qed.

Lemma keeps_link_trans env a b c :
  keeps_link env a b -> keeps_link env b c -> keeps_link env a c.
Proof.
  intros H1 H2 Ha. destruct (H1 Ha) as [Hb E1]. destruct (H2 Hb) as [Hc E2].
  split; [done|]. by eapply evolves_trans.
Qed.

Lemma link_modify_journey env f :
  preserves (keeps_link env) (modify_db (with_user_journey f)).
Proof.
  intros w H. split; [exact H|].
  intros e He. exists e. split; [exact He|apply later_of_refl].
Qed.

Lemma link_sort env before :
  preserves (keeps_link env) (modify_db (with_experiments (js_sort before))).
Proof.
  intros w (Ha & Hb & Hc & Hd & He).
  pose proof (js_sort_perm before (experiments (data w))) as P.
  split.
  - unfold linked, converted_experiments.
    cbn [modify_db snd data n_uuid experiments scheduled_messages
         with_experiments].
    split_ands.
    + by rewrite P.
    + by rewrite P.
    + by rewrite P.
    + intros m e Hm Hin. rewrite P in Hin. by apply Hd.
    + transitivity (converted_experiments (data w)); [exact He|].
      unfold converted_experiments. by rewrite P.
  - intros e Hin. exists e. split; [|apply later_of_refl].
    cbn [modify_db snd data experiments with_experiments]. by rewrite P.
Qed.

#[local] Hint Resolve link_modify_journey link_sort : link.

Lemma elem_of_snoc_inv {A} (l : list A) (x y : A) :
  y ∈ l ++ [x] -> y ∈ l \/ y = x.
Proof.
  intros [H|H]%elem_of_app; [by left|].
  apply list_elem_of_singleton in H. by right.
Qed.

Section Link.

Variable env : Env.
Hypothesis unique : uuid_unique env.

(** An identifier still to be drawn is not the id of a stored
    experiment. *)
Lemma linked_fresh (w : World) (n : nat) (e : Experiment) :
  linked env w -> (n_uuid w <= n)%nat -> e ∈ experiments (data w) ->
  e_id e <> uuid env n.
Proof.
  intros (Ha & _) Hn He Heq. rewrite Forall_forall in Ha.
  destruct (Ha e He) as (k & Hk & Hid). rewrite Hid in Heq.
  apply unique in Heq. lia.
Qed.

Lemma linked_message_has_experiment (w : World) (m : ScheduledMessage) :
  linked env w -> m ∈ scheduled_messages (data w) ->
  exists e, e ∈ experiments (data w) /\ e_id e = sm_experiment_id m.
Proof.
  intros (_ & _ & Hc & _) Hm.
  assert (Hin : sm_experiment_id m ∈ e_id <$> experiments (data w)).
  { rewrite <- Hc. apply list_elem_of_fmap. eauto. }
  apply list_elem_of_fmap in Hin as (e & Hid & He). eauto.
Qed.

Lemma link_createExperiment userId cohort attrs :
  preserves (keeps_link env) (createExperiment env userId cohort attrs).
Proof.
  intros w Hl.
  destruct (createExperiment env userId cohort attrs w) as [r w'] eqn:Hrun.
  cbn [snd].
  destruct (createExperiment_cases env userId cohort attrs w r w' Hrun)
    as [[Hdata Hu]|(e & m & Hexp & Hmsg & Hst & Hid & Hpe & Hmid & Hpm & Hu)].
  { by apply (keeps_link_same_data env w w'). }
  pose proof Hl as (Ha & Hb & Hc & Hd & He).
  assert (Hnew : forall x, x ∈ experiments (data w) -> e_id x <> e_id e).
  { intros x Hx. rewrite Hid. by apply (linked_fresh w). }
  split.
  - unfold linked, converted_experiments, total_converted.
    rewrite Hexp, Hmsg, Hst. split_ands.
    + apply Forall_app. split.
      * eapply Forall_impl; [exact Ha|]. intros x (k & Hk & ->).
        exists k. split; [lia|done].
      * repeat constructor. exists (n_uuid w). split; [lia|done].
    + rewrite fmap_app. apply NoDup_app. split; [done|]. split.
      * intros id Hin Hin'. apply list_elem_of_singleton in Hin'. subst id.
        apply list_elem_of_fmap in Hin as (x & Hx & Hin).
        by apply (Hnew x Hin).
      * apply NoDup_singleton.
    + rewrite !fmap_app. simpl. rewrite Hmid. by rewrite Hc.
    + intros m' e' Hm' He' Hids.
      apply elem_of_snoc_inv in Hm' as [Hm'| ->];
        apply elem_of_snoc_inv in He' as [He'| ->].
      * by apply Hd.
      * exfalso.
        destruct (linked_message_has_experiment w m' Hl Hm') as (x & Hx & Hxid).
        apply (Hnew x Hx). congruence.
      * exfalso. apply (Hnew e' He'). congruence.
      * by rewrite Hpe, Hpm.
    + rewrite filter_app, length_app. simpl.
      rewrite filter_cons, decide_False by (rewrite Hpe; discriminate).
      rewrite filter_nil. simpl. rewrite Nat.add_0_r. exact He.
  - intros x Hx. exists x. split; [|apply later_of_refl].
    rewrite Hexp. apply elem_of_app. by left.
Qed.

Lemma link_checkForConversion userId eventType :
  preserves (keeps_link env) (checkForConversion env userId eventType).
Proof.
  intros w Hl. pose proof Hl as (Ha & Hb & Hc & Hd & He).
  pose proof (uuid_le_checkForConversion env userId eventType w) as Hu.
  destruct (checkForConversion_effect env userId eventType w)
    as [Hmsg [[Hexp Hst]|(i & e & t & Hi & Hact & Hexp & Htc)]].
  - split.
    + unfold linked, converted_experiments, total_converted.
      rewrite Hexp, Hmsg, Hst. split_ands; try done.
      eapply Forall_impl; [exact Ha|]. intros x (k & Hk & ->).
      exists k. split; [unfold uuid_le in Hu; lia|done].
    + intros x Hx. exists x. split; [by rewrite Hexp|apply later_of_refl].
  - assert (Hids : e_id <$> alter (set_converted t) i (experiments (data w))
                   = e_id <$> experiments (data w))
      by (by apply fmap_alter_same).
    split.
    + unfold linked, converted_experiments.
      rewrite Hexp, Hmsg, Htc, Hids. split_ands; try done.
      * apply Forall_alter.
        -- eapply Forall_impl; [exact Ha|]. intros x (k & Hk & ->).
           exists k. split; [unfold uuid_le in Hu; lia|done].
        -- intros x _ (k & Hk & Hx). exists k. split; [exact Hk|exact Hx].
      * intros m e' Hm He' Hsame.
        apply elem_of_alter_inv in He' as [(j & Hne & Hj)|(y & Hy & ->)].
        -- apply Hd; [done| |done]. by eapply list_elem_of_lookup_2.
        -- rewrite Hi in Hy. injection Hy as <-. simpl in Hsame |- *.
           pose proof (Hd m e Hm (list_elem_of_lookup_2 _ _ _ Hi) Hsame) as Hiff.
           split; [|done]. intros Hp. apply Hiff in Hp.
           destruct Hact as [Hs|Hs]; rewrite Hs in Hp; discriminate.
      * rewrite (count_alter _ _ i _ e Hi), He.
        unfold converted_experiments.
        rewrite decide_False
          by (destruct Hact as [Hs|Hs]; rewrite Hs; discriminate).
        rewrite decide_True by reflexivity. lia.
    + eapply (evolves_alter _ i _ _ e Hi); [|exact Hexp].
      unfold later_of. simpl. split_ands; try reflexivity.
      destruct (e_status e); simpl; lia.
Qed.

#[local] Hint Resolve link_createExperiment link_checkForConversion : link.

Lemma link_webhook_loop events processed :
  preserves (keeps_link env) (webhook_loop env events processed).
Proof.
  revert processed. induction events as [|event events IH]; intros n; simpl.
  - apply (frame_ret _ (keeps_link_frame env)).
  - destruct (event_user event); [|apply IH].
    apply (preserves_bind _ (keeps_link_trans env)); [|intros ?; apply IH].
    unfold observeEvent. cbv zeta.
    preserves_go (keeps_link_frame env) (keeps_link_trans env) link.
Qed.

(** One turn of the dispatcher for a message that is still pending. *)
Lemma link_dispatchMessage (i : nat) (msg : ScheduledMessage) (w : World) :
  scheduled_messages (data w) !! i = Some msg -> sm_status msg = MsgPending ->
  linked env w ->
  let after := (dispatchMessage env (i, msg) w).2 in
  linked env after /\ evolves (data w) (data after) /\
  forall j, j <> i ->
    scheduled_messages (data after) !! j = scheduled_messages (data w) !! j.
Proof.
  intros Hi Hp Hl after. subst after.
  pose proof Hl as (Ha & Hb & Hc & Hd & He).
  pose proof (uuid_le_dispatchMessage env (i, msg) w) as Hu.
  unfold uuid_le in Hu.
  destruct (list_find (fun e => e_id e = sm_experiment_id msg)
              (experiments (data w))) as [[k e]|] eqn:Hfind.
  2:{ rewrite (dispatchMessage_orphan env i msg w Hfind). cbn [snd].
      split; [done|]. split; [apply evolves_refl|done]. }
  destruct (dispatchMessage_found env i msg w k e Hfind)
    as (_ & Hmsg & Hexp & _ & _ & Htc).
  apply list_find_Some in Hfind as (Hk & Hid & _).
  assert (Hpe : e_status e = StPending).
  { apply (Hd msg e); [by eapply list_elem_of_lookup_2..|done|done]. }
  assert (Hids : e_id <$> alter (set_sent (clock env (n_clock w))) k
                            (experiments (data w))
                 = e_id <$> experiments (data w))
    by (by apply fmap_alter_same).
  assert (Hmids : sm_experiment_id <$> alter (set_msg_status MsgSent) i
                                         (scheduled_messages (data w))
                  = sm_experiment_id <$> scheduled_messages (data w))
    by (by apply fmap_alter_same).
  assert (Hndm : NoDup (sm_experiment_id <$> scheduled_messages (data w)))
    by (by rewrite Hc).
  split; [|split].
  - unfold linked, converted_experiments.
    rewrite Hexp, Hmsg, Htc, Hids, Hmids. split_ands; try done.
    + apply Forall_alter.
      * eapply Forall_impl; [exact Ha|]. intros x (n & Hn & ->).
        exists n. split; [lia|done].
      * intros x _ (n & Hn & Hx). exists n. split; [exact Hn|exact Hx].
    + intros m' e' Hm' He' Hsame.
      apply elem_of_alter_inv in Hm' as [(j & Hne & Hj)|(y & Hy & ->)];
        apply elem_of_alter_inv in He' as [(j' & Hne' & Hj')|(y' & Hy' & ->)].
      * apply Hd; [by eapply list_elem_of_lookup_2..|done].
      * exfalso. rewrite Hk in Hy'. injection Hy' as <-. simpl in Hsame.
        apply Hne.
        eapply (NoDup_fmap_lookup sm_experiment_id _ j i m' msg);
          [exact Hndm|exact Hj|exact Hi|congruence].
      * exfalso. rewrite Hi in Hy. injection Hy as <-. simpl in Hsame.
        apply Hne'.
        eapply (NoDup_fmap_lookup e_id _ j' k e' e);
          [exact Hb|exact Hj'|exact Hk|congruence].
      * simpl. split; discriminate.
    + rewrite (count_alter _ _ k _ e Hk), He.
      unfold converted_experiments.
      rewrite decide_False by (rewrite Hpe; discriminate).
      rewrite decide_False by discriminate. lia.
  - eapply (evolves_alter _ k _ _ e Hk); [|exact Hexp].
    unfold later_of. simpl. split_ands; try reflexivity.
    rewrite Hpe. simpl. lia.
  - intros j Hne. rewrite Hmsg. by rewrite list_lookup_alter_ne.
Qed.

Lemma link_dispatch_loop (rest : list (nat * ScheduledMessage)) (w : World) :
  NoDup rest.*1 ->
  (forall i msg, (i, msg) ∈ rest ->
     scheduled_messages (data w) !! i = Some msg /\ sm_status msg = MsgPending) ->
  linked env w ->
  linked env (for_of rest (dispatchMessage env) w).2 /\
  evolves (data w) (data (for_of rest (dispatchMessage env) w).2).
Proof.
  revert w. induction rest as [|[i msg] rest IH]; intros w Hnd Hrest Hl.
  { split; [done|apply evolves_refl]. }
  simpl. unfold bind. apply NoDup_cons in Hnd as [Hnotin Hnd].
  destruct (Hrest i msg) as (Hi & Hp); [left|].
  destruct (link_dispatchMessage i msg w Hi Hp Hl) as (Hl1 & E1 & Hkeep).
  destruct (dispatchMessage env (i, msg) w) as [[[]|err] w1]; cbn [snd] in *;
    [|done].
  destruct (IH w1) as [Hl2 E2]; [done| |done|].
  - intros i' msg' Hin. rewrite Hkeep.
    + apply (Hrest i' msg'). by right.
    + intros ->. apply Hnotin. apply list_elem_of_fmap. by exists (i, msg').
  - split; [done|]. by eapply evolves_trans.
Qed.

Lemma link_run_op op w : keeps_link env w (run_op env op w).
Proof.
  destruct op; unfold run_op.
  - apply link_webhook_loop.
  - revert w. change (preserves (keeps_link env) (deadlineSweepCron env)).
    unfold deadlineSweepCron, sweepJourney. cbv zeta.
    preserves_go (keeps_link_frame env) (keeps_link_trans env) link.
  - intros Hl. unfold deliveryDispatcherCron, bind. simpl.
    match goal with |- context [for_of ?rest _ ?wx] =>
      change (data w) with (data wx) at 2;
      apply (link_dispatch_loop rest wx)
    end.
    + apply picked_NoDup.
    + intros i msg Hin. apply picked_elem_of in Hin as [Hi [Hp _]].
      simpl in *. done.
    + by apply (keeps_link_same_data env w).
  - revert w. change (preserves (keeps_link env)
                        (apiTrigger env user_id cohort attributes)).
    unfold apiTrigger.
    preserves_go (keeps_link_frame env) (keeps_link_trans env) link.
  - revert w. change (preserves (keeps_link env) (apiExperiments limit)).
    unfold apiExperiments. cbv zeta.
    preserves_go (keeps_link_frame env) (keeps_link_trans env) link.
Qed.

Lemma link_run_ops ops w : keeps_link env w (run_ops env ops w).
Proof.
  revert w. induction ops as [|op ops IH]; intros w; simpl.
  - intros Hl. split; [done|apply evolves_refl].
  - eapply keeps_link_trans; [apply link_run_op|apply IH].
Qed.

End Link.

Lemma linked_initial (env : Env) : linked env initial_world.
Proof.
  unfold linked. simpl. split_ands; try done.
  - constructor.
  - intros m e Hm. by apply elem_of_nil in Hm.
Qed.

Lemma account_run_ops (env : Env) (ops : list Op) (w : World) :
  accounted (data w) -> accounted (data (run_ops env ops w)).
Proof.
  revert w. induction ops as [|op ops IH]; intros w Hw; simpl; [done|].
  apply IH. by apply (account_run_op env op w).
Qed.

Lemma pretty_uuid_unique (env : Env) :
  (forall n, uuid env n = pretty (Z.of_nat n)) -> uuid_unique env.
Proof.
  intros Hu i j. rewrite !Hu. intros H. apply (inj pretty) in H. lia.
Qed.

(** X18.  Experiments and scheduled messages stay paired.  With
    [uuidv4()] never repeating an identifier, in every state reachable
    from the empty document the stored experiments have distinct ids, the
    experiment ids of the scheduled messages are the ids of the stored
    experiments, each exactly once (one message per experiment, and no
    message without its experiment), and a message is pending exactly when
    its experiment is. *)
Theorem messages_and_experiments_stay_paired (env : Env) (ops : list Op) :
  uuid_unique env ->
  let d := data (run_ops env ops initial_world) in
  NoDup (e_id <$> experiments d) /\
  sm_experiment_id <$> scheduled_messages d ≡ₚ e_id <$> experiments d /\
  forall m, m ∈ scheduled_messages d ->
    exists e, e ∈ experiments d /\ e_id e = sm_experiment_id m /\
              (sm_status m = MsgPending <-> e_status e = StPending).
Proof.
  intros unique d.
  destruct (link_run_ops env unique ops initial_world (linked_initial env))
    as [Hl _].
  pose proof Hl as (_ & Hb & Hc & Hd & _).
  split; [exact Hb|]. split; [exact Hc|].
  intros m Hm.
  destruct (linked_message_has_experiment env _ m Hl Hm) as (e & He & Hid).
  exists e. split; [exact He|]. split; [exact Hid|]. by apply Hd.
Qed.

Lemma messages_and_experiments_stay_paired_witness :
  let d := data (run_ops Ranking.half_env
                   [ OpWebhook [Ranking.payment_failed_event "a"]; OpDispatch;
                     OpWebhook [Conversion.trial_activated "a"] ]
                   initial_world) in
  sm_experiment_id <$> scheduled_messages d ≡ₚ e_id <$> experiments d.
Proof.
  exact (proj1 (proj2 (messages_and_experiments_stay_paired Ranking.half_env
                         [ OpWebhook [Ranking.payment_failed_event "a"];
                           OpDispatch;
                           OpWebhook [Conversion.trial_activated "a"] ]
                         (pretty_uuid_unique Ranking.half_env
                            (fun n => eq_refl))))).
Defined.





(** ** The statistics route *)

Lemma count_impl {A} (P Q : A -> Prop) `{!forall x, Decision (P x)}
    `{!forall x, Decision (Q x)} (l : list A) :
  (forall x, P x -> Q x) -> Stats.count P l <= Stats.count Q l.
Proof.
  intros HPQ. unfold Stats.count. apply inj_le.
  induction l as [|x l IH]; [done|]. rewrite !filter_cons.
  destruct (decide (P x)) as [HP|HP].
  - rewrite decide_True by auto. simpl. lia.
  - destruct (decide (Q x)); simpl; lia.
Qed.

Lemma count_ext {A} (P Q : A -> Prop) `{!forall x, Decision (P x)}
    `{!forall x, Decision (Q x)} (l : list A) :
  Forall (fun x => P x <-> Q x) l -> Stats.count P l = Stats.count Q l.
Proof.
  intros HPQ. unfold Stats.count. f_equal.
  induction HPQ as [|x l Hx _ IH]; [done|]. rewrite !filter_cons.
  destruct (decide (P x)) as [HP|HP].
  - rewrite decide_True by (by apply Hx). simpl. by rewrite IH.
  - rewrite decide_False by (by rewrite <- Hx). exact IH.
Qed.

Lemma count_le_length {A} (P : A -> Prop) `{!forall x, Decision (P x)}
    (l : list A) :
  0 <= Stats.count P l <= Z.of_nat (length l).
Proof.
  unfold Stats.count. split; [lia|]. apply inj_le.
  induction l as [|x l IH]; [done|]. rewrite filter_cons.
  destruct (decide (P x)); simpl; lia.
Qed.

(** Paired lists have as many members on one side as on the other. *)
Lemma paired_count (ms : list ScheduledMessage) (es : list Experiment) :
  sm_experiment_id <$> ms ≡ₚ e_id <$> es ->
  NoDup (e_id <$> es) ->
  (forall m e, m ∈ ms -> e ∈ es -> sm_experiment_id m = e_id e ->
     (sm_status m = MsgPending <-> e_status e = StPending)) ->
  length (filter (fun m => sm_status m <> MsgPending) ms)
  = length (filter (fun e => e_status e <> StPending) es).
Proof.
  revert ms. induction es as [|e es IH]; intros ms Hperm Hnd Hagree.
  - apply Permutation_nil_r in Hperm. apply fmap_nil_inv in Hperm. by subst ms.
  - assert (Hin : e_id e ∈ sm_experiment_id <$> ms).
    { rewrite Hperm. left. }
    apply list_elem_of_fmap in Hin as (m & Hid & Hm).
    apply elem_of_Permutation in Hm as [ms' Hms].
    rewrite Hms in Hperm |- *. rewrite !fmap_cons in Hperm.
    rewrite <- Hid in Hperm. apply Permutation_cons_inv in Hperm.
    rewrite fmap_cons in Hnd. apply NoDup_cons in Hnd as [_ Hnd].
    assert (Hhead : sm_status m = MsgPending <-> e_status e = StPending).
    { apply Hagree; [rewrite Hms; left|left|done]. }
    assert (Hrest : forall m' e', m' ∈ ms' -> e' ∈ es ->
              sm_experiment_id m' = e_id e' ->
              (sm_status m' = MsgPending <-> e_status e' = StPending)).
    { intros m' e' Hm' He'. apply Hagree; [rewrite Hms|]; by right. }
    specialize (IH ms' Hperm Hnd Hrest).
    rewrite !filter_cons.
    destruct (decide (sm_status m <> MsgPending)) as [Hm'|Hm'];
      destruct (decide (e_status e <> StPending)) as [He'|He'].
    + simpl. by rewrite IH.
    + exfalso. apply Hm', Hhead. by apply dec_stable.
    + exfalso. apply He', Hhead. by apply dec_stable.
    + exact IH.
Qed.

Lemma unopened_run_ops (env : Env) (ops : list Op) (w : World) :
  never_opened (data w) -> never_opened (data (run_ops env ops w)).
Proof.
  revert w. induction ops as [|op ops IH]; intros w Hw; simpl; [done|].
  apply IH. by apply (unopened_run_op env op w).
Qed.



(** ** Levers and offers without a text *)

Lemma js_replace_absent (s pat replacement : string) :
  split_first pat s = None -> js_replace s pat replacement = s.
Proof. unfold js_replace. by intros ->. Qed.


